(** * vcf-parser: the line loop of [src/main.py], embedded and verified

    The development follows [main] of [src/main.py] (lines 219-447): the
    loop that reads a VCF export line by line, assembles one contact
    dictionary per record, disambiguates repeated fields, decodes the
    field-specific encodings and filters finished contacts on their tags.

    Python values are modelled as follows.
    - A [str] is the list of its code points ([N]), so that [len], slicing
      and indexing count characters exactly as Python 3 does.
    - A [dict] is an insertion-ordered association list with unique keys.
    - An exception aborts the run: fallible operations return [result]. *)

From Stdlib Require Import ZArith NArith Lia Ascii String DecimalNat.
From stdpp Require Import base list strings.

Local Open Scope Z_scope.

(** ** Exceptions *)

Inductive exn := IndexError | KeyError.

Inductive result (A : Type) :=
| Ok (a : A)
| Raise (e : exn).
Arguments Ok {A} a.
Arguments Raise {A} e.

#[global] Instance result_ret : MRet result := @Ok.
#[global] Instance result_bind : MBind result := λ A B f m,
  match m with Ok a => f a | Raise e => Raise e end.

(** ** Python strings *)

Abbreviation str := (list N).

(** An ASCII literal as a Python string. *)
Definition py (s : string) : str :=
  (λ a, N_of_ascii a) <$> list_ascii_of_string s.

Definition LF : N := 10%N.          (* '\n' *)
Definition SPACE : N := 32%N.       (* ' ' *)
Definition BACKSLASH : N := 92%N.   (* '\\' *)
Definition NBSP : N := 160%N.       (* '\xa0' *)
Definition ZWSP : N := 8203%N.      (* '\u200b' *)

Module PyStr.

(** [s.startswith(p)] *)
Fixpoint startswith (s p : str) {struct p} : bool :=
  match p, s with
  | [], _ => true
  | _ :: _, [] => false
  | c :: p', d :: s' => (c =? d)%N && startswith s' p'
  end.

(** [sub in s] *)
Fixpoint contains (s sub : str) : bool :=
  startswith s sub ||
  match s with
  | [] => false
  | _ :: s' => contains s' sub
  end.

(** [s.find(sub)]: the lowest index of [sub] in [s], or [-1]. *)
Fixpoint find (s sub : str) : Z :=
  if startswith s sub then 0
  else match s with
       | [] => -1
       | _ :: s' => let r := find s' sub in if r <? 0 then -1 else r + 1
       end.

(** [s.split(sep)] for a non-empty [sep] (an empty one is a ValueError in
    Python; every separator of the program is a non-empty literal).
    [skip] counts the characters of a matched separator still to be
    dropped, [cur] is the piece being read, in reverse. *)
Fixpoint split_go (sep : str) (skip : nat) (cur s : str) : list str :=
  match s with
  | [] => [rev cur]
  | c :: s' =>
      match skip with
      | S k => split_go sep k cur s'
      | O => if startswith s sep
             then rev cur :: split_go sep (length sep - 1) [] s'
             else split_go sep 0 (c :: cur) s'
      end
  end.

Definition split (s sep : str) : list str := split_go sep 0 [] s.

(** [re.split(':|;', s)] *)
Fixpoint re_split_go (cur s : str) : list str :=
  match s with
  | [] => [rev cur]
  | c :: s' =>
      if (c =? 58)%N || (c =? 59)%N
      then rev cur :: re_split_go [] s'
      else re_split_go (c :: cur) s'
  end.

Definition re_split_colon_semicolon (s : str) : list str := re_split_go [] s.

(** [s.replace(old, new)]: leftmost, non-overlapping occurrences. *)
Fixpoint replace_go (old new : str) (skip : nat) (s : str) : str :=
  match s with
  | [] => []
  | c :: s' =>
      match skip with
      | S k => replace_go old new k s'
      | O => if startswith s old
             then new ++ replace_go old new (length old - 1) s'
             else c :: replace_go old new 0 s'
      end
  end.

Definition replace (s old new : str) : str :=
  match old with
  | [] => new ++ flat_map (λ c, c :: new) s
  | _ :: _ => replace_go old new 0 s
  end.

(** [l[i]] with Python's negative indices; out of range is an
    [IndexError]. *)
Definition index {A} (l : list A) (i : Z) : result A :=
  let n := Z.of_nat (length l) in
  let j := if i <? 0 then i + n else i in
  if (j <? 0) || (n <=? j) then Raise IndexError
  else match l !! Z.to_nat j with
       | Some x => Ok x
       | None => Raise IndexError
       end.

(** [l[lo:hi]]; [None] is an omitted bound. Never raises. *)
Definition clamp (n : Z) (i : Z) : Z :=
  let j := if i <? 0 then i + n else i in
  if j <? 0 then 0 else if n <? j then n else j.

Definition slice {A} (l : list A) (lo hi : option Z) : list A :=
  let n := Z.of_nat (length l) in
  let a := match lo with Some i => clamp n i | None => 0 end in
  let b := match hi with Some i => clamp n i | None => n end in
  take (Z.to_nat (b - a)) (drop (Z.to_nat a) l).

(** [str(n)] for a non-negative integer. *)
Fixpoint digits (u : Decimal.uint) : str :=
  match u with
  | Decimal.Nil => []
  | Decimal.D0 u => 48%N :: digits u
  | Decimal.D1 u => 49%N :: digits u
  | Decimal.D2 u => 50%N :: digits u
  | Decimal.D3 u => 51%N :: digits u
  | Decimal.D4 u => 52%N :: digits u
  | Decimal.D5 u => 53%N :: digits u
  | Decimal.D6 u => 54%N :: digits u
  | Decimal.D7 u => 55%N :: digits u
  | Decimal.D8 u => 56%N :: digits u
  | Decimal.D9 u => 57%N :: digits u
  end.

Definition str_of_nat (n : nat) : str := digits (Nat.to_uint n).

End PyStr.

(** ** Python dictionaries

    Insertion-ordered, keys unique: assigning to a present key keeps its
    position, assigning to an absent key appends, [pop] removes. *)

Section pydict.
Context {K V : Type} `{EqDecision K}.

(** [d.get(k)] *)
Fixpoint dict_get (d : list (K * V)) (k : K) : option V :=
  match d with
  | [] => None
  | (k', v) :: d' => if decide (k' = k) then Some v else dict_get d' k
  end.

(** [k in d] *)
Definition dict_mem (d : list (K * V)) (k : K) : bool :=
  match dict_get d k with Some _ => true | None => false end.

(** [d[k]] *)
Definition dict_getitem (d : list (K * V)) (k : K) : result V :=
  match dict_get d k with Some v => Ok v | None => Raise KeyError end.

(** [d[k] = v] *)
Fixpoint dict_set (d : list (K * V)) (k : K) (v : V) : list (K * V) :=
  match d with
  | [] => [(k, v)]
  | (k', v') :: d' =>
      if decide (k' = k) then (k', v) :: d' else (k', v') :: dict_set d' k v
  end.

(** [del d[k]]; keys are unique in a Python dictionary, so dropping
    every binding of [k] drops the one there is. *)
Fixpoint dict_del (d : list (K * V)) (k : K) : list (K * V) :=
  match d with
  | [] => []
  | (k', v') :: d' =>
      if decide (k' = k) then dict_del d' k else (k', v') :: dict_del d' k
  end.

(** [d.pop(k)]: the value and the dictionary without the key. *)
Definition dict_pop (d : list (K * V)) (k : K) : result (V * list (K * V)) :=
  match dict_get d k with
  | Some v => Ok (v, dict_del d k)
  | None => Raise KeyError
  end.

(** [list(d.keys())] *)
Definition dict_keys (d : list (K * V)) : list K := d.*1.
End pydict.

(** ** The data of [main]

    The three field tables come from JSON files that map a raw key to
    [{"value": canonical name, "count": occurrences}]. *)

Record field_entry := { entry_value : str; entry_count : nat }.

Abbreviation table := (list (str * field_entry)).
Abbreviation contact := (list (str * str)).

(** Command-line arguments and the key lists computed once before the loop
    (lines 240, 245 and 251). *)
Record env := {
  tag_list : list str;
  logic_op : str;
  standard_field_list : list str;
  custom_field_list : list str;
  social_profile_field_list : list str;
}.

(** The variables of [main] that live across iterations of the loop. *)
Record state := {
  contacts_dict : list (nat * contact);
  contact_id : nat;
  listening_to_data : bool;
  contact_dict : contact;
  key : str;
  key_previous : str;
  value : str;
  value_previous : str;
  last_symbol : str;
  standard_field_dict : table;
  custom_field_dict : table;
  social_profile_field_dict : table;
}.

Definition BEGIN_SYMBOL : str := py "N:".
Definition END_SYMBOL : str := py "END:".

(** [reset_field_counts] (lines 187-193): the inner loop over one table,
    and the outer loop over the list of tables. *)
Definition reset_field_count (field_dict : table) : table :=
  (λ kv, (kv.1, {| entry_value := entry_value kv.2; entry_count := 0 |}))
    <$> field_dict.

Definition reset_field_counts (field_dict_list : list table) : list table :=
  reset_field_count <$> field_dict_list.

(** [add_contact] (lines 196-203). *)
Definition add_contact (contacts_dict : list (nat * contact))
    (contact_dict : contact) (contact_id : nat)
    : list (nat * contact) * contact * nat * bool :=
  (dict_set contacts_dict contact_id contact_dict, contact_dict,
   (contact_id + 1)%nat, false).

(** *** Record start (lines 270-276)

    [field_dict_list] aliases the three tables, so resetting it resets
    each of them. *)
Definition begin_record (st : state) : state :=
  {| contacts_dict := contacts_dict st;
     contact_id := contact_id st;
     listening_to_data := true;
     contact_dict := [];
     key := BEGIN_SYMBOL;
     key_previous := BEGIN_SYMBOL;
     value := value st;
     value_previous := value_previous st;
     last_symbol := last_symbol st;
     standard_field_dict := reset_field_count (standard_field_dict st);
     custom_field_dict := reset_field_count (custom_field_dict st);
     social_profile_field_dict := reset_field_count (social_profile_field_dict st) |}.

(** *** Record end (lines 278-314) *)

(** [listening_to_data = False] *)
Definition stop_listening (st : state) : state :=
  {| contacts_dict := contacts_dict st;
     contact_id := contact_id st;
     listening_to_data := false;
     contact_dict := contact_dict st;
     key := key st;
     key_previous := key_previous st;
     value := value st;
     value_previous := value_previous st;
     last_symbol := last_symbol st;
     standard_field_dict := standard_field_dict st;
     custom_field_dict := custom_field_dict st;
     social_profile_field_dict := social_profile_field_dict st |}.

(** [contacts_dict, contact_dict, contact_id, listening_to_data =
     add_contact(contacts_dict, contact_dict, contact_id)] *)
Definition call_add_contact (st : state) : state :=
  let '(cs, c, i, l) :=
    add_contact (contacts_dict st) (contact_dict st) (contact_id st) in
  {| contacts_dict := cs;
     contact_id := i;
     listening_to_data := l;
     contact_dict := c;
     key := key st;
     key_previous := key_previous st;
     value := value st;
     value_previous := value_previous st;
     last_symbol := last_symbol st;
     standard_field_dict := standard_field_dict st;
     custom_field_dict := custom_field_dict st;
     social_profile_field_dict := social_profile_field_dict st |}.

(** How the body of the record-end test leaves: by [continue], or by falling
    through to the rest of the loop body. *)
Inductive flow :=
| Continue (st : state)
| FallThrough (st : state).

Definition end_record (e : env) (st : state) : result flow :=
  if (0 <? length (tag_list e))%nat then
    if negb (dict_mem (contact_dict st) (py "Tags")) then
      Ok (Continue (stop_listening st))
    else
      entry ← dict_getitem (standard_field_dict st) (py "CATEGORIES");
      let tag_value := entry_value entry in
      tags ← dict_getitem (contact_dict st) tag_value;
      let contact_tags := PyStr.split tags (py ",") in
      if bool_decide (logic_op e = py "&") then
        if negb (forallb (λ tag, bool_decide (tag ∈ contact_tags)) (tag_list e))
        then Ok (Continue (stop_listening st))
        else Ok (Continue (call_add_contact st))
      else if bool_decide (logic_op e = py "|") then
        if negb (existsb (λ tag, bool_decide (tag ∈ contact_tags)) (tag_list e))
        then Ok (Continue (stop_listening st))
        else Ok (Continue (call_add_contact st))
      else Ok (FallThrough st)
  else Ok (Continue (call_add_contact st)).

(** *** Contact name (lines 319-332) *)

Definition set_if_nonempty (d : contact) (k v : str) : contact :=
  if (0 <? length v)%nat then dict_set d k v else d.

Definition contact_name (line : str) (contact_dict : contact) : result contact :=
  names ← PyStr.index (PyStr.split line (py ":")) (-1);
  last_name ← PyStr.index (PyStr.split names (py ";")) 0;
  first_name ← PyStr.index (PyStr.split names (py ";")) 1;
  middle_name_1 ← PyStr.index (PyStr.split names (py ";")) 2;
  middle_name_2 ← PyStr.index (PyStr.split names (py ";")) 3;
  let contact_dict := set_if_nonempty contact_dict (py "Last Name") last_name in
  let contact_dict := set_if_nonempty contact_dict (py "First Name") first_name in
  let contact_dict := set_if_nonempty contact_dict (py "Middle Name 1") middle_name_1 in
  let contact_dict := set_if_nonempty contact_dict (py "Middle Name 2") middle_name_2 in
  Ok contact_dict.

(** *** Occurrence counting and renaming

    Lines 339-346, repeated verbatim for the custom table (389-396) and
    the social-profile table (405-412): look the canonical name up, count
    the occurrence, at the second occurrence move the bare entry to
    [value_1], and from the second occurrence on store under
    [value_count]. Returns the table, the contact and the destination
    name. *)
Definition occurrence (field_dict : table) (contact_dict : contact)
    (key : str) : result (table * contact * str) :=
  entry ← dict_getitem field_dict key;
  let value := entry_value entry in
  let count := (entry_count entry + 1)%nat in
  let field_dict :=
    dict_set field_dict key {| entry_value := entry_value entry; entry_count := count |} in
  if (1 <? count)%nat then
    contact_dict ←
      (if (count =? 2)%nat then
         popped ← dict_pop contact_dict value;
         Ok (dict_set popped.2 (value ++ py "_1") popped.1)
       else Ok contact_dict);
    Ok (field_dict, contact_dict, value ++ py "_" ++ PyStr.str_of_nat count)
  else Ok (field_dict, contact_dict, value).

(** *** Built-in fields (lines 335-381) *)

(** Lines 367-371, and again lines 438-442. *)
Definition note_translate (data : str) : str :=
  let data := PyStr.replace data [NBSP] [] in
  let data := PyStr.replace data [ZWSP] [] in
  let data := PyStr.replace data [BACKSLASH; 110%N] [LF] in
  PyStr.replace data [BACKSLASH] [].

(** Lines 375-378. *)
Definition birthday (data : str) : str :=
  if PyStr.startswith data (py "--") then
    PyStr.slice data (Some 2) (Some 4) ++ py "-" ++ PyStr.slice data (Some (-2)) None
  else
    PyStr.slice data None (Some (-4)) ++ py "-" ++
    PyStr.slice data (Some (-4)) (Some (-2)) ++ py "-" ++
    PyStr.slice data (Some (-2)) None.

(** Lines 372-378: the decoding of picture and birthday values. *)
Definition decode_photo_bday (key data : str) : result str :=
  data ← (if bool_decide (key = py "PHOTO")
           then PyStr.index (PyStr.split data (py ",")) (-1)
           else Ok data);
  Ok (if bool_decide (key = py "BDAY") then birthday data else data).

(** Lines 362-371: a note's primary line. Returns the text and the new
    [last_symbol]. *)
Definition note_primary (data : str) : str * str :=
  let data :=
    if (Z.of_nat (length data) - 72 <=? 0) &&
       bool_decide (PyStr.slice data (Some (-1)) None = [LF])
    then PyStr.slice data None (Some (-1)) else data in
  let last_symbol := PyStr.slice data (Some (-1)) None in
  (note_translate data, last_symbol).

(** Lines 347-378: the value of a built-in field, and [last_symbol]. *)
Definition standard_data (key line last_symbol : str) : result (str * str) :=
  data ← (if bool_decide (key = py "NOTE")
           then PyStr.index (PyStr.split line (py "NOTE:")) (-1)
           else PyStr.index (PyStr.split line (py ":")) (-1));
  let data :=
    if PyStr.startswith data (py ";;") then PyStr.slice data (Some 2) None else data in
  unwanted ← (if bool_decide (key ≠ py "NOTE")
               then c ← PyStr.index line 0; Ok (bool_decide (c ≠ SPACE))
               else Ok false);
  let data :=
    if unwanted : bool then
      PyStr.replace
        (PyStr.replace
           (PyStr.replace (PyStr.replace data [LF] []) [BACKSLASH] [])
           (py ";;") (py ", "))
        (py ";") (py ", ")
    else data in
  let data :=
    if bool_decide (key = py "ADR") && PyStr.startswith data (py ", ")
    then PyStr.slice data (Some 2) None else data in
  let '(data, last_symbol) :=
    if bool_decide (key = py "NOTE") then note_primary data
    else (data, last_symbol) in
  data ← decode_photo_bday key data;
  Ok (data, last_symbol).

(** [contact_dict[value] = data; key_previous = key; value_previous = value],
    with the table that was counted in. *)
Definition store_field (st : state) (std cus soc : table)
    (contact_dict : contact) (key value data last_symbol : str) : state :=
  {| contacts_dict := contacts_dict st;
     contact_id := contact_id st;
     listening_to_data := listening_to_data st;
     contact_dict := dict_set contact_dict value data;
     key := key;
     key_previous := key;
     value := value;
     value_previous := value;
     last_symbol := last_symbol;
     standard_field_dict := std;
     custom_field_dict := cus;
     social_profile_field_dict := soc |}.

Definition standard_field (line : str) (st : state) : result state :=
  key ← PyStr.index (PyStr.re_split_colon_semicolon line) 0;
  occ ← occurrence (standard_field_dict st) (contact_dict st) key;
  let '(field_dict, contact_dict, value) := occ in
  dl ← standard_data key line (last_symbol st);
  Ok (store_field st field_dict (custom_field_dict st)
        (social_profile_field_dict st) contact_dict key value dl.1 dl.2).

(** *** Custom fields (lines 384-400) *)

(** The [for ... break] of lines 385-388: [key] becomes the first custom
    field found in the line, and keeps its value when there is none. *)
Fixpoint first_custom_field (line : str) (custom_field_list : list str)
    (key : str) : str :=
  match custom_field_list with
  | [] => key
  | custom_field :: rest =>
      if 0 <=? PyStr.find line custom_field then custom_field
      else first_custom_field line rest key
  end.

Definition is_custom_line (e : env) (line : str) : bool :=
  PyStr.contains line (py "X-CUSTOM") &&
  existsb (λ custom_field, PyStr.contains line custom_field) (custom_field_list e).

Definition custom_field (e : env) (line : str) (st : state) : result state :=
  let key := first_custom_field line (custom_field_list e) (key st) in
  occ ← occurrence (custom_field_dict st) (contact_dict st) key;
  let '(field_dict, contact_dict, value) := occ in
  last ← PyStr.index (PyStr.split line (py "-=+=-")) (-1);
  let data := PyStr.replace last [LF] [] in
  Ok (store_field st (standard_field_dict st) field_dict
        (social_profile_field_dict st) contact_dict key value data (last_symbol st)).

(** *** Social profile fields (lines 403-418) *)

Definition is_social_line (e : env) (line : str) : bool :=
  PyStr.contains line (py "X-SOCIALPROFILE") &&
  existsb (λ social_profile_field, PyStr.contains line social_profile_field)
    (social_profile_field_list e).

Definition social_profile_field (line : str) (st : state) : result state :=
  second ← PyStr.index (PyStr.split line (py ";")) 1;
  head ← PyStr.index (PyStr.split second (py ":")) 0;
  let key := PyStr.replace head (py "TYPE=") [] in
  occ ← occurrence (social_profile_field_dict st) (contact_dict st) key;
  let '(field_dict, contact_dict, value) := occ in
  last ← PyStr.index (PyStr.split line (py ";")) (-1);
  label ← PyStr.index (PyStr.split last (py ":")) 0;
  let pref_to_remove := label ++ py ":" in
  let data := PyStr.replace (PyStr.replace last pref_to_remove []) [LF] [] in
  Ok (store_field st (standard_field_dict st) (custom_field_dict st)
        field_dict contact_dict key value data (last_symbol st)).

(** *** Unfinished lines (lines 422-447) *)

(** Lines 427-442: a note's continuation line. Returns the text to append
    and the new [last_symbol]. *)
Definition note_continuation (line last_symbol : str) : str * str :=
  let line := PyStr.slice line (Some 1) None in
  let line :=
    if (Z.of_nat (length line) - 75 <=? 0) &&
       bool_decide (PyStr.slice line (Some (-1)) None = [LF])
    then PyStr.slice line None (Some (-1)) else line in
  let first_symbol := PyStr.slice line (Some 0) (Some 2) in
  let line :=
    if bool_decide (last_symbol = [BACKSLASH]) && bool_decide (first_symbol = py "n ")
    then [LF] ++ PyStr.slice line (Some 1) None else line in
  let last_symbol := PyStr.slice line (Some (-1)) None in
  (note_translate line, last_symbol).

(** The disjunction of line 443 (and, with ['NOTE'] added, of lines
    422-424). *)
Definition folds_verbatim (e : env) (key_previous : str) : bool :=
  bool_decide (key_previous = py "ADR") ||
  bool_decide (key_previous = py "PHOTO") ||
  bool_decide (key_previous = py "CATEGORIES") ||
  bool_decide (key_previous ∈ social_profile_field_list e).

Definition may_fold (e : env) (key_previous : str) : bool :=
  bool_decide (key_previous = py "ADR") ||
  bool_decide (key_previous = py "NOTE") ||
  bool_decide (key_previous = py "PHOTO") ||
  bool_decide (key_previous = py "CATEGORIES") ||
  bool_decide (key_previous ∈ social_profile_field_list e).

(** The test of lines 422-424; [line[0]] is read only when the key test
    holds. *)
Definition is_unfinished (e : env) (line : str) (st : state) : result bool :=
  if may_fold e (key_previous st) then
    c ← PyStr.index line 0; Ok (bool_decide (c = SPACE))
  else Ok false.

Definition unfinished_line (e : env) (line : str) (st : state) : result state :=
  let '(line, last_symbol) :=
    if bool_decide (key_previous st = py "NOTE")
    then note_continuation line (last_symbol st)
    else (line, last_symbol st) in
  let line :=
    if folds_verbatim e (key_previous st)
    then PyStr.replace (PyStr.slice line (Some 1) None) [LF] [] else line in
  old ← dict_getitem (contact_dict st) (value_previous st);
  Ok {| contacts_dict := contacts_dict st;
        contact_id := contact_id st;
        listening_to_data := listening_to_data st;
        contact_dict := dict_set (contact_dict st) (value_previous st) (old ++ line);
        key := key st;
        key_previous := key_previous st;
        value := value st;
        value_previous := value_previous st;
        last_symbol := last_symbol;
        standard_field_dict := standard_field_dict st;
        custom_field_dict := custom_field_dict st;
        social_profile_field_dict := social_profile_field_dict st |}.

(** *** One iteration of the loop (lines 268-447) *)

Definition with_contact_dict (st : state) (c : contact) : state :=
  {| contacts_dict := contacts_dict st;
     contact_id := contact_id st;
     listening_to_data := listening_to_data st;
     contact_dict := c;
     key := key st;
     key_previous := key_previous st;
     value := value st;
     value_previous := value_previous st;
     last_symbol := last_symbol st;
     standard_field_dict := standard_field_dict st;
     custom_field_dict := custom_field_dict st;
     social_profile_field_dict := social_profile_field_dict st |}.

Definition is_standard_line (e : env) (line : str) : bool :=
  existsb (PyStr.startswith line) (standard_field_list e).

(** The block under [if listening_to_data:] (lines 316-447): five
    consecutive [if] statements, none of which ends the iteration. *)
Definition listening_block (e : env) (line : str) (st : state) : result state :=
  st ← (if PyStr.startswith line BEGIN_SYMBOL
         then c ← contact_name line (contact_dict st); Ok (with_contact_dict st c)
         else Ok st);
  st ← (if is_standard_line e line then standard_field line st else Ok st);
  st ← (if is_custom_line e line then custom_field e line st else Ok st);
  st ← (if is_social_line e line then social_profile_field line st else Ok st);
  unfinished ← is_unfinished e line st;
  if unfinished : bool then unfinished_line e line st else Ok st.

Definition process_line (e : env) (line : str) (st : state) : result state :=
  let st := if PyStr.startswith line BEGIN_SYMBOL then begin_record st else st in
  fl ← (if PyStr.startswith line END_SYMBOL && listening_to_data st
         then end_record e st else Ok (FallThrough st));
  match fl with
  | Continue st => Ok st
  | FallThrough st =>
      if listening_to_data st then listening_block e line st else Ok st
  end.

(** The [for line in vcf_] loop. *)
Fixpoint run (e : env) (vcf : list str) (st : state) : result state :=
  match vcf with
  | [] => Ok st
  | line :: rest => st ← process_line e line st; run e rest st
  end.

(** *** [main] up to the end of the loop (lines 219-447)

    The arguments are the command line ([tag_list], [logic_op]), the three
    tables as loaded from their JSON files, and the lines of the VCF file,
    each with its line terminator. The result is [contacts_dict], which
    the rest of [main] renders. [contact_dict] is unbound before the first
    record start and is never read then; it is modelled as empty. *)
Definition initial_state (std cus soc : table) : state :=
  {| contacts_dict := [];
     contact_id := 0;
     listening_to_data := false;
     contact_dict := [];
     key := BEGIN_SYMBOL;
     key_previous := BEGIN_SYMBOL;
     value := py "Name";
     value_previous := py "Name";
     last_symbol := [];
     standard_field_dict := std;
     custom_field_dict := cus;
     social_profile_field_dict := soc |}.

Definition make_env (tags : list str) (op : str) (std cus soc : table) : env :=
  {| tag_list := tags;
     logic_op := op;
     standard_field_list := dict_keys std;
     custom_field_list := dict_keys cus;
     social_profile_field_list := dict_keys soc |}.

Definition main (tags : list str) (op : str) (std cus soc : table)
    (vcf : list str) : result (list (nat * contact)) :=
  st ← run (make_env tags op std cus soc) vcf (initial_state std cus soc);
  Ok (contacts_dict st).

(** ** Sample tables and notions used by the statements *)

Definition make_table (l : list (string * string)) : table :=
  (λ kv, (py kv.1, {| entry_value := py kv.2; entry_count := 0 |})) <$> l.

(** Modelled from the spec: the table of built-in fields is loaded from
    [json/standard_fields.json], configuration that is not part of the
    source file and whose contents the spec leaves open (sections 4.1 and
    6). The general statements take the three tables as parameters; this
    sample serves the concrete evaluations only. It uses the raw keys and
    canonical names that [main] itself names (lines 283, 293, 347-374,
    422-424, 482-483, 493 and 559). *)
Definition sample_standard : table :=
  make_table [("EMAIL", "Email"); ("ADR", "Address"); ("NOTE", "Note");
              ("PHOTO", "Picture"); ("BDAY", "Birthday");
              ("CATEGORIES", "Tags"); ("ORG", "Organization")]%string.

(** Modelled from the spec: a sample of [json/custom_fields.json], with a
    canonical name of line 483. *)
Definition sample_custom : table :=
  make_table [("Nationality", "Nationality")]%string.

(** Modelled from the spec: a sample of
    [json/social_profile_fields.json]. *)
Definition sample_social : table :=
  make_table [("twitter", "Twitter")]%string.

(** A line of the file: the text and its line terminator. *)
Definition ln (s : string) : str := py s ++ [LF].

(** The text of a record-start line after its last colon, cut at [;]. *)
Definition name_segments (line : str) : list str :=
  PyStr.split (default [] (last (PyStr.split line (py ":")))) (py ";").

(** The two outcomes for a record at its end marker: stored under the
    current identifier, which then advances; or dropped, the store and
    the identifier left as they were. Either way the parser stops
    listening. *)
Definition accepted (st st' : state) : Prop :=
  contacts_dict st' = dict_set (contacts_dict st) (contact_id st) (contact_dict st) ∧
  contact_id st' = S (contact_id st) ∧
  listening_to_data st' = false.

Definition discarded (st st' : state) : Prop :=
  contacts_dict st' = contacts_dict st ∧
  contact_id st' = contact_id st ∧
  listening_to_data st' = false.

(** The state reached from [st] by the lines [vcf] (and [st] itself if
    they raise). *)
Definition state_after (e : env) (vcf : list str) (st : state) : state :=
  match run e vcf st with Ok st' => st' | Raise _ => st end.

Definition sample_env (tags : list str) (op : str) : env :=
  make_env tags op sample_standard sample_custom sample_social.

Definition sample_initial_state : state :=
  initial_state sample_standard sample_custom sample_social.

(** A step that leaves the store and the identifier counter alone. *)
Definition same_store (st st' : state) : Prop :=
  contacts_dict st' = contacts_dict st ∧ contact_id st' = contact_id st.

(** The identifiers of the store are [0], [1], ... in this order, and the
    counter is the next free one. *)
Definition store_dense (st : state) : Prop :=
  (contacts_dict st).*1 = seq 0 (contact_id st).

(** The number of lines that begin with the end marker. *)
Definition end_markers (vcf : list str) : nat :=
  length (filter (λ line, PyStr.startswith line END_SYMBOL = true) vcf).

(** *** Disambiguation of repeated fields *)

(** [value + '_' + str(n)] *)
Definition suffixed (v : str) (n : nat) : str :=
  v ++ py "_" ++ PyStr.str_of_nat n.

(** The names a canonical name [v] can be stored under: bare or
    suffixed. *)
Definition family (v name : str) : Prop :=
  name = v ∨ ∃ n : nat, name = suffixed v n.

(** What a contact holds for a canonical name [v] whose raw key was
    counted [n] times: nothing for [n = 0], the bare name alone for
    [n = 1], and exactly [v_1], ..., [v_n] without the bare name for
    [n >= 2]. *)
Definition entries_for (n : nat) (v : str) (c : contact) : Prop :=
  (is_Some (dict_get c v) ↔ n = 1%nat) ∧
  ∀ m : nat, is_Some (dict_get c (suffixed v m)) ↔ (2 ≤ n ∧ 1 ≤ m ≤ n)%nat.

(** The claim as the spec words it, for the values of one canonical name
    in encounter order: the bare name holds the last one and [v_1], ...
    the earlier ones. *)
Definition bare_holds_last (c : contact) (v : str) (values : list str) : Prop :=
  dict_get c v = last values ∧
  ∀ i : nat, (i + 1 < length values)%nat →
    dict_get c (suffixed v (i + 1)) = values !! i.

(** The keys written by the record-start line (lines 325-332). *)
Definition name_fields : list str :=
  [py "Last Name"; py "First Name"; py "Middle Name 1"; py "Middle Name 2"].

(** Raw key and canonical name of every entry of a table. *)
Definition names_of (t : table) : list (str * str) :=
  (λ kv, (kv.1, entry_value kv.2)) <$> t.

Definition tables (st : state) : list table :=
  [standard_field_dict st; custom_field_dict st; social_profile_field_dict st].

(** Tables whose fields cannot collide in a contact: two different
    fields (different table or different raw key) never share a name of
    their families, and no family contains a name-component key. *)
Definition hygienic (ns : list (list (str * str))) : Prop :=
  (∀ (i j : nat) (N N' : list (str * str)) (k k' v v' : str),
     ns !! i = Some N → ns !! j = Some N' →
     dict_get N k = Some v → dict_get N' k' = Some v' →
     i ≠ j ∨ k ≠ k' →
     ∀ name, family v name → family v' name → False) ∧
  (∀ (i : nat) (N : list (str * str)) (k v name : str),
     ns !! i = Some N → dict_get N k = Some v →
     name ∈ name_fields → ¬ family v name).

(** Every field of every table has, in the record being read, the
    entries its counter announces. *)
Definition disambiguated (st : state) : Prop :=
  ∀ (i : nat) (T : table) (k : str) (e : field_entry),
    tables st !! i = Some T → dict_get T k = Some e →
    entries_for (entry_count e) (entry_value e) (contact_dict st).

(** The entry of a table after one more occurrence of its key. *)
Definition bump (e : field_entry) : field_entry :=
  {| entry_value := entry_value e; entry_count := entry_count e + 1 |}.

(** The tables keep the names [ns] and the record being read is
    disambiguated. *)
Definition tidy (ns : list (list (str * str))) (st : state) : Prop :=
  names_of <$> tables st = ns ∧ disambiguated st.

(** While a record is being read, it is tidy; between records only the
    names of the tables matter. *)
Definition record_inv (ns : list (list (str * str))) (st : state) : Prop :=
  names_of <$> tables st = ns ∧ (listening_to_data st = true → disambiguated st).

(** The name under which the [j]-th occurrence of a field with canonical
    name [v] is found once its raw key has been counted [n] times: the
    bare name while the occurrence is the only one, [v_j] afterwards. *)
Definition slot (v : str) (j n : nat) : str :=
  if (n <=? 1)%nat then v else suffixed v j.

(** From [st] to [st'] every occurrence counted in [st] keeps its rank,
    and its value up to [R]: no table entry is lost or renamed, no
    counter decreases, and what the [j]-th occurrence of a field holds
    in [st'] is related by [R] to what it held in [st]. With [eq] for
    [R] the values are unchanged; with [prefix], text may have been
    appended at their end. *)
Definition keeps_values (R : relation str) (st st' : state) : Prop :=
  ∀ (i : nat) (T : table) (k : str) (en : field_entry),
    tables st !! i = Some T → dict_get T k = Some en →
    ∃ (T' : table) (en' : field_entry),
      tables st' !! i = Some T' ∧ dict_get T' k = Some en' ∧
      entry_value en' = entry_value en ∧
      (entry_count en ≤ entry_count en')%nat ∧
      ∀ j : nat, (1 ≤ j ≤ entry_count en)%nat →
        ∃ d d' : str,
          dict_get (contact_dict st) (slot (entry_value en) j (entry_count en))
          = Some d ∧
          dict_get (contact_dict st') (slot (entry_value en) j (entry_count en'))
          = Some d' ∧
          R d d'.

(** ** The rest of [src/main.py]: column letters and column order *)

(** [conversion_table] (lines 62-67): remainders to letters. *)
Definition conversion_table : list (Z * str) :=
  [(1, py "A"); (2, py "B"); (3, py "C"); (4, py "D"); (5, py "E");
   (6, py "F"); (7, py "G"); (8, py "H"); (9, py "I"); (10, py "J");
   (11, py "K"); (12, py "L"); (13, py "M"); (14, py "N"); (15, py "O");
   (16, py "P"); (17, py "Q"); (18, py "R"); (19, py "S"); (20, py "T");
   (21, py "U"); (22, py "V"); (23, py "W"); (24, py "X"); (25, py "Y");
   (26, py "Z")]%string.

(** The [while (decimal > 0)] loop of [decimalToExcelBase26] (lines
    211-214). [decimal] shrinks at every turn, so [Z.to_nat decimal] turns
    are enough ([excel_loop_fuel]); the branch for no fuel left is never
    taken from [decimalToExcelBase26]. *)
Fixpoint excel_loop (fuel : nat) (decimal : Z) (excel_base_26 : str)
    : result str :=
  if 0 <? decimal then
    match fuel with
    | O => Ok excel_base_26
    | S fuel =>
        let remainder := decimal mod 26 in
        letter ← dict_getitem conversion_table remainder;
        let excel_base_26 := letter ++ excel_base_26 in
        let decimal := decimal / 26 in
        excel_loop fuel decimal excel_base_26
    end
  else Ok excel_base_26.

(** [decimalToExcelBase26] (lines 206-216). *)
Definition decimalToExcelBase26 (decimal : Z) : result str :=
  excel_loop (Z.to_nat decimal) decimal [].

(** The column number that Excel reads from a column name: [A] is 1,
    [Z] is 26, [AA] is 27. *)
Definition excel_column_number (name : str) : Z :=
  fold_left (λ number letter, number * 26 + (Z.of_N letter - 64)) name 0.

(** [first_columns_list] (lines 482-483). *)
Definition first_columns_list : list str :=
  [py "First Name"; py "Middle Name 1"; py "Middle Name 2"; py "Last Name";
   py "Nickname"; py "Organization"; py "Profession"; py "Birthday";
   py "Gender"; py "Nationality"; py "Tags"; py "Note"; py "Picture"].

(** [a <= b] on Python strings: lexicographic on code points. *)
Fixpoint str_leb (a b : str) : bool :=
  match a, b with
  | [], _ => true
  | _ :: _, [] => false
  | c :: a', d :: b' => (c <? d)%N || ((c =? d)%N && str_leb a' b')
  end.

(** [sorted(l)] for a list of strings. Equal strings are identical, so
    every sorting algorithm returns the list Python's returns; this one
    inserts each element in turn. *)
Fixpoint sorted_insert (x : str) (l : list str) : list str :=
  match l with
  | [] => [x]
  | y :: l' => if str_leb x y then x :: l else y :: sorted_insert x l'
  end.

Definition sorted (l : list str) : list str := foldr sorted_insert [] l.

(** The inner [while] of lines 511-513: the columns from index [i] on
    that contain [col] join the list. Returns the index reached and the
    list. No turn is taken without [i] advancing, so [length l] turns are
    enough. *)
Fixpoint merge_inner_loop (fuel : nat) (last_columns_diff : list str)
    (col : str) (i : nat) (last_columns_diff_no_dupl : list str)
    : nat * list str :=
  match fuel with
  | O => (i, last_columns_diff_no_dupl)
  | S fuel =>
      match last_columns_diff !! i with
      | Some x =>
          if PyStr.contains x col
          then merge_inner_loop fuel last_columns_diff col (i + 1)
                 (last_columns_diff_no_dupl ++ [x])
          else (i, last_columns_diff_no_dupl)
      | None => (i, last_columns_diff_no_dupl)
      end
  end.

(** The [while] of lines 496-516, on the column names. The data-frame
    operations of lines 501-507 read and write columns of these names
    and do not feed back into the loop. *)
Fixpoint merge_loop (fuel : nat) (last_columns_diff : list str) (i : nat)
    (last_columns_diff_no_dupl : list str) : list str :=
  match fuel with
  | O => last_columns_diff_no_dupl
  | S fuel =>
      if Z.of_nat i <? Z.of_nat (length last_columns_diff) - 1 then
        match last_columns_diff !! i, last_columns_diff !! (i + 1)%nat with
        | Some col, Some col_next =>
            if PyStr.startswith col_next col then
              let '(i, last_columns_diff_no_dupl) :=
                merge_inner_loop (length last_columns_diff) last_columns_diff
                  col (i + 2) (last_columns_diff_no_dupl ++ [col_next]) in
              merge_loop fuel last_columns_diff i last_columns_diff_no_dupl
            else
              merge_loop fuel last_columns_diff (i + 1)
                (last_columns_diff_no_dupl ++ [col])
        | _, _ => last_columns_diff_no_dupl
        end
      else last_columns_diff_no_dupl
  end.

(** Lines 494-516: [last_columns_diff_no_dupl] from [last_columns_diff]. *)
Definition merge_duplicated_columns (last_columns_diff : list str) : list str :=
  merge_loop (length last_columns_diff) last_columns_diff 0 [].

(** Lines 478-519: the final [ordered_column_list] from the columns of
    the data frame. *)
Definition order_columns (column_list : list str) : list str :=
  let ordered_column_list :=
    filter (λ col, col ∈ column_list) first_columns_list in
  let last_columns_diff :=
    sorted (filter (λ x, x ∉ ordered_column_list) column_list) in
  ordered_column_list ++ merge_duplicated_columns last_columns_diff.

(** [l.index(x)]: the position of the first [x]; [None] stands for
    Python's [ValueError]. *)
Fixpoint list_index (l : list str) (x : str) : option nat :=
  match l with
  | [] => None
  | y :: l' => if decide (y = x) then Some 0%nat else S <$> list_index l' x
  end.

(** Line 578, [photo_col_idx = ordered_column_list.index(photo_value)+2],
    as a function of the two variables it reads; [None] stands for the
    [ValueError] of [list.index]. Line 579 then calls
    [decimalToExcelBase26] on the result. Only these two statements are
    modelled: what [main] does before them from line 559 on (reading
    [photo_value] from the table, decoding every picture with
    [base64.b64decode] and writing it to a file, opening the workbook)
    can raise and is outside the model. *)
Definition photo_col_idx (ordered_column_list : list str) (photo_value : str)
    : option Z :=
  index ← list_index ordered_column_list photo_value;
  Some (Z.of_nat index + 2).

(** What the loop appends is a column that is not the last of the list,
    or a column that contains an earlier one. *)
Definition kept_for (l : list str) (y : str) : Prop :=
  (∃ j : nat, (j + 1 < length l)%nat ∧ l !! j = Some y) ∨
  (∃ (j j' : nat) (col : str),
     (j < j')%nat ∧ l !! j = Some col ∧ l !! j' = Some y ∧
     PyStr.contains y col = true).

(** Characters a built-in value never keeps. *)
Definition unwanted_free (s : str) : Prop :=
  (LF ∉ s) ∧ (BACKSLASH ∉ s) ∧ (59%N ∉ s).

(** * Properties *)

(** ** The result monad *)

Lemma bind_Ok {A B} (m : result A) (f : A → result B) (b : B) :
  m ≫= f = Ok b → ∃ a, m = Ok a ∧ f a = Ok b.
Proof. destruct m as [a|x]; simpl; [eauto | discriminate]. Qed.

Lemma bind_of_Ok {A B} (m : result A) (f : A → result B) (a : A) :
  m = Ok a → m ≫= f = f a.
Proof. intros ->. reflexivity. Qed.

Lemma bind_Raise {A B} (m : result A) (f : A → result B) (x : exn) :
  m = Raise x → m ≫= f = Raise x.
Proof. intros ->. reflexivity. Qed.

(** ** Python strings *)

Lemma startswith_spec (s p : str) :
  PyStr.startswith s p = true ↔ ∃ r, s = p ++ r.
Proof.
  revert s. induction p as [|c p IH]; intros s; simpl.
  - split; [eauto | reflexivity].
  - destruct s as [|d s].
    + split; [discriminate | intros [r Hr]; discriminate].
    + rewrite andb_true_iff, N.eqb_eq, IH. split.
      * intros [-> [r ->]]. eauto.
      * intros [r Hr]. injection Hr as -> ->. eauto.
Qed.

Lemma begin_not_end (line : str) :
  PyStr.startswith line BEGIN_SYMBOL = true →
  PyStr.startswith line END_SYMBOL = false.
Proof.
  intros [r ->]%startswith_spec. reflexivity.
Qed.

Lemma end_not_begin (line : str) :
  PyStr.startswith line END_SYMBOL = true →
  PyStr.startswith line BEGIN_SYMBOL = false.
Proof.
  intros [r ->]%startswith_spec. reflexivity.
Qed.

Lemma split_go_nonempty (sep : str) (k : nat) (cur s : str) :
  PyStr.split_go sep k cur s ≠ [].
Proof.
  revert k cur. induction s as [|c s IH]; intros k cur; simpl.
  - discriminate.
  - destruct k; [|apply IH].
    destruct (PyStr.startswith _ _); [discriminate | apply IH].
Qed.

Lemma split_nonempty (s sep : str) : PyStr.split s sep ≠ [].
Proof. apply split_go_nonempty. Qed.

(** [l[-1]] is the last element, and exists for a non-empty list. *)
Lemma index_last {A} (l : list A) (x : A) :
  last l = Some x → PyStr.index l (-1) = Ok x.
Proof.
  intros H. unfold PyStr.index.
  assert (Hlen : (0 < length l)%nat).
  { destruct l; [discriminate | simpl; lia]. }
  rewrite last_lookup in H.
  replace (-1 <? 0) with true by reflexivity.
  replace (Z.to_nat (-1 + Z.of_nat (length l))) with (pred (length l)) by lia.
  rewrite H.
  replace (_ || _) with false; [reflexivity|].
  symmetry. apply orb_false_iff. split; [apply Z.ltb_ge | apply Z.leb_gt]; lia.
Qed.

Lemma index_nat {A} (l : list A) (i : nat) :
  PyStr.index l (Z.of_nat i) =
  match l !! i with Some x => Ok x | None => Raise IndexError end.
Proof.
  unfold PyStr.index.
  replace (Z.of_nat i <? 0) with false by (symmetry; apply Z.ltb_ge; lia).
  replace (Z.of_nat i <? 0) with false by (symmetry; apply Z.ltb_ge; lia).
  rewrite Nat2Z.id. simpl.
  destruct (l !! i) as [x|] eqn:E.
  - apply lookup_lt_Some in E.
    replace (_ <=? _) with false; [reflexivity|].
    symmetry. apply Z.leb_gt. lia.
  - destruct (_ <=? _); reflexivity.
Qed.

Lemma split_last_index (s sep : str) :
  PyStr.index (PyStr.split s sep) (-1) =
  Ok (default [] (last (PyStr.split s sep))).
Proof.
  destruct (last (PyStr.split s sep)) as [x|] eqn:E.
  - simpl. by apply index_last.
  - apply last_None in E. by apply split_nonempty in E.
Qed.

Lemma index_at {A} (l : list A) (i : nat) (z : Z) :
  z = Z.of_nat i →
  PyStr.index l z =
  match l !! i with Some x => Ok x | None => Raise IndexError end.
Proof. intros ->. apply index_nat. Qed.

(** ** Record start *)

Lemma contact_name_segments (line : str) (c : contact) :
  contact_name line c =
  match name_segments line with
  | last_name :: first_name :: middle_name_1 :: middle_name_2 :: _ =>
      Ok (set_if_nonempty
            (set_if_nonempty
               (set_if_nonempty
                  (set_if_nonempty c (py "Last Name") last_name)
                  (py "First Name") first_name)
               (py "Middle Name 1") middle_name_1)
            (py "Middle Name 2") middle_name_2)
  | _ => Raise IndexError
  end.
Proof.
  unfold contact_name, name_segments.
  rewrite split_last_index. simpl.
  set (l := PyStr.split _ (py ";")).
  rewrite (index_at l 0 0), (index_at l 1 1), (index_at l 2 2),
    (index_at l 3 3) by reflexivity.
  destruct l as [|a [|b [|c0 [|d l]]]]; reflexivity.
Qed.

(** C10: a record-start line whose text after the last colon has fewer
    than four [;]-separated segments makes the name initialisation raise
    an [IndexError] (nothing is stored); with four or more segments the
    initialisation returns. The error aborts the iteration whatever the
    state of the parser. *)
Theorem C10_record_start_needs_four_segments
    (e : env) (line : str) (st : state) (c : contact) :
  (contact_name line c = Raise IndexError ↔ (length (name_segments line) < 4)%nat) ∧
  ((4 ≤ length (name_segments line))%nat → ∃ c', contact_name line c = Ok c') ∧
  (PyStr.startswith line BEGIN_SYMBOL = true →
   (length (name_segments line) < 4)%nat →
   process_line e line st = Raise IndexError).
Proof.
  assert (Hiff : ∀ c0, contact_name line c0 = Raise IndexError ↔
                       (length (name_segments line) < 4)%nat).
  { intros c0. rewrite contact_name_segments.
    destruct (name_segments line) as [|a [|b [|c1 [|d l]]]]; simpl;
      split; intros H; try reflexivity; try lia; discriminate. }
  split; [apply Hiff|]. split.
  - intros Hlen. rewrite contact_name_segments.
    destruct (name_segments line) as [|a [|b [|c1 [|d l]]]]; simpl in Hlen;
      try lia. eauto.
  - intros Hb Hlen. unfold process_line. rewrite Hb.
    rewrite (begin_not_end _ Hb). simpl.
    unfold listening_block. rewrite Hb.
    apply bind_Raise. apply bind_Raise. by apply Hiff.
Qed.

Lemma C10_witness :
  (4 ≤ length (name_segments (ln "N:Doe;John;;;")))%nat ∧
  (∃ c', contact_name (ln "N:Doe;John;;;") [] = Ok c') ∧
  PyStr.startswith (ln "N:Doe;John") BEGIN_SYMBOL = true ∧
  (length (name_segments (ln "N:Doe;John")) < 4)%nat ∧
  process_line (make_env [] (py "|") sample_standard sample_custom sample_social)
    (ln "N:Doe;John")
    (initial_state sample_standard sample_custom sample_social)
  = Raise IndexError.
Proof.
  pose proof (C10_record_start_needs_four_segments
    (make_env [] (py "|") sample_standard sample_custom sample_social)
    (ln "N:Doe;John;;;")
    (initial_state sample_standard sample_custom sample_social) [])
    as (_ & Hok & _).
  pose proof (C10_record_start_needs_four_segments
    (make_env [] (py "|") sample_standard sample_custom sample_social)
    (ln "N:Doe;John")
    (initial_state sample_standard sample_custom sample_social) [])
    as (_ & _ & Herr).
  assert (H4 : (4 ≤ length (name_segments (ln "N:Doe;John;;;")))%nat)
    by (vm_compute; lia).
  assert (H2 : (length (name_segments (ln "N:Doe;John")) < 4)%nat)
    by (vm_compute; lia).
  split; [exact H4|]. split; [exact (Hok H4)|].
  split; [reflexivity|]. split; [exact H2|].
  exact (Herr eq_refl H2).
Defined.

(** ** Slices *)

Ltac ltb_cases :=
  repeat match goal with
  | |- context [?a <? ?b] => destruct (Z.ltb_spec a b)
  | H : context [?a <? ?b] |- _ => destruct (Z.ltb_spec a b)
  end.

Lemma clamp_nonneg (n : nat) (i : Z) : 0 ≤ PyStr.clamp (Z.of_nat n) i ≤ Z.of_nat n.
Proof.
  unfold PyStr.clamp; cbv zeta.
  ltb_cases; lia.
Qed.

Lemma clamp_neg (n : nat) (k : nat) (z : Z) :
  z = - Z.of_nat (S k) → Z.to_nat (PyStr.clamp (Z.of_nat n) z) = (n - S k)%nat.
Proof.
  intros ->. unfold PyStr.clamp; cbv zeta.
  ltb_cases; lia.
Qed.

Lemma clamp_pos (n : nat) (k : nat) (z : Z) :
  z = Z.of_nat k → Z.to_nat (PyStr.clamp (Z.of_nat n) z) = (n `min` k)%nat.
Proof.
  intros ->.
  unfold PyStr.clamp; cbv zeta.
  ltb_cases; lia.
Qed.

Lemma take_drop_window {A} (l : list A) (a b : nat) :
  take (b - a) (drop a l) = drop a (take b l).
Proof.
  destruct (decide (a ≤ b)%nat) as [Hab|Hab].
  - rewrite take_drop_commute. f_equal. f_equal. lia.
  - replace (b - a)%nat with 0%nat by lia. simpl.
    symmetry. apply drop_ge. rewrite length_take. lia.
Qed.

Lemma slice_window {A} (l : list A) (lo hi : Z) :
  PyStr.slice l (Some lo) (Some hi) =
  drop (Z.to_nat (PyStr.clamp (Z.of_nat (length l)) lo))
    (take (Z.to_nat (PyStr.clamp (Z.of_nat (length l)) hi)) l).
Proof.
  unfold PyStr.slice.
  pose proof (clamp_nonneg (length l) lo).
  pose proof (clamp_nonneg (length l) hi).
  rewrite Z2Nat.inj_sub by lia. apply take_drop_window.
Qed.

Lemma slice_from {A} (l : list A) (lo : Z) :
  PyStr.slice l (Some lo) None =
  drop (Z.to_nat (PyStr.clamp (Z.of_nat (length l)) lo)) l.
Proof.
  unfold PyStr.slice.
  pose proof (clamp_nonneg (length l) lo).
  rewrite Z2Nat.inj_sub by lia. rewrite Nat2Z.id.
  apply take_ge. rewrite length_drop. lia.
Qed.

Lemma slice_upto {A} (l : list A) (hi : Z) :
  PyStr.slice l None (Some hi) =
  take (Z.to_nat (PyStr.clamp (Z.of_nat (length l)) hi)) l.
Proof.
  unfold PyStr.slice. simpl. rewrite Z.sub_0_r. reflexivity.
Qed.

Lemma take_min {A} (l : list A) (k : nat) : take (length l `min` k) l = take k l.
Proof.
  destruct (decide (k ≤ length l)%nat).
  - f_equal. lia.
  - rewrite !take_ge by lia. reflexivity.
Qed.


(** ** Field decoding *)

Lemma birthday_take_drop (data : str) :
  birthday data =
    if PyStr.startswith data (py "--")
    then drop 2 (take 4 data) ++ py "-" ++ drop (length data - 2) data
    else take (length data - 4) data ++ py "-" ++
         drop (length data - 4) (take (length data - 2) data) ++ py "-" ++
         drop (length data - 2) data.
Proof.
  unfold birthday.
  rewrite (slice_window data 2 4), (slice_window data (-4) (-2)).
  rewrite (slice_from data (-2)), (slice_upto data (-4)).
  rewrite (clamp_neg (length data) 1 (-2)), (clamp_neg (length data) 3 (-4))
    by reflexivity.
  rewrite (clamp_pos (length data) 2 2), (clamp_pos (length data) 4 4)
    by reflexivity.
  rewrite take_min.
  replace (drop (length data `min` 2) (take 4 data)) with (drop 2 (take 4 data)).
  - reflexivity.
  - destruct (decide (2 ≤ length data)%nat).
    + f_equal. lia.
    + rewrite !drop_ge; [done| |]; rewrite length_take; lia.
Qed.

Lemma decode_photo_bday_total (key data : str) :
  ∃ s, decode_photo_bday key data = Ok s.
Proof.
  unfold decode_photo_bday.
  destruct (bool_decide (key = py "PHOTO")).
  - rewrite split_last_index. simpl. eauto.
  - simpl. eauto.
Qed.

(** C5: a birthday value that begins with [--] decodes to the two
    characters after the dashes, a dash and the final two characters;
    any other value decodes to all but its last four characters, a dash,
    the next two, a dash and the last two. [--0615] gives [06-15] and
    [19900615] gives [1990-06-15], also through the whole parser. *)
Theorem C5_birthday_decoding (data : str) :
  birthday data =
    (if PyStr.startswith data (py "--")
     then drop 2 (take 4 data) ++ py "-" ++ drop (length data - 2) data
     else take (length data - 4) data ++ py "-" ++
          drop (length data - 4) (take (length data - 2) data) ++ py "-" ++
          drop (length data - 2) data) ∧
  decode_photo_bday (py "BDAY") data = Ok (birthday data) ∧
  birthday (py "--0615") = py "06-15" ∧
  birthday (py "19900615") = py "1990-06-15" ∧
  main [] (py "|") sample_standard sample_custom sample_social
    [ln "N:Doe;John;;;"; ln "BDAY:--0615"; ln "END:VCARD";
     ln "N:Roe;Jane;;;"; ln "BDAY:19900615"; ln "END:VCARD"]
  = Ok [(0%nat, [(py "Last Name", py "Doe"); (py "First Name", py "John");
                 (py "Birthday", py "06-15")]);
        (1%nat, [(py "Last Name", py "Roe"); (py "First Name", py "Jane");
                 (py "Birthday", py "1990-06-15")])].
Proof.
  split; [apply birthday_take_drop|].
  split; [reflexivity|].
  split; [reflexivity|].
  split; [reflexivity|].
  vm_compute. reflexivity.
Qed.

(** C9: the decoding of a birthday or picture value is total. Whatever
    the string, also empty or too short, slicing and splitting return a
    string and raise nothing; the same holds for the whole value
    extraction of a built-in field on any line that has a first
    character. *)
Theorem C9_decoding_total (data : str) :
  (∃ s, decode_photo_bday (py "BDAY") data = Ok s) ∧
  (∃ s, decode_photo_bday (py "PHOTO") data = Ok s) ∧
  (∀ (key : str) (c : N) (line last_symbol : str),
     ∃ r, standard_data key (c :: line) last_symbol = Ok r) ∧
  decode_photo_bday (py "BDAY") (py "") = Ok (py "--") ∧
  decode_photo_bday (py "BDAY") (py "615") = Ok (py "-6-15") ∧
  decode_photo_bday (py "BDAY") (py "--6") = Ok (py "6--6") ∧
  decode_photo_bday (py "PHOTO") (py "") = Ok (py "").
Proof.
  split; [apply decode_photo_bday_total|].
  split; [apply decode_photo_bday_total|].
  split; [|repeat split; reflexivity].
  intros key c line last_symbol. unfold standard_data.
  assert (Hdata : ∃ d,
    (if bool_decide (key = py "NOTE")
     then PyStr.index (PyStr.split (c :: line) (py "NOTE:")) (-1)
     else PyStr.index (PyStr.split (c :: line) (py ":")) (-1)) = Ok d).
  { destruct (bool_decide (key = py "NOTE")); rewrite split_last_index; eauto. }
  destruct Hdata as [d Hd]. rewrite (bind_of_Ok _ _ _ Hd). cbv beta zeta.
  assert (Hfirst : ∃ b,
    (if bool_decide (key ≠ py "NOTE")
     then PyStr.index (c :: line) 0 ≫= λ c0, Ok (bool_decide (c0 ≠ SPACE))
     else Ok false) = Ok b).
  { destruct (bool_decide (key ≠ py "NOTE")); [|eauto].
    rewrite (index_at (c :: line) 0 0) by reflexivity. eexists. reflexivity. }
  destruct Hfirst as [b Hb]. rewrite (bind_of_Ok _ _ _ Hb). cbv beta zeta.
  match goal with
  | |- ∃ r, (let '(data, ls) := ?p in _) = _ => destruct p as [data' ls']
  end.
  destruct (decode_photo_bday_total key data') as [s Hs].
  rewrite (bind_of_Ok _ _ _ Hs). eauto.
Qed.

(** ** Record end and the tag filter *)

Lemma accepted_add (st : state) : accepted st (call_add_contact st).
Proof. unfold accepted. simpl. repeat split. lia. Qed.

Lemma discarded_stop (st : state) : discarded st (stop_listening st).
Proof. unfold discarded. simpl. done. Qed.

Lemma not_accepted_stop (st : state) : ¬ accepted st (stop_listening st).
Proof. intros (_ & H & _). simpl in H. lia. Qed.

Lemma not_discarded_add (st : state) : ¬ discarded st (call_add_contact st).
Proof. intros (_ & H & _). simpl in H. lia. Qed.

Lemma forallb_elem_of (present : list str) (tags : list str) :
  forallb (λ tag, bool_decide (tag ∈ present)) tags = true ↔
  Forall (λ tag, tag ∈ present) tags.
Proof.
  induction tags as [|t tags IH]; simpl.
  - split; [constructor | reflexivity].
  - rewrite andb_true_iff, bool_decide_eq_true, IH, Forall_cons. reflexivity.
Qed.

Lemma existsb_elem_of (present : list str) (tags : list str) :
  existsb (λ tag, bool_decide (tag ∈ present)) tags = true ↔
  Exists (λ tag, tag ∈ present) tags.
Proof.
  induction tags as [|t tags IH]; simpl.
  - split; [discriminate | intros H; inversion H].
  - rewrite orb_true_iff, bool_decide_eq_true, IH, Exists_cons. reflexivity.
Qed.

(** An end marker met while listening runs the record-end code and
    nothing else of the iteration, unless that code falls through. *)
Lemma process_line_end (e : env) (line : str) (st : state) :
  listening_to_data st = true →
  PyStr.startswith line END_SYMBOL = true →
  process_line e line st =
  end_record e st ≫= λ fl,
    match fl with
    | Continue st => Ok st
    | FallThrough st =>
        if listening_to_data st then listening_block e line st else Ok st
    end.
Proof.
  intros Hl He. unfold process_line.
  rewrite (end_not_begin _ He), He, Hl. reflexivity.
Qed.

Lemma tag_list_nonempty (e : env) :
  tag_list e ≠ [] → (0 <? length (tag_list e))%nat = true.
Proof. destruct (tag_list e); [done | reflexivity]. Qed.

(** C7: at an end marker with a non-empty requested tag set, a record
    without a [Tags] entry is dropped before the filter is looked at
    (neither the operator nor the table is read) and the store and the
    identifier stay as they were. *)
Theorem C7_record_without_tags_discarded (e : env) (line : str) (st : state) :
  listening_to_data st = true →
  PyStr.startswith line END_SYMBOL = true →
  tag_list e ≠ [] →
  dict_get (contact_dict st) (py "Tags") = None →
  process_line e line st = Ok (stop_listening st) ∧
  discarded st (stop_listening st).
Proof.
  intros Hl He Ht Hno. split; [|apply discarded_stop].
  rewrite process_line_end by done. unfold end_record.
  rewrite tag_list_nonempty by done.
  unfold dict_mem. rewrite Hno. reflexivity.
Qed.

Lemma C7_witness :
  let e := sample_env [py "X"] (py "|") in
  let st := state_after e [ln "N:Doe;John;;;"; ln "EMAIL:john@doe.org"]
              sample_initial_state in
  process_line e (ln "END:VCARD") st = Ok (stop_listening st) ∧
  discarded st (stop_listening st) ∧
  main [py "X"] (py "|") sample_standard sample_custom sample_social
    [ln "N:Doe;John;;;"; ln "EMAIL:john@doe.org"; ln "END:VCARD";
     ln "N:Roe;Jane;;;"; ln "CATEGORIES:X,Y"; ln "END:VCARD"]
  = Ok [(0%nat, [(py "Last Name", py "Roe"); (py "First Name", py "Jane");
                 (py "Tags", py "X,Y")])].
Proof.
  intros e st.
  destruct (C7_record_without_tags_discarded e (ln "END:VCARD") st)
    as [H1 H2]; [reflexivity | reflexivity | discriminate | reflexivity |].
  split; [exact H1|]. split; [exact H2|]. vm_compute. reflexivity.
Defined.

(** C4: at an end marker, an empty requested tag set accepts the record.
    Otherwise the [Tags] value is split on [,]; under [&] the record is
    accepted exactly when every requested tag is among the pieces, under
    [|] exactly when at least one is. Tags are compared as they are: no
    case folding, no trimming. With tags [A,B,C] and requested [B], [D]
    the record is kept under [|] and dropped under [&]. *)
Theorem C4_tag_filter (e : env) (line : str) (st : state) :
  listening_to_data st = true →
  PyStr.startswith line END_SYMBOL = true →
  (tag_list e = [] →
   ∃ st', process_line e line st = Ok st' ∧ accepted st st') ∧
  (∀ (entry : field_entry) (tags : str),
     tag_list e ≠ [] →
     dict_mem (contact_dict st) (py "Tags") = true →
     dict_get (standard_field_dict st) (py "CATEGORIES") = Some entry →
     dict_get (contact_dict st) (entry_value entry) = Some tags →
     let present := PyStr.split tags (py ",") in
     (logic_op e = py "&" →
      ∃ st', process_line e line st = Ok st' ∧
        (accepted st st' ↔ Forall (λ tag, tag ∈ present) (tag_list e)) ∧
        (discarded st st' ↔ ¬ Forall (λ tag, tag ∈ present) (tag_list e))) ∧
     (logic_op e = py "|" →
      ∃ st', process_line e line st = Ok st' ∧
        (accepted st st' ↔ Exists (λ tag, tag ∈ present) (tag_list e)) ∧
        (discarded st st' ↔ ¬ Exists (λ tag, tag ∈ present) (tag_list e)))) ∧
  (let vcf := [ln "N:Doe;John;;;"; ln "CATEGORIES:A,B,C"; ln "END:VCARD"] in
   let john := [(py "Last Name", py "Doe"); (py "First Name", py "John");
                (py "Tags", py "A,B,C")] in
   let run_main tags op :=
     main tags op sample_standard sample_custom sample_social vcf in
   run_main [py "B"; py "D"] (py "|") = Ok [(0%nat, john)] ∧
   run_main [py "B"; py "D"] (py "&") = Ok [] ∧
   run_main [] (py "|") = Ok [(0%nat, john)] ∧
   run_main [] (py "&") = Ok [(0%nat, john)] ∧
   run_main [py "b"] (py "|") = Ok [] ∧
   run_main [py " B"] (py "|") = Ok [] ∧
   run_main [py "B "] (py "&") = Ok []).
Proof.
  intros Hl He. split; [|split].
  - intros Hnil. exists (call_add_contact st). split; [|apply accepted_add].
    rewrite process_line_end by done. unfold end_record. rewrite Hnil.
    reflexivity.
  - intros entry tags Hne Hmem Hcat Htags present.
    assert (Hend : end_record e st =
      if bool_decide (logic_op e = py "&") then
        if negb (forallb (λ tag, bool_decide (tag ∈ present)) (tag_list e))
        then Ok (Continue (stop_listening st))
        else Ok (Continue (call_add_contact st))
      else if bool_decide (logic_op e = py "|") then
        if negb (existsb (λ tag, bool_decide (tag ∈ present)) (tag_list e))
        then Ok (Continue (stop_listening st))
        else Ok (Continue (call_add_contact st))
      else Ok (FallThrough st)).
    { unfold end_record. rewrite tag_list_nonempty by done. rewrite Hmem.
      unfold dict_getitem. rewrite Hcat. simpl. rewrite Htags. reflexivity. }
    split; intros Hop.
    + rewrite process_line_end, Hend by done.
      rewrite bool_decide_eq_true_2 by done.
      destruct (forallb _ _) eqn:Hall; simpl.
      * apply forallb_elem_of in Hall.
        exists (call_add_contact st). split; [done|].
        pose proof (accepted_add st). pose proof (not_discarded_add st).
        tauto.
      * assert (¬ Forall (λ tag, tag ∈ present) (tag_list e)).
        { rewrite <- forallb_elem_of. congruence. }
        exists (stop_listening st). split; [done|].
        pose proof (discarded_stop st). pose proof (not_accepted_stop st).
        tauto.
    + rewrite process_line_end, Hend by done.
      rewrite bool_decide_eq_false_2 by (rewrite Hop; discriminate).
      rewrite bool_decide_eq_true_2 by done.
      destruct (existsb _ _) eqn:Hany; simpl.
      * apply existsb_elem_of in Hany.
        exists (call_add_contact st). split; [done|].
        pose proof (accepted_add st). pose proof (not_discarded_add st).
        tauto.
      * assert (¬ Exists (λ tag, tag ∈ present) (tag_list e)).
        { rewrite <- existsb_elem_of. congruence. }
        exists (stop_listening st). split; [done|].
        pose proof (discarded_stop st). pose proof (not_accepted_stop st).
        tauto.
  - vm_compute. repeat split; reflexivity.
Qed.

Lemma C4_witness :
  let e_or := sample_env [py "B"; py "D"] (py "|") in
  let e_and := sample_env [py "B"; py "D"] (py "&") in
  let st := state_after e_or [ln "N:Doe;John;;;"; ln "CATEGORIES:A,B,C"]
              sample_initial_state in
  (∃ st', process_line e_or (ln "END:VCARD") st = Ok st' ∧ accepted st st') ∧
  (∃ st', process_line e_and (ln "END:VCARD") st = Ok st' ∧ discarded st st').
Proof.
  intros e_or e_and st.
  set (entry := {| entry_value := py "Tags"; entry_count := 1 |}).
  split.
  - destruct (C4_tag_filter e_or (ln "END:VCARD") st eq_refl eq_refl)
      as (_ & H & _).
    destruct (H entry (py "A,B,C")) as [_ Hor];
      [discriminate | reflexivity | reflexivity | reflexivity |].
    destruct (Hor eq_refl) as (st' & Hp & Hacc & _).
    exists st'. split; [exact Hp|]. apply Hacc.
    apply Exists_cons. left.
    apply (bool_decide_eq_true_1 _). vm_compute. reflexivity.
  - destruct (C4_tag_filter e_and (ln "END:VCARD") st eq_refl eq_refl)
      as (_ & H & _).
    destruct (H entry (py "A,B,C")) as [Hand _];
      [discriminate | reflexivity | reflexivity | reflexivity |].
    destruct (Hand eq_refl) as (st' & Hp & _ & Hdis).
    exists st'. split; [exact Hp|]. apply Hdis.
    intros Hall. apply Forall_cons in Hall as [_ Hall].
    apply Forall_cons in Hall as [Hd _].
    apply (bool_decide_eq_true_2 _) in Hd. vm_compute in Hd. discriminate.
Defined.

(** ** The store is touched at end markers only *)

Ltac inv_bind H :=
  repeat first
    [ let x := fresh "x" in
      let Hx := fresh "Hx" in
      apply bind_Ok in H as (x & Hx & H); cbv beta zeta in H
    | match type of H with
      | (let '(_, _) := ?p in _) = _ => destruct p; cbv beta iota zeta in H
      end ].

Lemma same_store_refl (st : state) : same_store st st.
Proof. done. Qed.

Lemma same_store_trans (st1 st2 st3 : state) :
  same_store st1 st2 → same_store st2 st3 → same_store st1 st3.
Proof. intros [H1 H2] [H3 H4]. split; congruence. Qed.

Lemma standard_field_store (line : str) (st st' : state) :
  standard_field line st = Ok st' → same_store st st'.
Proof.
  unfold standard_field. intros H. inv_bind H.
  injection H as <-. done.
Qed.

Lemma custom_field_store (e : env) (line : str) (st st' : state) :
  custom_field e line st = Ok st' → same_store st st'.
Proof.
  unfold custom_field. intros H. inv_bind H.
  injection H as <-. done.
Qed.

Lemma social_profile_field_store (line : str) (st st' : state) :
  social_profile_field line st = Ok st' → same_store st st'.
Proof.
  unfold social_profile_field. intros H. inv_bind H.
  injection H as <-. done.
Qed.

Lemma unfinished_line_store (e : env) (line : str) (st st' : state) :
  unfinished_line e line st = Ok st' → same_store st st'.
Proof.
  unfold unfinished_line. intros H. inv_bind H.
  injection H as <-. done.
Qed.

Lemma listening_block_store (e : env) (line : str) (st st' : state) :
  listening_block e line st = Ok st' → same_store st st'.
Proof.
  unfold listening_block. intros H.
  apply bind_Ok in H as (st1 & H1 & H).
  apply bind_Ok in H as (st2 & H2 & H).
  apply bind_Ok in H as (st3 & H3 & H).
  apply bind_Ok in H as (st4 & H4 & H).
  apply bind_Ok in H as (b & _ & H).
  assert (same_store st st1).
  { destruct (PyStr.startswith line BEGIN_SYMBOL); [|by injection H1 as <-].
    apply bind_Ok in H1 as (c & _ & H1). by injection H1 as <-. }
  assert (same_store st1 st2).
  { destruct (is_standard_line e line); [|by injection H2 as <-].
    by apply standard_field_store in H2. }
  assert (same_store st2 st3).
  { destruct (is_custom_line e line); [|by injection H3 as <-].
    by apply custom_field_store in H3. }
  assert (same_store st3 st4).
  { destruct (is_social_line e line); [|by injection H4 as <-].
    by apply social_profile_field_store in H4. }
  assert (same_store st4 st').
  { destruct b; [|by injection H as <-].
    by apply unfinished_line_store in H. }
  eauto using same_store_trans.
Qed.

Lemma end_record_flow (e : env) (st : state) (fl : flow) :
  end_record e st = Ok fl →
  fl = Continue (stop_listening st) ∨
  fl = Continue (call_add_contact st) ∨
  fl = FallThrough st.
Proof.
  unfold end_record. intros H.
  destruct (0 <? length (tag_list e))%nat; [|injection H as <-; auto].
  destruct (negb _); [injection H as <-; auto|].
  apply bind_Ok in H as (entry & _ & H).
  apply bind_Ok in H as (tags & _ & H). cbv beta zeta in H.
  repeat case_match; injection H as <-; auto.
Qed.

(** One iteration either leaves the store and the counter alone, or it is
    an end marker met while listening and the record is stored under the
    current identifier. *)
Lemma process_line_store (e : env) (line : str) (st st' : state) :
  process_line e line st = Ok st' →
  same_store st st' ∨
  (PyStr.startswith line END_SYMBOL = true ∧
   listening_to_data st = true ∧
   accepted st st').
Proof.
  unfold process_line. intros H.
  destruct (PyStr.startswith line BEGIN_SYMBOL) eqn:Hb.
  - rewrite (begin_not_end _ Hb) in H. simpl in H.
    apply listening_block_store in H. left.
    destruct H as [H1 H2]. split; [rewrite H1 | rewrite H2]; reflexivity.
  - destruct (PyStr.startswith line END_SYMBOL) eqn:He;
      destruct (listening_to_data st) eqn:Hl; simpl in H.
    + apply bind_Ok in H as (fl & Hfl & H).
      apply end_record_flow in Hfl as [-> | [-> | ->]].
      * injection H as <-. left. done.
      * injection H as <-. right. auto using accepted_add.
      * rewrite Hl in H. left. by apply listening_block_store in H.
    + rewrite Hl in H. injection H as <-. left. done.
    + rewrite Hl in H. left. by apply listening_block_store in H.
    + rewrite Hl in H. injection H as <-. left. done.
Qed.

Lemma run_app (e : env) (vcf1 vcf2 : list str) (st : state) :
  run e (vcf1 ++ vcf2) st = run e vcf1 st ≫= run e vcf2.
Proof.
  revert st. induction vcf1 as [|line vcf1 IH]; intros st; simpl.
  - reflexivity.
  - destruct (process_line e line st) as [st1|x]; simpl; [apply IH | reflexivity].
Qed.

Lemma run_cons_Ok (e : env) (line : str) (vcf : list str) (st st' : state) :
  run e (line :: vcf) st = Ok st' →
  ∃ st1, process_line e line st = Ok st1 ∧ run e vcf st1 = Ok st'.
Proof. simpl. apply bind_Ok. Qed.

Lemma run_without_end_marker (e : env) (vcf : list str) (st st' : state) :
  Forall (λ line, PyStr.startswith line END_SYMBOL = false) vcf →
  run e vcf st = Ok st' → same_store st st'.
Proof.
  intros Hno. revert st. induction Hno as [|line vcf Hline _ IH]; intros st H.
  - injection H as <-. done.
  - apply run_cons_Ok in H as (st1 & H1 & H).
    apply process_line_store in H1 as [H1 | (He & _)]; [|congruence].
    eauto using same_store_trans.
Qed.

Lemma dict_set_fresh {K V} `{EqDecision K} (d : list (K * V)) (k : K) (v : V) :
  k ∉ d.*1 → dict_set d k v = d ++ [(k, v)].
Proof.
  induction d as [|[k' v'] d IH]; simpl; intros Hk; [reflexivity|].
  apply not_elem_of_cons in Hk as [Hne Hk].
  destruct (decide (k' = k)); [congruence|]. by rewrite IH.
Qed.

Lemma accepted_dense (st st' : state) :
  store_dense st → accepted st st' →
  contacts_dict st' = contacts_dict st ++ [(contact_id st, contact_dict st)] ∧
  store_dense st'.
Proof.
  unfold store_dense. intros Hd (Hc & Hi & _).
  assert (contacts_dict st' =
          contacts_dict st ++ [(contact_id st, contact_dict st)]) as Happ.
  { rewrite Hc. apply dict_set_fresh. rewrite Hd.
    rewrite list_elem_of_In, in_seq. lia. }
  split; [exact Happ|].
  rewrite Happ, Hi, fmap_app, Hd, seq_S. reflexivity.
Qed.

Lemma process_line_dense (e : env) (line : str) (st st' : state) :
  store_dense st → process_line e line st = Ok st' →
  store_dense st' ∧
  (same_store st st' ∨
   (PyStr.startswith line END_SYMBOL = true ∧
    listening_to_data st = true ∧
    contacts_dict st' = contacts_dict st ++ [(contact_id st, contact_dict st)] ∧
    contact_id st' = S (contact_id st))).
Proof.
  intros Hd H. apply process_line_store in H as [[H1 H2] | (He & Hl & Ha)].
  - split; [|left; done]. unfold store_dense. by rewrite H1, H2.
  - destruct (accepted_dense _ _ Hd Ha) as [Happ Hd'].
    split; [done|]. right. destruct Ha as (_ & Hi & _). done.
Qed.

Lemma run_dense (e : env) (vcf : list str) (st st' : state) :
  store_dense st → run e vcf st = Ok st' →
  store_dense st' ∧
  contacts_dict st `prefix_of` contacts_dict st' ∧
  (contact_id st' ≤ contact_id st + end_markers vcf)%nat.
Proof.
  revert st. induction vcf as [|line vcf IH]; intros st Hd H.
  - injection H as <-. split; [done|]. split; [done|]. lia.
  - apply run_cons_Ok in H as (st1 & H1 & H).
    destruct (process_line_dense _ _ _ _ Hd H1) as [Hd1 Hstep].
    destruct (IH _ Hd1 H) as (Hd' & Hpre & Hle).
    split; [done|].
    unfold end_markers in *. rewrite filter_cons.
    destruct Hstep as [[Hs1 Hs2] | (He & _ & Happ & Hi)].
    + rewrite Hs1 in Hpre. split; [done|].
      case_decide; cbn [length]; lia.
    + split.
      * etrans; [|exact Hpre]. rewrite Happ. by apply prefix_app_r.
      * rewrite decide_True by done. cbn [length]. lia.
Qed.

Lemma initial_state_dense (std cus soc : table) :
  store_dense (initial_state std cus soc).
Proof. reflexivity. Qed.

(** C6: in every run the identifiers of the store are [0], [1], ... in
    the order of the store, the counter equals the number of stored
    records, a longer input only appends to the store (records keep the
    order in which their end markers were met), and an iteration either
    leaves store and counter alone or, at an end marker met while
    listening, appends the current record under the current identifier
    and advances the counter by one. *)
Theorem C6_store_identifiers (tags : list str) (op : str) (std cus soc : table)
    (vcf1 vcf2 : list str) (st1 st2 : state) :
  let e := make_env tags op std cus soc in
  let st0 := initial_state std cus soc in
  run e vcf1 st0 = Ok st1 →
  run e (vcf1 ++ vcf2) st0 = Ok st2 →
  (contacts_dict st1).*1 = seq 0 (length (contacts_dict st1)) ∧
  contact_id st1 = length (contacts_dict st1) ∧
  contacts_dict st1 `prefix_of` contacts_dict st2 ∧
  (∀ (line : str) (st' : state),
     process_line e line st1 = Ok st' →
     same_store st1 st' ∨
     (PyStr.startswith line END_SYMBOL = true ∧
      listening_to_data st1 = true ∧
      contacts_dict st' = contacts_dict st1 ++ [(contact_id st1, contact_dict st1)] ∧
      contact_id st' = S (contact_id st1))).
Proof.
  intros e st0 H1 H2.
  destruct (run_dense e vcf1 st0 st1 (initial_state_dense _ _ _) H1)
    as (Hd1 & _ & _).
  assert (Hlen : contact_id st1 = length (contacts_dict st1)).
  { unfold store_dense in Hd1.
    rewrite <- (length_fmap fst (contacts_dict st1)), Hd1, length_seq.
    reflexivity. }
  split; [by rewrite <- Hlen|]. split; [exact Hlen|]. split.
  - rewrite run_app, H1 in H2. simpl in H2.
    by destruct (run_dense e vcf2 st1 st2 Hd1 H2) as (_ & Hpre & _).
  - intros line st' Hstep.
    by destruct (process_line_dense e line st1 st' Hd1 Hstep) as [_ Hcase].
Qed.

Lemma C6_witness :
  let e := sample_env [py "X"] (py "|") in
  let vcf1 := [ln "N:Doe;John;;;"; ln "CATEGORIES:X"; ln "END:VCARD";
               ln "N:Roe;Jane;;;"; ln "CATEGORIES:Y"; ln "END:VCARD";
               ln "N:Poe;Anne;;;"; ln "EMAIL:anne@poe.org"; ln "END:VCARD"] in
  let vcf2 := [ln "N:Moe;Max;;;"; ln "CATEGORIES:X,Y"; ln "END:VCARD"] in
  let st1 := state_after e vcf1 sample_initial_state in
  let st2 := state_after e (vcf1 ++ vcf2) sample_initial_state in
  (contacts_dict st1).*1 = [0]%nat ∧
  contact_id st1 = 1%nat ∧
  (contacts_dict st2).*1 = [0; 1]%nat ∧
  contacts_dict st1 `prefix_of` contacts_dict st2 ∧
  contacts_dict st2 =
    [(0%nat, [(py "Last Name", py "Doe"); (py "First Name", py "John");
              (py "Tags", py "X")]);
     (1%nat, [(py "Last Name", py "Moe"); (py "First Name", py "Max");
              (py "Tags", py "X,Y")])].
Proof.
  intros e vcf1 vcf2 st1 st2.
  destruct (C6_store_identifiers [py "X"] (py "|")
              sample_standard sample_custom sample_social vcf1 vcf2 st1 st2)
    as (Hids & Hcount & Hpre & _); [vm_compute; reflexivity ..|].
  split; [|split; [|split; [|split]]].
  - rewrite Hids. vm_compute. reflexivity.
  - rewrite Hcount. vm_compute. reflexivity.
  - vm_compute. reflexivity.
  - exact Hpre.
  - vm_compute. reflexivity.
Defined.

Lemma main_run (tags : list str) (op : str) (std cus soc : table)
    (vcf : list str) (st : state) :
  run (make_env tags op std cus soc) vcf (initial_state std cus soc) = Ok st →
  main tags op std cus soc vcf = Ok (contacts_dict st).
Proof. unfold main. intros ->. reflexivity. Qed.

(** C8: when the input ends after lines that contain no end marker (a
    record still open, or lines outside any record), reaching the end of
    the input raises nothing and the store is the one the input without
    those trailing lines gives: the open record is not emitted. The
    store never holds more records than end markers were read. *)
Theorem C8_unterminated_record_discarded
    (tags : list str) (op : str) (std cus soc : table)
    (closed unterminated : list str) (st' : state) :
  Forall (λ line, PyStr.startswith line END_SYMBOL = false) unterminated →
  run (make_env tags op std cus soc) (closed ++ unterminated)
    (initial_state std cus soc) = Ok st' →
  main tags op std cus soc (closed ++ unterminated) = Ok (contacts_dict st') ∧
  main tags op std cus soc closed = Ok (contacts_dict st') ∧
  (length (contacts_dict st') ≤ end_markers closed)%nat.
Proof.
  intros Hno Hrun. split; [by apply main_run|].
  pose proof Hrun as Hrun'. rewrite run_app in Hrun'.
  apply bind_Ok in Hrun' as (st1 & H1 & H2).
  destruct (run_without_end_marker _ _ _ _ Hno H2) as [Hsame _].
  rewrite Hsame. split; [by apply main_run|].
  destruct (run_dense _ _ _ _ (initial_state_dense std cus soc) H1)
    as (Hd & _ & Hle).
  unfold store_dense in Hd.
  rewrite <- (length_fmap fst (contacts_dict st1)), Hd, length_seq.
  simpl in Hle. exact Hle.
Qed.

Lemma C8_witness :
  let closed := [ln "N:Doe;John;;;"; ln "EMAIL:john@doe.org"; ln "END:VCARD"] in
  let unterminated := [ln "N:Roe;Jane;;;"; ln "EMAIL:jane@roe.org"] in
  let st' := state_after (sample_env [] (py "|")) (closed ++ unterminated)
               sample_initial_state in
  listening_to_data st' = true ∧
  contact_dict st' =
    [(py "Last Name", py "Roe"); (py "First Name", py "Jane");
     (py "Email", py "jane@roe.org")] ∧
  main [] (py "|") sample_standard sample_custom sample_social
    (closed ++ unterminated)
  = Ok [(0%nat, [(py "Last Name", py "Doe"); (py "First Name", py "John");
                 (py "Email", py "john@doe.org")])] ∧
  main [] (py "|") sample_standard sample_custom sample_social closed
  = main [] (py "|") sample_standard sample_custom sample_social
      (closed ++ unterminated).
Proof.
  intros closed unterminated st'.
  destruct (C8_unterminated_record_discarded [] (py "|")
              sample_standard sample_custom sample_social
              closed unterminated st') as (Hall & Hclosed & _).
  - repeat constructor.
  - vm_compute. reflexivity.
  - split; [vm_compute; reflexivity|]. split; [vm_compute; reflexivity|].
    split; [rewrite Hall; vm_compute; reflexivity|].
    rewrite Hall, Hclosed. reflexivity.
Defined.

(** ** Folded notes *)










(** ** Disambiguation of repeated fields *)

(** ** Dictionaries *)

Section dict_lemmas.
Context {K V : Type} `{EqDecision K}.
Implicit Types (d : list (K * V)) (k : K) (v : V).

Lemma dict_get_set_eq d k v : dict_get (dict_set d k v) k = Some v.
Proof.
  induction d as [|[k' v'] d IH]; simpl.
  - by rewrite decide_True.
  - destruct (decide (k' = k)) as [->|Hne]; simpl.
    + by rewrite decide_True.
    + by rewrite decide_False.
Qed.

Lemma dict_get_set_ne d k k' v :
  k ≠ k' → dict_get (dict_set d k v) k' = dict_get d k'.
Proof.
  intros Hne. induction d as [|[k1 v1] d IH]; simpl.
  - by rewrite decide_False.
  - destruct (decide (k1 = k)) as [->|Hne1]; simpl.
    + by rewrite !decide_False.
    + destruct (decide (k1 = k')); [done | exact IH].
Qed.

Lemma dict_get_del_eq d k : dict_get (dict_del d k) k = None.
Proof.
  induction d as [|[k' v'] d IH]; simpl; [done|].
  destruct (decide (k' = k)) as [->|Hne]; simpl; [done|].
  by rewrite decide_False.
Qed.

Lemma dict_get_del_ne d k k' :
  k ≠ k' → dict_get (dict_del d k) k' = dict_get d k'.
Proof.
  intros Hne. induction d as [|[k1 v1] d IH]; simpl; [done|].
  destruct (decide (k1 = k)) as [->|Hne1]; simpl.
  - by rewrite decide_False.
  - destruct (decide (k1 = k')); [done | exact IH].
Qed.
End dict_lemmas.

Lemma dict_get_names_of (T : table) (k : str) :
  dict_get (names_of T) k = entry_value <$> dict_get T k.
Proof.
  induction T as [|[k' e] T IH]; simpl; [done|].
  destruct (decide (k' = k)); [done | exact IH].
Qed.

Lemma names_of_dict_set (T : table) (k : str) (e e' : field_entry) :
  dict_get T k = Some e → entry_value e' = entry_value e →
  names_of (dict_set T k e') = names_of T.
Proof.
  intros Hget Hval. induction T as [|[k1 e1] T IH]; simpl in *; [done|].
  destruct (decide (k1 = k)) as [->|Hne]; simpl.
  - injection Hget as ->. unfold names_of. simpl. by rewrite Hval.
  - unfold names_of in *. simpl. by rewrite IH.
Qed.

Lemma names_of_reset (T : table) : names_of (reset_field_count T) = names_of T.
Proof.
  unfold names_of, reset_field_count. rewrite <- list_fmap_compose.
  apply list_fmap_ext. by intros _ [k e] _.
Qed.

Lemma dict_get_reset (T : table) (k : str) (e : field_entry) :
  dict_get (reset_field_count T) k = Some e → entry_count e = 0%nat.
Proof.
  induction T as [|[k' e'] T IH]; simpl; [done|].
  destruct (decide (k' = k)); [|exact IH]. by intros [= <-].
Qed.

(** ** Suffixed names *)

Lemma digits_inj (u u' : Decimal.uint) :
  PyStr.digits u = PyStr.digits u' → u = u'.
Proof.
  revert u'. induction u; intros u'; destruct u'; simpl;
    try discriminate; try reflexivity;
    intros [= H]; f_equal; by apply IHu.
Qed.

Lemma str_of_nat_inj (n m : nat) :
  PyStr.str_of_nat n = PyStr.str_of_nat m → n = m.
Proof.
  intros H%digits_inj.
  rewrite <- (DecimalNat.Unsigned.of_to n), <- (DecimalNat.Unsigned.of_to m).
  by rewrite H.
Qed.

Lemma suffixed_inj (v : str) (n m : nat) : suffixed v n = suffixed v m → n = m.
Proof.
  unfold suffixed. intros H. apply app_inv_head in H.
  apply app_inv_head in H. by apply str_of_nat_inj.
Qed.

Lemma suffixed_ne_bare (v : str) (n : nat) : suffixed v n ≠ v.
Proof.
  unfold suffixed. intros H. apply (f_equal length) in H.
  rewrite !length_app in H. simpl in H. lia.
Qed.

Lemma family_bare (v : str) : family v v.
Proof. by left. Qed.

Lemma family_suffixed (v : str) (n : nat) : family v (suffixed v n).
Proof. right. eauto. Qed.

Lemma family_prefix (v name : str) : family v name → v `prefix_of` name.
Proof.
  intros [->|[n ->]]; [done|]. unfold suffixed. by apply prefix_app_r.
Qed.

(** ** The counting step *)

Lemma occurrence_Ok (T : table) (c : contact) (k : str)
    (T' : table) (c' : contact) (name : str) :
  occurrence T c k = Ok (T', c', name) →
  ∃ e, dict_get T k = Some e ∧ T' = dict_set T k (bump e) ∧
    let v := entry_value e in
    ((entry_count e = 0%nat ∧ c' = c ∧ name = v) ∨
     (entry_count e = 1%nat ∧ name = suffixed v 2 ∧
      ∃ old, dict_get c v = Some old ∧
             c' = dict_set (dict_del c v) (suffixed v 1) old) ∨
     ((2 ≤ entry_count e)%nat ∧ c' = c ∧
      name = suffixed v (entry_count e + 1))).
Proof.
  unfold occurrence, dict_getitem. intros H.
  destruct (dict_get T k) as [e|] eqn:He; [|discriminate].
  exists e. split; [done|].
  cbn [mbind result_bind] in H. cbv zeta. rewrite !Nat.add_1_r in H.
  destruct (entry_count e) as [|[|n]] eqn:Hn;
    cbn [Nat.add Nat.ltb Nat.leb Nat.eqb] in H.
  - injection H as <- <- <-. split; [by unfold bump; rewrite Hn, Nat.add_1_r|]. left. done.
  - unfold dict_pop in H.
    destruct (dict_get c (entry_value e)) as [old|] eqn:Hold; [|discriminate].
    cbn [mbind result_bind fst snd] in H. injection H as <- <- <-.
    split; [by unfold bump; rewrite Hn, Nat.add_1_r|]. right. left. split; [done|]. split; [done|].
    exists old. done.
  - injection H as <- <- <-. split; [by unfold bump; rewrite Hn, Nat.add_1_r|].
    right. right. split; [lia|]. split; [done|]. by rewrite Nat.add_1_r.
Qed.

Lemma entries_for_presence (v : str) (n : nat) (c c' : contact) :
  (∀ x, family v x → is_Some (dict_get c' x) ↔ is_Some (dict_get c x)) →
  entries_for n v c → entries_for n v c'.
Proof.
  intros Hsame [Hbare Hsuf]. split.
  - by rewrite (Hsame v (family_bare v)).
  - intros m. by rewrite (Hsame _ (family_suffixed v m)).
Qed.

Lemma entries_for_frame (v : str) (n : nat) (c c' : contact) :
  (∀ x, family v x → dict_get c' x = dict_get c x) →
  entries_for n v c → entries_for n v c'.
Proof.
  intros Hsame. apply entries_for_presence. intros x Hx. by rewrite Hsame.
Qed.

Lemma entries_for_first (v data : str) (c : contact) :
  entries_for 0 v c → entries_for 1 v (dict_set c v data).
Proof.
  intros [Hbare Hsuf]. split.
  - rewrite dict_get_set_eq. split; [done | eauto].
  - intros m. rewrite dict_get_set_ne by (symmetry; apply suffixed_ne_bare).
    rewrite Hsuf. lia.
Qed.

Lemma entries_for_second (v old data : str) (c : contact) :
  entries_for 1 v c →
  entries_for 2 v
    (dict_set (dict_set (dict_del c v) (suffixed v 1) old) (suffixed v 2) data).
Proof.
  intros [Hbare Hsuf]. split.
  - rewrite !dict_get_set_ne by apply suffixed_ne_bare.
    rewrite dict_get_del_eq. split; [by intros [? ?] | lia].
  - intros m.
    destruct (decide (m = 2%nat)) as [->|H2].
    { rewrite dict_get_set_eq. split; [lia | eauto]. }
    rewrite dict_get_set_ne by (intros H%suffixed_inj; lia).
    destruct (decide (m = 1%nat)) as [->|H1].
    { rewrite dict_get_set_eq. split; [lia | eauto]. }
    rewrite dict_get_set_ne by (intros H%suffixed_inj; lia).
    rewrite dict_get_del_ne by (symmetry; apply suffixed_ne_bare).
    rewrite Hsuf. lia.
Qed.

Lemma entries_for_next (v data : str) (n : nat) (c : contact) :
  (2 ≤ n)%nat → entries_for n v c →
  entries_for (n + 1) v (dict_set c (suffixed v (n + 1)) data).
Proof.
  intros Hn [Hbare Hsuf]. split.
  - rewrite dict_get_set_ne by apply suffixed_ne_bare. rewrite Hbare. lia.
  - intros m.
    destruct (decide (m = n + 1)%nat) as [->|Hm].
    { rewrite dict_get_set_eq. split; [lia | eauto]. }
    rewrite dict_get_set_ne by (intros H%suffixed_inj; lia).
    rewrite Hsuf. lia.
Qed.

(** A counted occurrence, once stored, touches names of its own family
    only and leaves in the contact what the new count announces. *)
Lemma occurrence_store (T : table) (c : contact) (k : str)
    (T' : table) (c' : contact) (name data : str) :
  occurrence T c k = Ok (T', c', name) →
  ∃ e, dict_get T k = Some e ∧ T' = dict_set T k (bump e) ∧
    (∀ x, ¬ family (entry_value e) x →
          dict_get (dict_set c' name data) x = dict_get c x) ∧
    (entries_for (entry_count e) (entry_value e) c →
     entries_for (entry_count e + 1) (entry_value e) (dict_set c' name data)).
Proof.
  intros (e & He & -> & Hcases)%occurrence_Ok. exists e.
  split; [done|]. split; [done|]. cbv zeta in Hcases.
  destruct Hcases as [(Hn & -> & ->) | [(Hn & -> & old & Hold & ->) | (Hn & -> & ->)]].
  - split.
    + intros x Hx. apply dict_get_set_ne. intros <-. apply Hx, family_bare.
    + rewrite Hn. apply entries_for_first.
  - split.
    + intros x Hx.
      rewrite !dict_get_set_ne by (intros <-; apply Hx, family_suffixed).
      apply dict_get_del_ne. intros <-. apply Hx, family_bare.
    + rewrite Hn. apply entries_for_second.
  - split.
    + intros x Hx. apply dict_get_set_ne. intros <-. apply Hx, family_suffixed.
    + by apply entries_for_next.
Qed.

Lemma occurrence_disambiguated (ts : list table) (i : nat) (T : table)
    (c : contact) (k : str) (T' : table) (c' : contact) (name data : str) :
  hygienic (names_of <$> ts) →
  ts !! i = Some T →
  (∀ j Tj k2 e2, ts !! j = Some Tj → dict_get Tj k2 = Some e2 →
     entries_for (entry_count e2) (entry_value e2) c) →
  occurrence T c k = Ok (T', c', name) →
  names_of <$> <[i:=T']> ts = names_of <$> ts ∧
  (∀ j Tj k2 e2, <[i:=T']> ts !! j = Some Tj → dict_get Tj k2 = Some e2 →
     entries_for (entry_count e2) (entry_value e2) (dict_set c' name data)).
Proof.
  intros [Hhyg _] Hi Hinv Hocc.
  destruct (occurrence_store _ _ _ _ _ _ data Hocc)
    as (e & He & -> & Hout & Hown).
  assert (Hnames : names_of (dict_set T k (bump e)) = names_of T)
    by (by apply (names_of_dict_set T k e)).
  split.
  { rewrite list_fmap_insert, Hnames. apply list_insert_id.
    by rewrite list_lookup_fmap, Hi. }
  assert (Hother : ∀ j Tj k2 e2,
    ts !! j = Some Tj → dict_get Tj k2 = Some e2 → i ≠ j ∨ k ≠ k2 →
    entries_for (entry_count e2) (entry_value e2) (dict_set c' name data)).
  { intros j Tj k2 e2 Hj Hk2 Hne.
    apply (entries_for_frame _ _ c); [|by eapply Hinv].
    intros x Hx. apply Hout. intros Hx'.
    apply (Hhyg i j (names_of T) (names_of Tj) k k2
             (entry_value e) (entry_value e2)) with x; try done.
    - by rewrite list_lookup_fmap, Hi.
    - by rewrite list_lookup_fmap, Hj.
    - by rewrite dict_get_names_of, He.
    - by rewrite dict_get_names_of, Hk2. }
  intros j Tj k2 e2 Hj Hk2.
  destruct (decide (i = j)) as [<-|Hij].
  - rewrite list_lookup_insert_eq in Hj by (by eapply lookup_lt_Some).
    injection Hj as <-.
    destruct (decide (k = k2)) as [<-|Hk].
    + rewrite dict_get_set_eq in Hk2. injection Hk2 as <-.
      apply Hown. by eapply Hinv.
    + rewrite dict_get_set_ne in Hk2 by done. eapply Hother; eauto.
  - rewrite list_lookup_insert_ne in Hj by done. eapply Hother; eauto.
Qed.

(** ** The invariant of a record being read *)


Lemma store_field_tidy (ns : list (list (str * str))) (st : state) (i : nat)
    (T T' : table) (c' : contact) (k name data ls : str) (st' : state) :
  hygienic ns → tidy ns st →
  tables st !! i = Some T →
  occurrence T (contact_dict st) k = Ok (T', c', name) →
  tables st' = <[i:=T']> (tables st) →
  contact_dict st' = dict_set c' name data →
  tidy ns st'.
Proof.
  intros Hhyg [Hns Hinv] Hi Hocc Hts Hc. rewrite <- Hns in Hhyg.
  destruct (occurrence_disambiguated (tables st) i T (contact_dict st) k
              T' c' name data Hhyg Hi Hinv Hocc) as [Hnames Hdis].
  split.
  - by rewrite Hts, Hnames.
  - unfold disambiguated. rewrite Hts, Hc. exact Hdis.
Qed.

Lemma standard_field_tidy (ns : list (list (str * str))) (line : str)
    (st st' : state) :
  hygienic ns → tidy ns st → standard_field line st = Ok st' → tidy ns st'.
Proof.
  intros Hhyg Hinv H. unfold standard_field in H.
  apply bind_Ok in H as (k & _ & H).
  apply bind_Ok in H as ([[T' c'] name] & Hocc & H). cbv beta iota zeta in H.
  apply bind_Ok in H as (dl & _ & H). injection H as <-.
  by apply (store_field_tidy ns st 0 (standard_field_dict st) T' c'
              k name dl.1 dl.2).
Qed.

Lemma custom_field_tidy (ns : list (list (str * str))) (e : env) (line : str)
    (st st' : state) :
  hygienic ns → tidy ns st → custom_field e line st = Ok st' → tidy ns st'.
Proof.
  intros Hhyg Hinv H. unfold custom_field in H. cbv zeta in H.
  apply bind_Ok in H as ([[T' c'] name] & Hocc & H). cbv beta iota zeta in H.
  apply bind_Ok in H as (last & _ & H). injection H as <-.
  eapply (store_field_tidy ns st 1 (custom_field_dict st) T' c'); eauto.
Qed.

Lemma social_profile_field_tidy (ns : list (list (str * str))) (line : str)
    (st st' : state) :
  hygienic ns → tidy ns st → social_profile_field line st = Ok st' → tidy ns st'.
Proof.
  intros Hhyg Hinv H. unfold social_profile_field in H.
  apply bind_Ok in H as (second & _ & H).
  apply bind_Ok in H as (head & _ & H). cbv beta zeta in H.
  apply bind_Ok in H as ([[T' c'] name] & Hocc & H). cbv beta iota zeta in H.
  apply bind_Ok in H as (last & _ & H).
  apply bind_Ok in H as (label & _ & H). injection H as <-.
  eapply (store_field_tidy ns st 2 (social_profile_field_dict st) T' c'); eauto.
Qed.

Lemma unfinished_line_tidy (ns : list (list (str * str))) (e : env) (line : str)
    (st st' : state) :
  tidy ns st → unfinished_line e line st = Ok st' → tidy ns st'.
Proof.
  intros [Hns Hinv] H. unfold unfinished_line in H.
  destruct (if bool_decide (key_previous st = py "NOTE")
            then note_continuation line (last_symbol st)
            else (line, last_symbol st)) as [line' ls'].
  cbv beta iota zeta in H.
  unfold dict_getitem in H.
  destruct (dict_get (contact_dict st) (value_previous st)) as [old|] eqn:Hold;
    [|discriminate].
  cbn [mbind result_bind] in H. injection H as <-.
  split; [exact Hns|].
  intros i T k en Hi Hk. cbn [contact_dict].
  apply (entries_for_presence _ _ (contact_dict st)); [|by eapply Hinv].
  intros x _. destruct (decide (value_previous st = x)) as [<-|Hne].
  - rewrite dict_get_set_eq, Hold. split; eauto.
  - by rewrite dict_get_set_ne.
Qed.

Lemma set_if_nonempty_ne (d : contact) (k v x : str) :
  k ≠ x → dict_get (set_if_nonempty d k v) x = dict_get d x.
Proof.
  intros Hne. unfold set_if_nonempty.
  destruct (0 <? length v)%nat; [by apply dict_get_set_ne | done].
Qed.

Lemma contact_name_frame (line : str) (c c' : contact) (x : str) :
  contact_name line c = Ok c' → x ∉ name_fields →
  dict_get c' x = dict_get c x.
Proof.
  rewrite contact_name_segments. intros H Hx.
  destruct (name_segments line) as [|a [|b [|c0 [|d l]]]]; try discriminate.
  injection H as <-.
  rewrite !set_if_nonempty_ne; [done|..];
    intros <-; apply Hx; unfold name_fields;
    repeat first [apply list_elem_of_here | apply list_elem_of_further].
Qed.

Lemma contact_name_tidy (ns : list (list (str * str))) (line : str)
    (st : state) (c' : contact) :
  hygienic ns → tidy ns st → contact_name line (contact_dict st) = Ok c' →
  tidy ns (with_contact_dict st c').
Proof.
  intros [_ Hhyg] [Hns Hinv] H. split; [exact Hns|].
  intros i T k en Hi Hk. cbn [contact_dict with_contact_dict].
  apply (entries_for_frame _ _ (contact_dict st)); [|by eapply Hinv].
  intros x Hx. apply (contact_name_frame line); [done|].
  intros Hin. apply (Hhyg i (names_of T) k (entry_value en) x); try done.
  - rewrite <- Hns, list_lookup_fmap. change (tables (with_contact_dict st c')) with (tables st) in Hi.
    by rewrite Hi.
  - by rewrite dict_get_names_of, Hk.
Qed.

Lemma begin_record_tidy (ns : list (list (str * str))) (st : state) :
  names_of <$> tables st = ns → tidy ns (begin_record st).
Proof.
  intros Hns. split.
  - rewrite <- Hns. unfold tables. cbn [begin_record standard_field_dict
      custom_field_dict social_profile_field_dict fmap list_fmap].
    by rewrite !names_of_reset.
  - intros i T k en Hi Hk.
    assert (entry_count en = 0%nat) as ->.
    { destruct i as [|[|[|i]]]; simpl in Hi; try discriminate;
        injection Hi as <-; by eapply dict_get_reset. }
    cbn [contact_dict begin_record]. split.
    + simpl. split; [by intros [? ?] | lia].
    + intros m. simpl. split; [by intros [? ?] | lia].
Qed.

Lemma listening_block_tidy (ns : list (list (str * str))) (e : env)
    (line : str) (st st' : state) :
  hygienic ns → tidy ns st → listening_block e line st = Ok st' → tidy ns st'.
Proof.
  intros Hhyg Hinv H. unfold listening_block in H.
  apply bind_Ok in H as (st1 & H1 & H).
  apply bind_Ok in H as (st2 & H2 & H).
  apply bind_Ok in H as (st3 & H3 & H).
  apply bind_Ok in H as (st4 & H4 & H).
  apply bind_Ok in H as (b & _ & H).
  assert (tidy ns st1) as Hinv1.
  { destruct (PyStr.startswith line BEGIN_SYMBOL); [|by injection H1 as <-].
    apply bind_Ok in H1 as (c & Hc & H1). injection H1 as <-.
    by apply (contact_name_tidy ns line). }
  assert (tidy ns st2) as Hinv2.
  { destruct (is_standard_line e line); [|by injection H2 as <-].
    by apply (standard_field_tidy ns line st1). }
  assert (tidy ns st3) as Hinv3.
  { destruct (is_custom_line e line); [|by injection H3 as <-].
    by apply (custom_field_tidy ns e line st2). }
  assert (tidy ns st4) as Hinv4.
  { destruct (is_social_line e line); [|by injection H4 as <-].
    by apply (social_profile_field_tidy ns line st3). }
  destruct b; [|by injection H as <-].
  by apply (unfinished_line_tidy ns e line st4).
Qed.


Lemma process_line_inv (ns : list (list (str * str))) (e : env) (line : str)
    (st st' : state) :
  hygienic ns → record_inv ns st → process_line e line st = Ok st' →
  record_inv ns st'.
Proof.
  intros Hhyg [Hns Hinv] H. unfold process_line in H.
  assert (Htidy : ∀ s s', tidy ns s → listening_block e line s = Ok s' →
                          record_inv ns s').
  { intros s s' Hs Hb.
    destruct (listening_block_tidy ns e line s s' Hhyg Hs Hb). by split. }
  destruct (PyStr.startswith line BEGIN_SYMBOL) eqn:Hb.
  - rewrite (begin_not_end _ Hb) in H. simpl in H.
    eapply Htidy; [|exact H]. by apply begin_record_tidy.
  - destruct (PyStr.startswith line END_SYMBOL && listening_to_data st) eqn:Hc.
    + apply andb_true_iff in Hc as [_ Hl].
      apply bind_Ok in H as (fl & Hfl & H).
      apply end_record_flow in Hfl as [-> | [-> | ->]].
      * injection H as <-. split; [exact Hns | discriminate].
      * injection H as <-. split; [exact Hns | discriminate].
      * rewrite Hl in H. eapply Htidy; [|exact H]. split; auto.
    + cbn [mbind result_bind] in H.
      destruct (listening_to_data st) eqn:Hl.
      * eapply Htidy; [|exact H]. split; auto.
      * injection H as <-. split; [exact Hns|]. congruence.
Qed.

Lemma run_inv (ns : list (list (str * str))) (e : env) (vcf : list str)
    (st st' : state) :
  hygienic ns → record_inv ns st → run e vcf st = Ok st' → record_inv ns st'.
Proof.
  intros Hhyg. revert st. induction vcf as [|line vcf IH]; intros st Hinv H.
  - by injection H as <-.
  - apply run_cons_Ok in H as (st1 & H1 & H).
    eapply IH; [|exact H]. by eapply process_line_inv.
Qed.

(** ** The sample tables are hygienic *)

Lemma dict_get_elem_of {K V} `{EqDecision K} (d : list (K * V)) (k : K) (v : V) :
  dict_get d k = Some v → (k, v) ∈ d.
Proof.
  induction d as [|[k' v'] d IH]; simpl; [done|].
  destruct (decide (k' = k)) as [->|Hne].
  - intros [= ->]. apply list_elem_of_here.
  - intros H. by apply list_elem_of_further, IH.
Qed.

Lemma incomparable_disjoint (v v' : str) :
  bool_decide (v `prefix_of` v') = false →
  bool_decide (v' `prefix_of` v) = false →
  ∀ x, family v x → family v' x → False.
Proof.
  intros H1%bool_decide_eq_false H2%bool_decide_eq_false x
    Hx%family_prefix Hx'%family_prefix.
  destruct (prefix_weak_total _ _ _ Hx Hx'); done.
Qed.

Lemma not_family (v x : str) :
  bool_decide (v `prefix_of` x) = false → ¬ family v x.
Proof. intros H%bool_decide_eq_false Hx%family_prefix. done. Qed.

Ltac enum_entries H :=
  repeat first
    [ apply elem_of_nil in H; destruct H
    | apply elem_of_cons in H as [H|H]; [injection H as -> ->|] ].

Lemma sample_hygienic :
  hygienic [names_of sample_standard; names_of sample_custom;
            names_of sample_social].
Proof.
  split.
  - intros i j N N' k k' v v' Hi Hj Hk Hk' Hne.
    apply dict_get_elem_of in Hk, Hk'.
    destruct i as [|[|[|i]]]; try discriminate; injection Hi as <-;
      destruct j as [|[|[|j]]]; try discriminate; injection Hj as <-;
      vm_compute in Hk, Hk';
      enum_entries Hk; enum_entries Hk';
      first [ by destruct Hne
            | apply incomparable_disjoint; vm_compute; reflexivity ].
  - intros i N k v name Hi Hk Hname.
    apply dict_get_elem_of in Hk.
    destruct i as [|[|[|i]]]; try discriminate; injection Hi as <-;
      vm_compute in Hk; enum_entries Hk;
      unfold name_fields in Hname;
      repeat first
        [ apply elem_of_nil in Hname; destruct Hname
        | apply elem_of_cons in Hname as [->|Hname] ];
      apply not_family; vm_compute; reflexivity.
Qed.

(** ** Repeated fields *)

Lemma initial_state_inv (std cus soc : table) :
  record_inv [names_of std; names_of cus; names_of soc]
    (initial_state std cus soc).
Proof. split; [reflexivity | discriminate]. Qed.

(** C1 as stated fails: after two [EMAIL] lines the bare name [Email] is
    absent, so it does not hold the last value; the values are under
    [Email_1] and [Email_2]. *)
Lemma C1_counterexample :
  ∃ c : contact,
    main [] (py "|") sample_standard sample_custom sample_social
      [ln "N:Doe;John;;;"; ln "EMAIL:a@x.org"; ln "EMAIL:b@x.org";
       ln "END:VCARD"] = Ok [(0%nat, c)] ∧
    dict_get c (py "Email") = None ∧
    dict_get c (py "Email_1") = Some (py "a@x.org") ∧
    dict_get c (py "Email_2") = Some (py "b@x.org") ∧
    ¬ bare_holds_last c (py "Email") [py "a@x.org"; py "b@x.org"].
Proof.
  eexists. split; [vm_compute; reflexivity|].
  split; [reflexivity|]. split; [reflexivity|]. split; [reflexivity|].
  intros [Hbare _]. vm_compute in Hbare. discriminate.
Qed.

(** ** Lines handled by more than one branch *)

(** C2 does not hold of the program: the field branches are consecutive
    [if] statements and the built-in branch does not end the iteration.
    A [NOTE] line whose text contains the custom-field token and a
    registered custom key is stored by the built-in branch and then again
    by the custom branch. *)
Theorem C2_line_handled_by_two_branches :
  let e := sample_env [] (py "|") in
  let st := state_after e [ln "N:Doe;John;;;"] sample_initial_state in
  let line := ln "NOTE:see X-CUSTOM Nationality-=+=-Swiss" in
  is_standard_line e line = true ∧
  is_custom_line e line = true ∧
  (∃ st1 st2,
     standard_field line st = Ok st1 ∧
     custom_field e line st1 = Ok st2 ∧
     process_line e line st = Ok st2 ∧
     contact_dict st1 ≠ contact_dict st ∧
     contact_dict st2 ≠ contact_dict st1) ∧
  main [] (py "|") sample_standard sample_custom sample_social
    [ln "N:Doe;John;;;"; line; ln "END:VCARD"]
  = Ok [(0%nat, [(py "Last Name", py "Doe"); (py "First Name", py "John");
                 (py "Note", py "see X-CUSTOM Nationality-=+=-Swiss");
                 (py "Nationality", py "Swiss")])].
Proof.
  intros e st line.
  split; [reflexivity|]. split; [reflexivity|]. split.
  - eexists. eexists.
    split; [vm_compute; reflexivity|].
    split; [vm_compute; reflexivity|].
    split; [vm_compute; reflexivity|].
    split; vm_compute; discriminate.
  - vm_compute. reflexivity.
Qed.

(** ** The string model on small inputs *)

Example split_ex1 : PyStr.split (py "a,b,,c") (py ",") = [py "a"; py "b"; py ""; py "c"].
Proof. reflexivity. Qed.
Example split_ex2 : PyStr.split (py "x-=+=-y-=+=-") (py "-=+=-") = [py "x"; py "y"; py ""].
Proof. reflexivity. Qed.
Example split_ex3 : PyStr.split (py "") (py ":") = [py ""].
Proof. reflexivity. Qed.
Example replace_ex1 : PyStr.replace (py "a;;;b;c") (py ";;") (py ", ") = py "a, ;b;c".
Proof. reflexivity. Qed.
Example replace_ex2 : PyStr.replace (py "ab") [] (py "-") = py "-a-b-".
Proof. reflexivity. Qed.
Example slice_ex1 : PyStr.slice (py "19900615") (Some (-4)) (Some (-2)) = py "06".
Proof. reflexivity. Qed.
Example slice_ex2 : PyStr.slice (py "abc") (Some (-4)) (Some (-2)) = py "a".
Proof. reflexivity. Qed.
Example index_ex1 : PyStr.index [1%nat; 2%nat; 3%nat] (-1) = Ok 3%nat.
Proof. reflexivity. Qed.
Example index_ex2 : PyStr.index [1%nat; 2%nat; 3%nat] 3 = Raise IndexError.
Proof. reflexivity. Qed.
Example find_ex1 : PyStr.find (py "hello") (py "lo") = 3.
Proof. reflexivity. Qed.
Example str_ex1 : PyStr.str_of_nat 12 = py "12".
Proof. reflexivity. Qed.
Example re_split_ex1 :
  PyStr.re_split_colon_semicolon (py "ADR;TYPE=home:;;Main St") =
  [py "ADR"; py "TYPE=home"; py ""; py ""; py "Main St"].
Proof. reflexivity. Qed.
Example slice_ex3 : PyStr.slice (py "ab") (Some 2) (Some 4) = py "".
Proof. reflexivity. Qed.
Example contains_ex1 : PyStr.contains (py "item1.X-CUSTOM:a") (py "X-CUSTOM") = true.
Proof. reflexivity. Qed.

(** * The rest of the file: column letters and column order *)

(** ** Column letters *)

Lemma conversion_table_lookup (remainder : Z) :
  0 ≤ remainder < 26 →
  dict_getitem conversion_table remainder =
  if remainder =? 0 then Raise KeyError
  else Ok [Z.to_N (64 + remainder)].
Proof.
  intros H. rewrite <- (Z2Nat.id remainder) by lia.
  assert (Z.to_nat remainder < 26)%nat as Hn by lia.
  revert Hn. generalize (Z.to_nat remainder). intros n Hn.
  do 26 (destruct n as [|n]; [reflexivity|]). lia.
Qed.

Lemma excel_loop_stop (fuel : nat) (decimal : Z) (acc : str) :
  decimal ≤ 0 → excel_loop fuel decimal acc = Ok acc.
Proof.
  intros H. destruct fuel; simpl;
    (replace (0 <? decimal) with false by (symmetry; apply Z.ltb_ge; lia));
    reflexivity.
Qed.

Lemma excel_loop_step (fuel : nat) (decimal : Z) (acc : str) :
  0 < decimal →
  excel_loop (S fuel) decimal acc =
  dict_getitem conversion_table (decimal mod 26) ≫= λ letter,
    excel_loop fuel (decimal / 26) (letter ++ acc).
Proof.
  intros H. simpl.
  replace (0 <? decimal) with true by (symmetry; apply Z.ltb_lt; lia).
  reflexivity.
Qed.

(** More fuel than [Z.to_nat decimal] changes nothing: the loop has
    stopped by then. *)
Lemma excel_loop_fuel (fuel : nat) (decimal : Z) (acc : str) :
  (Z.to_nat decimal ≤ fuel)%nat →
  excel_loop fuel decimal acc = excel_loop (Z.to_nat decimal) decimal acc.
Proof.
  revert decimal acc.
  induction fuel as [fuel IH] using lt_wf_ind. intros decimal acc Hfuel.
  destruct (Z.le_gt_cases decimal 0) as [Hle|Hgt].
  { by rewrite !excel_loop_stop. }
  destruct fuel as [|fuel]; [lia|].
  destruct (Z.to_nat decimal) as [|n] eqn:Hn; [lia|].
  rewrite !excel_loop_step by lia.
  destruct (dict_getitem conversion_table (decimal mod 26)) as [letter|x];
    [|reflexivity].
  cbn [mbind result_bind].
  assert (decimal / 26 < decimal) by (apply Z.div_lt; lia).
  assert (0 ≤ decimal / 26) by (apply Z.div_pos; lia).
  rewrite (IH fuel), (IH n); [reflexivity | lia..].
Qed.

(** The loop equation of [decimalToExcelBase26], with the accumulator. *)
Lemma excel_loop_unfold (decimal : Z) (acc : str) :
  excel_loop (Z.to_nat decimal) decimal acc =
  if 0 <? decimal then
    dict_getitem conversion_table (decimal mod 26) ≫= λ letter,
      excel_loop (Z.to_nat (decimal / 26)) (decimal / 26) (letter ++ acc)
  else Ok acc.
Proof.
  destruct (Z.ltb_spec 0 decimal) as [Hgt|Hle].
  - destruct (Z.to_nat decimal) as [|n] eqn:Hn; [lia|].
    rewrite excel_loop_step by lia.
    destruct (dict_getitem conversion_table (decimal mod 26)); [|reflexivity].
    cbn [mbind result_bind]. apply excel_loop_fuel.
    assert (decimal / 26 < decimal) by (apply Z.div_lt; lia). lia.
  - by apply excel_loop_stop.
Qed.

Lemma excel_column_number_app (pre post : str) :
  excel_column_number (pre ++ post) =
  fold_left (λ number letter, number * 26 + (Z.of_N letter - 64)) post
    (excel_column_number pre).
Proof. unfold excel_column_number. apply fold_left_app. Qed.

(** What the loop returns, when it returns: letters [A] to [Y] put in
    front of the accumulator, which spell [decimal] in base 26. *)
Lemma excel_loop_Ok (decimal : Z) (acc s : str) :
  0 ≤ decimal →
  excel_loop (Z.to_nat decimal) decimal acc = Ok s →
  ∃ pre, s = pre ++ acc ∧
         excel_column_number pre = decimal ∧
         Forall (λ letter, (65 ≤ letter ≤ 89)%N) pre.
Proof.
  intros Hpos.
  assert (Hind : ∀ (n : nat) (d : Z), (Z.to_nat d ≤ n)%nat → 0 ≤ d →
    ∀ acc s, excel_loop (Z.to_nat d) d acc = Ok s →
    ∃ pre, s = pre ++ acc ∧ excel_column_number pre = d ∧
           Forall (λ letter, (65 ≤ letter ≤ 89)%N) pre).
  { clear. induction n as [|n IH]; intros d Hn Hd acc s H;
      rewrite excel_loop_unfold in H;
      destruct (Z.ltb_spec 0 d) as [Hgt|Hle]; try lia.
    - injection H as <-. exists []. split; [done|]. split; [|constructor].
      unfold excel_column_number. simpl. lia.
    - pose proof (Z.mod_pos_bound d 26 ltac:(lia)) as Hmod.
      rewrite conversion_table_lookup in H by lia.
      destruct (Z.eqb_spec (d mod 26) 0) as [Hz|Hnz]; [discriminate|].
      cbn [mbind result_bind] in H.
      assert (d / 26 < d) by (apply Z.div_lt; lia).
      assert (0 ≤ d / 26) by (apply Z.div_pos; lia).
      apply IH in H as (pre & -> & Hnum & Hall); [|lia..].
      exists (pre ++ [Z.to_N (64 + d mod 26)]).
      split; [by rewrite <- app_assoc|]. split.
      + rewrite excel_column_number_app, Hnum. simpl.
        rewrite Z2N.id by lia.
        rewrite (Z.div_mod d 26) at 3 by lia. lia.
      + apply Forall_app. split; [done|]. constructor; [lia | constructor].
    - injection H as <-. exists []. split; [done|]. split; [|constructor].
      unfold excel_column_number. simpl. lia. }
  intros H. by eapply (Hind (Z.to_nat decimal)).
Qed.

(** When the loop raises: some base-26 digit of [decimal] is zero. *)
Lemma excel_loop_Raise (decimal : Z) (acc : str) :
  (∃ k : nat, 0 < decimal / 26 ^ Z.of_nat k ∧
              (decimal / 26 ^ Z.of_nat k) mod 26 = 0) ↔
  excel_loop (Z.to_nat decimal) decimal acc = Raise KeyError.
Proof.
  assert (Hind : ∀ (n : nat) (d : Z), (Z.to_nat d ≤ n)%nat →
    ∀ acc,
    (∃ k : nat, 0 < d / 26 ^ Z.of_nat k ∧ (d / 26 ^ Z.of_nat k) mod 26 = 0) ↔
    excel_loop (Z.to_nat d) d acc = Raise KeyError).
  { clear. induction n as [|n IH]; intros d Hn acc;
      rewrite excel_loop_unfold;
      destruct (Z.ltb_spec 0 d) as [Hgt|Hle]; try lia.
    - split; [|discriminate]. intros (k & Hk & _).
      assert (d / 26 ^ Z.of_nat k ≤ 0); [|lia].
      apply Z.div_le_upper_bound; lia.
    - pose proof (Z.mod_pos_bound d 26 ltac:(lia)) as Hmod.
      rewrite conversion_table_lookup by lia.
      assert (d / 26 < d) by (apply Z.div_lt; lia).
      assert (0 ≤ d / 26) by (apply Z.div_pos; lia).
      assert (Hshift : ∀ k : nat,
        d / 26 ^ Z.of_nat (S k) = d / 26 / 26 ^ Z.of_nat k).
      { intros k. rewrite Nat2Z.inj_succ, Z.pow_succ_r by lia.
        rewrite Z.div_div by lia. reflexivity. }
      destruct (Z.eqb_spec (d mod 26) 0) as [Hz|Hnz].
      + split; [reflexivity|]. intros _. exists 0%nat.
        rewrite Z.pow_0_r, Z.div_1_r. done.
      + cbn [mbind result_bind]. rewrite <- (IH (d / 26)) by lia. split.
        * intros ([|k] & Hk & Hk0).
          { rewrite Z.pow_0_r, Z.div_1_r in Hk0. done. }
          exists k. by rewrite <- Hshift.
        * intros (k & Hk & Hk0). exists (S k). by rewrite Hshift.
    - split; [|discriminate]. intros (k & Hk & _).
      assert (d / 26 ^ Z.of_nat k ≤ 0); [|lia].
      apply Z.div_le_upper_bound; lia. }
  by apply (Hind (Z.to_nat decimal)).
Qed.

(** ** Column order *)

Lemma drop_lookup_cons {A} (l : list A) (i : nat) (x : A) :
  l !! i = Some x → drop i l = x :: drop (S i) l.
Proof.
  revert i. induction l as [|y l IH]; intros [|i] H; simplify_eq/=; [done|].
  by apply IH.
Qed.

(** The inner loop appends a run of consecutive columns, each of which
    contains [col]. *)
Lemma merge_inner_loop_run (fuel : nat) (l : list str) (col : str) (i : nat)
    (acc : list str) (i' : nat) (acc' : list str) :
  merge_inner_loop fuel l col i acc = (i', acc') →
  (i ≤ i')%nat ∧
  acc' = acc ++ take (i' - i) (drop i l) ∧
  drop i l = take (i' - i) (drop i l) ++ drop i' l ∧
  Forall (λ x, PyStr.contains x col = true) (take (i' - i) (drop i l)).
Proof.
  revert i acc. induction fuel as [|fuel IH]; intros i acc H; simpl in H.
  - injection H as <- <-. rewrite Nat.sub_diag. simpl.
    by rewrite app_nil_r.
  - destruct (l !! i) as [x|] eqn:Hx.
    + destruct (PyStr.contains x col) eqn:Hc.
      * apply IH in H as (Hle & -> & Hdrop & Hall).
        rewrite (drop_lookup_cons l i x Hx).
        replace (i' - i)%nat with (S (i' - (i + 1))) by lia.
        replace (S i) with (i + 1)%nat by lia. simpl.
        split; [lia|]. split; [by rewrite <- app_assoc|].
        split; [by rewrite <- Hdrop|]. by constructor.
      * injection H as <- <-. rewrite Nat.sub_diag. simpl.
        by rewrite app_nil_r.
    + injection H as <- <-. rewrite Nat.sub_diag. simpl.
      by rewrite app_nil_r.
Qed.

(** The outer loop appends columns in the order of the list, each at
    most once. *)
Lemma merge_loop_sublist (fuel : nat) (l : list str) (i : nat) (acc : list str) :
  ∃ r, merge_loop fuel l i acc = acc ++ r ∧ r `sublist_of` drop i l.
Proof.
  revert i acc. induction fuel as [|fuel IH]; intros i acc; simpl.
  { exists []. split; [by rewrite app_nil_r | apply sublist_nil_l]. }
  destruct (Z.of_nat i <? Z.of_nat (length l) - 1);
    [|exists []; split; [by rewrite app_nil_r | apply sublist_nil_l]].
  destruct (l !! i) as [col|] eqn:Hcol;
    [|exists []; split; [by rewrite app_nil_r | apply sublist_nil_l]].
  destruct (l !! (i + 1)%nat) as [col_next|] eqn:Hnext;
    [|exists []; split; [by rewrite app_nil_r | apply sublist_nil_l]].
  rewrite (drop_lookup_cons l i col Hcol).
  replace (S i) with (i + 1)%nat by lia.
  destruct (PyStr.startswith col_next col).
  - destruct (merge_inner_loop (length l) l col (i + 2) (acc ++ [col_next]))
      as [i' acc'] eqn:Hinner.
    apply merge_inner_loop_run in Hinner as (Hle & -> & Hdrop & _).
    destruct (IH i' ((acc ++ [col_next]) ++ take (i' - (i + 2)) (drop (i + 2) l)))
      as (r & -> & Hr).
    exists (col_next :: take (i' - (i + 2)) (drop (i + 2) l) ++ r).
    split; [by rewrite <- !app_assoc|].
    rewrite (drop_lookup_cons l (i + 1) col_next Hnext).
    replace (S (i + 1)) with (i + 2)%nat by lia.
    apply sublist_cons, sublist_skip.
    set (run := take (i' - (i + 2)) (drop (i + 2) l)) in *.
    rewrite Hdrop. by apply sublist_app.
  - destruct (IH (i + 1)%nat (acc ++ [col])) as (r & -> & Hr).
    exists (col :: r). split; [by rewrite <- app_assoc|].
    by apply sublist_skip.
Qed.

Lemma merge_duplicated_columns_sublist (l : list str) :
  merge_duplicated_columns l `sublist_of` l.
Proof.
  unfold merge_duplicated_columns.
  destruct (merge_loop_sublist (length l) l 0 []) as (r & -> & Hr). done.
Qed.

(** Without a column that begins with its predecessor, every column but
    the last is kept. *)
Lemma merge_loop_no_prefix (fuel : nat) (l : list str) (i : nat) (acc : list str) :
  (∀ j col col_next, l !! j = Some col → l !! S j = Some col_next →
     PyStr.startswith col_next col = false) →
  (length l - i ≤ fuel)%nat →
  merge_loop fuel l i acc = acc ++ removelast (drop i l).
Proof.
  intros Hno. revert i acc. induction fuel as [|fuel IH]; intros i acc Hfuel.
  { simpl. rewrite drop_ge by lia. by rewrite app_nil_r. }
  simpl. destruct (Z.ltb_spec (Z.of_nat i) (Z.of_nat (length l) - 1)) as [Hlt|Hge].
  - destruct (lookup_lt_is_Some_2 l i ltac:(lia)) as [col Hcol].
    destruct (lookup_lt_is_Some_2 l (i + 1) ltac:(lia)) as [col_next Hnext].
    rewrite Hcol, Hnext.
    rewrite (Hno i col col_next Hcol)
      by (by replace (S i) with (i + 1)%nat by lia).
    rewrite IH by lia. rewrite (drop_lookup_cons l i col Hcol).
    replace (S i) with (i + 1)%nat by lia.
    rewrite (drop_lookup_cons l (i + 1) col_next Hnext).
    simpl. by rewrite <- app_assoc.
  - destruct (drop i l) as [|x [|y r]] eqn:Hdrop; simpl;
      try by rewrite app_nil_r.
    apply (f_equal length) in Hdrop. rewrite length_drop in Hdrop.
    simpl in Hdrop. lia.
Qed.

(** A bare column followed only by columns that contain its name. *)
Lemma merge_inner_loop_all (fuel : nat) (l : list str) (col : str) (i : nat)
    (acc : list str) :
  Forall (λ x, PyStr.contains x col = true) (drop i l) →
  (i ≤ length l)%nat → (length l - i ≤ fuel)%nat →
  merge_inner_loop fuel l col i acc = (length l, acc ++ drop i l).
Proof.
  revert i acc. induction fuel as [|fuel IH]; intros i acc Hall Hi Hfuel.
  { simpl. replace i with (length l) by lia.
    by rewrite drop_all, app_nil_r. }
  simpl. destruct (l !! i) as [x|] eqn:Hx.
  - rewrite (drop_lookup_cons l i x Hx) in Hall |- *.
    apply Forall_cons in Hall as [-> Hall].
    apply lookup_lt_Some in Hx.
    replace (S i) with (i + 1)%nat in * by lia.
    rewrite IH; [by rewrite <- app_assoc | done | lia..].
  - apply lookup_ge_None in Hx. replace i with (length l) by lia.
    by rewrite drop_all, app_nil_r.
Qed.

Lemma startswith_contains (s sub : str) :
  PyStr.startswith s sub = true → PyStr.contains s sub = true.
Proof. intros H. destruct s; simpl; by rewrite H. Qed.

Lemma elem_of_take_drop {A} (l : list A) (i k : nat) (y : A) :
  y ∈ take k (drop i l) → ∃ j, (i ≤ j)%nat ∧ l !! j = Some y.
Proof.
  intros [j Hj]%list_elem_of_lookup.
  apply lookup_take_Some in Hj as [Hj _]. rewrite lookup_drop in Hj.
  exists (i + j)%nat. split; [lia | done].
Qed.

Lemma merge_loop_kept (fuel : nat) (l : list str) (i : nat) (acc : list str) :
  Forall (kept_for l) acc → Forall (kept_for l) (merge_loop fuel l i acc).
Proof.
  revert i acc. induction fuel as [|fuel IH]; intros i acc Hacc; simpl; [done|].
  destruct (Z.ltb_spec (Z.of_nat i) (Z.of_nat (length l) - 1)) as [Hlt|Hge];
    [|done].
  destruct (l !! i) as [col|] eqn:Hcol; [|done].
  destruct (l !! (i + 1)%nat) as [col_next|] eqn:Hnext; [|done].
  destruct (PyStr.startswith col_next col) eqn:Hpre.
  - destruct (merge_inner_loop (length l) l col (i + 2) (acc ++ [col_next]))
      as [i' acc'] eqn:Hinner.
    apply merge_inner_loop_run in Hinner as (Hle & -> & _ & Hall).
    apply IH. apply Forall_app. split; [apply Forall_app; split|].
    + done.
    + constructor; [|constructor]. right. exists i, (i + 1)%nat, col.
      split; [lia|]. split; [done|]. split; [done|].
      by apply startswith_contains.
    + apply Forall_forall. intros y Hy.
      pose proof Hy as (j' & Hj' & Hlook)%elem_of_take_drop.
      rewrite Forall_forall in Hall. right. exists i, j', col.
      split; [lia|]. split; [done|]. split; [done|]. by apply Hall.
  - apply IH. apply Forall_app. split; [done|].
    constructor; [|constructor]. left. exists i. split; [lia | done].
Qed.

Lemma sorted_insert_perm (x : str) (l : list str) : sorted_insert x l ≡ₚ x :: l.
Proof.
  induction l as [|y l IH]; simpl; [done|].
  destruct (str_leb x y); [done|]. rewrite IH. apply Permutation_swap.
Qed.

Lemma sorted_perm (l : list str) : sorted l ≡ₚ l.
Proof.
  induction l as [|x l IH]; simpl; [done|].
  unfold sorted in *. simpl. by rewrite sorted_insert_perm, IH.
Qed.

Lemma list_index_app_l (l1 l2 : list str) (x : str) :
  x ∈ l1 → list_index (l1 ++ l2) x = list_index l1 x.
Proof.
  induction l1 as [|y l1 IH]; simpl; intros Hx.
  - by apply elem_of_nil in Hx.
  - destruct (decide (y = x)); [done|].
    apply elem_of_cons in Hx as [->|Hx]; [done|]. by rewrite IH.
Qed.

Lemma list_index_elem_of (l : list str) (x : str) :
  x ∈ l → ∃ i, list_index l x = Some i ∧ (i < length l)%nat.
Proof.
  induction l as [|y l IH]; simpl; intros Hx.
  - by apply elem_of_nil in Hx.
  - destruct (decide (y = x)) as [|Hne]; [exists 0%nat; split; [done|lia]|].
    apply elem_of_cons in Hx as [->|Hx]; [done|].
    destruct (IH Hx) as (i & -> & Hi). exists (S i). split; [done | lia].
Qed.

(** X1: when [decimalToExcelBase26] returns, the letters it returns are
    among [A] to [Y] and, read as an Excel column name, give back the
    number it was called with (0 for a number that is not positive). *)
Theorem decimalToExcelBase26_round_trip (decimal : Z) (name : str) :
  decimalToExcelBase26 decimal = Ok name →
  excel_column_number name = Z.max decimal 0 ∧
  Forall (λ letter, (65 ≤ letter ≤ 89)%N) name.
Proof.
  unfold decimalToExcelBase26. intros H.
  destruct (Z.le_gt_cases 0 decimal) as [Hpos|Hneg].
  - apply excel_loop_Ok in H as (pre & -> & Hnum & Hall); [|done].
    rewrite app_nil_r. split; [lia | done].
  - rewrite excel_loop_stop in H by lia. injection H as <-.
    split; [|constructor]. unfold excel_column_number. simpl. lia.
Qed.

Lemma decimalToExcelBase26_round_trip_witness :
  decimalToExcelBase26 53 = Ok (py "BA") ∧
  excel_column_number (py "BA") = 53.
Proof.
  assert (H : decimalToExcelBase26 53 = Ok (py "BA")) by reflexivity.
  split; [exact H|].
  destruct (decimalToExcelBase26_round_trip 53 (py "BA") H) as [Hnum _].
  exact Hnum.
Defined.

(** X2: [decimalToExcelBase26] raises [KeyError] exactly when a base-26
    digit of its positive argument is zero, in particular for every
    positive multiple of 26 (column 26 has no letter: the table is
    looked up at remainder 0); for an argument that is not positive it
    returns the empty string. *)
Theorem decimalToExcelBase26_KeyError (decimal : Z) :
  (decimalToExcelBase26 decimal = Raise KeyError ↔
   ∃ k : nat, 0 < decimal / 26 ^ Z.of_nat k ∧
              (decimal / 26 ^ Z.of_nat k) mod 26 = 0) ∧
  (0 < decimal → decimal mod 26 = 0 →
   decimalToExcelBase26 decimal = Raise KeyError) ∧
  (decimal ≤ 0 → decimalToExcelBase26 decimal = Ok []).
Proof.
  split; [|split].
  - symmetry. apply excel_loop_Raise.
  - intros Hpos Hmod. apply excel_loop_Raise. exists 0%nat.
    by rewrite Z.pow_0_r, Z.div_1_r.
  - intros Hle. by apply excel_loop_stop.
Qed.

Lemma decimalToExcelBase26_KeyError_witness :
  decimalToExcelBase26 26 = Raise KeyError ∧
  decimalToExcelBase26 0 = Ok [].
Proof.
  destruct (decimalToExcelBase26_KeyError 26) as (_ & H26 & _).
  destruct (decimalToExcelBase26_KeyError 0) as (_ & _ & H0).
  split; [apply H26; [lia | reflexivity] | apply H0; lia].
Defined.

Lemma order_columns_elem_of (column_list : list str) (x : str) :
  x ∈ order_columns column_list → x ∈ column_list.
Proof.
  unfold order_columns. intros [Hx|Hx]%elem_of_app.
  - by apply list_elem_of_filter in Hx as [Hx _].
  - pose proof (elem_of_sublist _ _ _ Hx
        (merge_duplicated_columns_sublist _)) as Hx'.
    rewrite sorted_perm in Hx'.
    by apply list_elem_of_filter in Hx' as [_ Hx'].
Qed.

(** X3: lines 578-579 for the picture column [Picture]. When that
    column exists, line 578 finds its position in the reordered column
    list and [photo_col_idx] is between 2 and 14, whatever the other
    columns are: [Picture] is one of the thirteen leading columns. On
    that number the call of [decimalToExcelBase26] on line 579 returns,
    and returns the single letter of that rank, [B] to [N]. Nothing is
    said here of the statements of [main] that come before line 578. *)
Theorem photo_col_idx_picture (column_list : list str) :
  py "Picture" ∈ column_list →
  ∃ (idx : Z) (letter : N),
    photo_col_idx (order_columns column_list) (py "Picture") = Some idx ∧
    2 ≤ idx ≤ 14 ∧
    decimalToExcelBase26 idx = Ok [letter] ∧
    Z.of_N letter = idx + 64.
Proof.
  intros Hin. unfold photo_col_idx.
  set (first := filter (λ col, col ∈ column_list) first_columns_list).
  assert (Hfirst : py "Picture" ∈ first).
  { apply list_elem_of_filter. split; [done|].
    unfold first_columns_list.
    repeat first [apply list_elem_of_here | apply list_elem_of_further]. }
  unfold order_columns. fold first.
  rewrite list_index_app_l by done.
  destruct (list_index_elem_of _ _ Hfirst) as (i & -> & Hi).
  assert (i < 13)%nat as Hi13.
  { pose proof (length_filter (λ col, col ∈ column_list) first_columns_list).
    fold first in H.
    change (length first_columns_list) with 13%nat in H.
    clearbody first. lia. }
  clear -Hi13. cbn [mbind option_bind].
  do 13 (destruct i as [|i];
         [eexists _, _; split; [reflexivity|];
          split; [lia|]; split; [vm_compute; reflexivity | reflexivity]|]).
  lia.
Qed.

Lemma photo_col_idx_picture_witness :
  photo_col_idx
    (order_columns [py "Last Name"; py "Email"; py "Picture"; py "Note"])
    (py "Picture") = Some 4 ∧
  decimalToExcelBase26 4 = Ok (py "D").
Proof.
  destruct (photo_col_idx_picture
              [py "Last Name"; py "Email"; py "Picture"; py "Note"])
    as (idx & letter & Hidx & _ & Hletter & _).
  { repeat first [apply list_elem_of_here | apply list_elem_of_further]. }
  vm_compute in Hidx. injection Hidx as <-.
  split; reflexivity.
Defined.

(** X4: for columns without duplicates, the reordered column list has
    no duplicates, names only columns that exist, and keeps every one of
    the thirteen leading columns that exists; the other columns come in
    sorted order, each at most once. *)
Theorem order_columns_sound (column_list : list str) :
  NoDup column_list →
  NoDup (order_columns column_list) ∧
  (∀ x, x ∈ order_columns column_list → x ∈ column_list) ∧
  (∀ x, x ∈ first_columns_list → x ∈ column_list →
        x ∈ order_columns column_list) ∧
  merge_duplicated_columns
    (sorted (filter (λ x, x ∉ filter (λ col, col ∈ column_list) first_columns_list)
               column_list))
  `sublist_of`
  sorted (filter (λ x, x ∉ filter (λ col, col ∈ column_list) first_columns_list)
            column_list).
Proof.
  intros Hnd. split; [|split; [|split]].
  - unfold order_columns. apply NoDup_app. split; [|split].
    + apply NoDup_filter. apply (bool_decide_unpack _). by vm_compute.
    + intros x Hx Hx'.
      pose proof (elem_of_sublist _ _ _ Hx'
        (merge_duplicated_columns_sublist _)) as Hs.
      rewrite sorted_perm in Hs.
      by apply list_elem_of_filter in Hs as [Hs _].
    + eapply sublist_NoDup; [|apply merge_duplicated_columns_sublist].
      rewrite sorted_perm. by apply NoDup_filter.
  - apply order_columns_elem_of.
  - intros x Hfirst Hin. unfold order_columns. apply elem_of_app. left.
    by apply list_elem_of_filter.
  - apply merge_duplicated_columns_sublist.
Qed.

Lemma order_columns_sound_witness :
  NoDup (order_columns [py "Last Name"; py "Email"; py "Address";
                        py "Email_1"; py "Picture"]) ∧
  order_columns [py "Last Name"; py "Email"; py "Address";
                 py "Email_1"; py "Picture"]
  = [py "Last Name"; py "Picture"; py "Address"; py "Email_1"].
Proof.
  destruct (order_columns_sound
              [py "Last Name"; py "Email"; py "Address"; py "Email_1";
               py "Picture"]) as [Hnd _].
  - apply (bool_decide_unpack _). by vm_compute.
  - split; [exact Hnd | by vm_compute].
Defined.

(** X5: when no remaining column begins with the name of the column
    sorted just before it, the merge loop keeps every remaining column
    but the last in sorted order, which it leaves out: the loop stops one
    short of the end of the list. *)
Theorem merge_duplicated_columns_no_prefix (last_columns_diff : list str) :
  (∀ j col col_next,
     last_columns_diff !! j = Some col →
     last_columns_diff !! S j = Some col_next →
     PyStr.startswith col_next col = false) →
  merge_duplicated_columns last_columns_diff = removelast last_columns_diff.
Proof.
  intros Hno. unfold merge_duplicated_columns.
  rewrite merge_loop_no_prefix by (done || lia). done.
Qed.

Lemma merge_duplicated_columns_no_prefix_witness :
  merge_duplicated_columns [py "Address"; py "Email"; py "Phone"]
  = [py "Address"; py "Email"] ∧
  order_columns [py "Last Name"; py "Email"] = [py "Last Name"].
Proof.
  split; [|by vm_compute].
  rewrite merge_duplicated_columns_no_prefix; [reflexivity|].
  intros [|[|[|j]]] col col_next Hcol Hnext; simplify_eq/=; reflexivity.
Defined.

Lemma merge_loop_end (fuel : nat) (l : list str) (i : nat) (acc : list str) :
  (length l ≤ i + 1)%nat → merge_loop fuel l i acc = acc.
Proof.
  intros Hi. destruct fuel; simpl; [done|].
  replace (Z.of_nat i <? Z.of_nat (length l) - 1) with false
    by (symmetry; apply Z.ltb_ge; lia).
  done.
Qed.

Lemma merge_loop_merge (fuel : nat) (l : list str) (i : nat) (acc : list str)
    (col col_next : str) :
  l !! i = Some col → l !! (i + 1)%nat = Some col_next →
  PyStr.startswith col_next col = true →
  merge_loop (S fuel) l i acc =
  merge_loop fuel l
    (merge_inner_loop (length l) l col (i + 2) (acc ++ [col_next])).1
    (merge_inner_loop (length l) l col (i + 2) (acc ++ [col_next])).2.
Proof.
  intros Hcol Hnext Hpre. simpl.
  apply lookup_lt_Some in Hnext as Hlen.
  replace (Z.of_nat i <? Z.of_nat (length l) - 1) with true
    by (symmetry; apply Z.ltb_lt; lia).
  rewrite Hcol, Hnext, Hpre.
  by destruct (merge_inner_loop _ _ _ _ _).
Qed.

(** X6: a bare column followed by a column that begins with its name,
    and then only by columns that contain its name (as [Email],
    [Email_1], [Email_2]), is merged away: the result is the list of the
    suffixed columns. *)
Theorem merge_duplicated_columns_group (col col_next : str) (variants : list str) :
  PyStr.startswith col_next col = true →
  Forall (λ x, PyStr.contains x col = true) variants →
  merge_duplicated_columns (col :: col_next :: variants) = col_next :: variants.
Proof.
  intros Hpre Hall. unfold merge_duplicated_columns.
  set (l := col :: col_next :: variants).
  change (length l) with (S (S (length variants))) at 1.
  rewrite (merge_loop_merge _ l 0 [] col col_next) by done.
  rewrite (merge_inner_loop_all (length l) l col (0 + 2) ([] ++ [col_next]));
    [|done | simpl; lia | simpl; lia].
  cbn [fst snd]. by rewrite merge_loop_end by lia.
Qed.

Lemma merge_duplicated_columns_group_witness :
  merge_duplicated_columns [py "Email"; py "Email_1"; py "Email_2"; py "Email_3"]
  = [py "Email_1"; py "Email_2"; py "Email_3"].
Proof.
  apply merge_duplicated_columns_group; [reflexivity|].
  repeat constructor.
Defined.

(** X7: the last remaining column in sorted order is left out of the
    result whenever no other remaining column is a substring of its
    name. *)
Theorem merge_duplicated_columns_drops_last (last_columns_diff : list str)
    (z : str) :
  NoDup last_columns_diff →
  last last_columns_diff = Some z →
  (∀ x, x ∈ last_columns_diff → x ≠ z → PyStr.contains z x = false) →
  z ∉ merge_duplicated_columns last_columns_diff.
Proof.
  intros Hnd Hlast Hno Hin.
  assert (Hkept : Forall (kept_for last_columns_diff)
                    (merge_duplicated_columns last_columns_diff)).
  { apply merge_loop_kept. constructor. }
  rewrite Forall_forall in Hkept.
  rewrite last_lookup in Hlast.
  destruct (Hkept z Hin) as [(j & Hj & Hz) | (j & j' & col & Hjj & Hcol & Hz & Hc)].
  - pose proof (NoDup_lookup _ _ _ _ Hnd Hz Hlast). lia.
  - rewrite Hno in Hc; [done | | ].
    + apply list_elem_of_lookup. eauto.
    + intros ->. pose proof (NoDup_lookup _ _ _ _ Hnd Hz Hcol). lia.
Qed.

Lemma merge_duplicated_columns_drops_last_witness :
  (py "Phone" ∉ merge_duplicated_columns
                 [py "Email"; py "Email_1"; py "Email_2"; py "Phone"]) ∧
  merge_duplicated_columns [py "Email"; py "Email_1"; py "Email_2"; py "Phone"]
  = [py "Email_1"; py "Email_2"].
Proof.
  split; [|by vm_compute].
  apply merge_duplicated_columns_drops_last.
  - apply (bool_decide_unpack _). by vm_compute.
  - reflexivity.
  - intros x Hx Hne.
    repeat (apply elem_of_cons in Hx as [->|Hx]; [try done; by vm_compute|]).
    by apply elem_of_nil in Hx.
Defined.

(** * More of the line loop *)

(** ** Lines outside a record *)

Lemma process_line_idle (e : env) (line : str) (st : state) :
  listening_to_data st = false →
  PyStr.startswith line BEGIN_SYMBOL = false →
  process_line e line st = Ok st.
Proof.
  intros Hl Hb. unfold process_line. rewrite Hb, Hl, andb_false_r.
  cbn [mbind result_bind]. by rewrite Hl.
Qed.

Lemma run_idle (e : env) (vcf : list str) (st : state) :
  listening_to_data st = false →
  Forall (λ line, PyStr.startswith line BEGIN_SYMBOL = false) vcf →
  run e vcf st = Ok st.
Proof.
  intros Hl Hall. induction Hall as [|line vcf Hline _ IH]; simpl; [done|].
  rewrite process_line_idle by done. exact IH.
Qed.

(** X8: an input without a line that begins with [N:] gives an empty
    store and raises nothing, whatever its lines are. *)
Theorem no_record_start_no_contact (tags : list str) (op : str)
    (std cus soc : table) (vcf : list str) :
  Forall (λ line, PyStr.startswith line BEGIN_SYMBOL = false) vcf →
  main tags op std cus soc vcf = Ok [].
Proof.
  intros Hall. unfold main. by rewrite run_idle.
Qed.

Lemma no_record_start_no_contact_witness :
  main [] (py "|") sample_standard sample_custom sample_social
    [ln "BEGIN:VCARD"; ln "VERSION:3.0"; ln "EMAIL:a@x.org"; ln " n folded";
     ln "END:VCARD"; ln ""] = Ok [].
Proof.
  apply no_record_start_no_contact. repeat constructor.
Defined.

(** ** An operator that is neither [&] nor [|] *)

Lemma end_record_unknown_operator (e : env) (st : state) (fl : flow) :
  tag_list e ≠ [] → logic_op e ≠ py "&" → logic_op e ≠ py "|" →
  end_record e st = Ok fl →
  fl = Continue (stop_listening st) ∨ fl = FallThrough st.
Proof.
  intros Ht Hand Hor. unfold end_record. rewrite tag_list_nonempty by done.
  intros H. destruct (negb _); [injection H as <-; auto|].
  apply bind_Ok in H as (entry & _ & H).
  apply bind_Ok in H as (tags & _ & H). cbv beta zeta in H.
  rewrite !bool_decide_eq_false_2 in H by done. injection H as <-. auto.
Qed.

Lemma process_line_unknown_operator (e : env) (line : str) (st st' : state) :
  tag_list e ≠ [] → logic_op e ≠ py "&" → logic_op e ≠ py "|" →
  process_line e line st = Ok st' → same_store st st'.
Proof.
  intros Ht Hand Hor H. unfold process_line in H.
  destruct (PyStr.startswith line BEGIN_SYMBOL) eqn:Hb.
  - rewrite (begin_not_end _ Hb) in H. simpl in H.
    apply listening_block_store in H.
    destruct H as [H1 H2]. split; [rewrite H1 | rewrite H2]; reflexivity.
  - destruct (PyStr.startswith line END_SYMBOL && listening_to_data st) eqn:Hc.
    + apply andb_true_iff in Hc as [_ Hl].
      apply bind_Ok in H as (fl & Hfl & H).
      apply end_record_unknown_operator in Hfl as [-> | ->]; try done.
      * by injection H as <-.
      * rewrite Hl in H. by apply listening_block_store in H.
    + cbn [mbind result_bind] in H.
      destruct (listening_to_data st).
      * by apply listening_block_store in H.
      * by injection H as <-.
Qed.

(** X9: with tags requested and an operator that is neither [&] nor
    [|], no record is ever stored: a run that returns, returns an empty
    store. *)
Theorem unknown_operator_empty_store (tags : list str) (op : str)
    (std cus soc : table) (vcf : list str) (store : list (nat * contact)) :
  tags ≠ [] → op ≠ py "&" → op ≠ py "|" →
  main tags op std cus soc vcf = Ok store → store = [].
Proof.
  intros Ht Hand Hor. unfold main. intros H.
  apply bind_Ok in H as (st & Hrun & H). injection H as <-.
  assert (Hinv : ∀ vcf s s', run (make_env tags op std cus soc) vcf s = Ok s' →
                             same_store s s').
  { clear -Ht Hand Hor. induction vcf as [|line vcf IH]; intros s s' H.
    - by injection H as <-.
    - apply run_cons_Ok in H as (s1 & H1 & H).
      apply process_line_unknown_operator in H1; [|done..].
      eapply same_store_trans; eauto. }
  by destruct (Hinv _ _ _ Hrun) as [-> _].
Qed.

Lemma unknown_operator_empty_store_witness :
  main [py "X"] (py "and") sample_standard sample_custom sample_social
    [ln "N:Doe;John;;;"; ln "CATEGORIES:X"; ln "END:VCARD"] = Ok [].
Proof.
  assert (H : ∃ store,
    main [py "X"] (py "and") sample_standard sample_custom sample_social
      [ln "N:Doe;John;;;"; ln "CATEGORIES:X"; ln "END:VCARD"] = Ok store).
  { eexists. vm_compute. reflexivity. }
  destruct H as [store H]. rewrite H. f_equal.
  by apply (unknown_operator_empty_store [py "X"] (py "and")
              sample_standard sample_custom sample_social
              [ln "N:Doe;John;;;"; ln "CATEGORIES:X"; ln "END:VCARD"]).
Defined.

(** ** Lines that no branch takes *)

(** X10: inside a record, a line that is no marker, begins with no
    built-in key, is no custom and no social line, and is no folded line
    (the previous key cannot fold, or the line does not begin with a
    space) leaves the whole state unchanged. *)
Theorem unrecognized_line_ignored (e : env) (line : str) (st : state) :
  listening_to_data st = true →
  PyStr.startswith line BEGIN_SYMBOL = false →
  PyStr.startswith line END_SYMBOL = false →
  is_standard_line e line = false →
  is_custom_line e line = false →
  is_social_line e line = false →
  may_fold e (key_previous st) = false ∨
    (∃ c rest, line = c :: rest ∧ c ≠ SPACE) →
  process_line e line st = Ok st.
Proof.
  intros Hl Hb He Hs Hc Hp Hfold. unfold process_line.
  rewrite Hb, He. cbn [andb mbind result_bind]. rewrite Hl.
  unfold listening_block. rewrite Hb, Hs, Hc, Hp.
  cbn [mbind result_bind]. unfold is_unfinished.
  destruct Hfold as [-> | (c & rest & -> & Hne)]; [done|].
  destruct (may_fold e (key_previous st)); [|done].
  rewrite (index_at (c :: rest) 0 0) by reflexivity.
  cbn [lookup list_lookup mbind result_bind].
  by rewrite bool_decide_eq_false_2.
Qed.

Lemma unrecognized_line_ignored_witness :
  let e := sample_env [] (py "|") in
  let st := state_after e [ln "N:Doe;John;;;"; ln "NOTE:Hello"]
              sample_initial_state in
  process_line e (ln "FN:John Doe") st = Ok st ∧
  process_line e (ln "VERSION:3.0") st = Ok st.
Proof.
  intros e st. split.
  - apply unrecognized_line_ignored; try reflexivity.
    right. eexists _, _. split; [reflexivity | discriminate].
  - apply unrecognized_line_ignored; try reflexivity.
    right. eexists _, _. split; [reflexivity | discriminate].
Defined.

(** ** A built-in key that is only a prefix of the line's key *)

(** X11: inside a record, a line that begins with a built-in key but
    whose key token (the text before the first [:] or [;]) is not a key
    of the table raises [KeyError]: the test is by prefix, the lookup by
    the exact token. *)
Theorem standard_key_prefix_KeyError (e : env) (line key_token : str)
    (st : state) :
  listening_to_data st = true →
  PyStr.startswith line BEGIN_SYMBOL = false →
  PyStr.startswith line END_SYMBOL = false →
  is_standard_line e line = true →
  PyStr.index (PyStr.re_split_colon_semicolon line) 0 = Ok key_token →
  dict_get (standard_field_dict st) key_token = None →
  process_line e line st = Raise KeyError.
Proof.
  intros Hl Hb He Hs Hkey Hno. unfold process_line.
  rewrite Hb, He. cbn [andb mbind result_bind]. rewrite Hl.
  unfold listening_block. rewrite Hb, Hs. cbn [mbind result_bind].
  unfold standard_field. rewrite Hkey. cbn [mbind result_bind].
  unfold occurrence, dict_getitem. rewrite Hno. reflexivity.
Qed.

Lemma standard_key_prefix_KeyError_witness :
  let e := sample_env [] (py "|") in
  let st := state_after e [ln "N:Doe;John;;;"] sample_initial_state in
  process_line e (ln "ORGANIZER:Jane") st = Raise KeyError ∧
  main [] (py "|") sample_standard sample_custom sample_social
    [ln "N:Doe;John;;;"; ln "ORGANIZER:Jane"; ln "END:VCARD"]
  = Raise KeyError.
Proof.
  intros e st. split; [|by vm_compute].
  by apply (standard_key_prefix_KeyError e _ (py "ORGANIZER")).
Defined.

(** ** Characters of replaced, split and sliced strings *)

Lemma elem_of_rev {A} (l : list A) (x : A) : x ∈ rev l ↔ x ∈ l.
Proof. rewrite !list_elem_of_In. symmetry. apply in_rev. Qed.

Lemma replace_go_elem_of (old new : str) (k : nat) (s : str) (x : N) :
  x ∈ PyStr.replace_go old new k s → x ∈ s ∨ x ∈ new.
Proof.
  revert k. induction s as [|c s IH]; intros k; simpl.
  - intros H. by apply elem_of_nil in H.
  - destruct k as [|k].
    + destruct (PyStr.startswith (c :: s) old).
      * intros [H|H]%elem_of_app; [by right|].
        apply IH in H as [H|H]; [left; by apply list_elem_of_further | by right].
      * intros [->|H]%elem_of_cons; [left; apply list_elem_of_here|].
        apply IH in H as [H|H]; [left; by apply list_elem_of_further | by right].
    + intros H. apply IH in H as [H|H];
        [left; by apply list_elem_of_further | by right].
Qed.

Lemma replace_elem_of (s old new : str) (x : N) :
  x ∈ PyStr.replace s old new → x ∈ s ∨ x ∈ new.
Proof.
  unfold PyStr.replace. destruct old as [|o old].
  - intros [H|H]%elem_of_app; [by right|].
    apply list_elem_of_In, in_flat_map in H as (c & Hc & Hx).
    apply list_elem_of_In in Hc, Hx.
    apply elem_of_cons in Hx as [->|Hx]; [by left | by right].
  - apply replace_go_elem_of.
Qed.

(** Replacing a character by a text without it removes the character. *)
Lemma replace_char_removes (s new : str) (c : N) :
  c ∉ new → c ∉ PyStr.replace s [c] new.
Proof.
  intros Hnew. unfold PyStr.replace.
  induction s as [|d s IH]; simpl; [by intros H%elem_of_nil|].
  destruct (N.eqb_spec c d) as [<-|Hne]; simpl.
  - intros [H|H]%elem_of_app; [done | by apply IH].
  - intros [H|H]%elem_of_cons; [done | by apply IH].
Qed.

Lemma split_go_elem_of (sep : str) (k : nat) (cur s piece : str) (x : N) :
  piece ∈ PyStr.split_go sep k cur s → x ∈ piece → x ∈ cur ∨ x ∈ s.
Proof.
  revert k cur. induction s as [|c s IH]; intros k cur; simpl.
  - intros ->%list_elem_of_singleton Hx. left. by apply elem_of_rev.
  - destruct k as [|k].
    + destruct (PyStr.startswith (c :: s) sep).
      * intros [->|H]%elem_of_cons Hx.
        { left. by apply elem_of_rev. }
        destruct (IH _ _ H Hx) as [H'|H'];
          [by apply elem_of_nil in H' | right; by apply list_elem_of_further].
      * intros H Hx. destruct (IH _ _ H Hx) as [H'|H'].
        { apply elem_of_cons in H' as [->|H'];
            [right; apply list_elem_of_here | by left]. }
        right. by apply list_elem_of_further.
    + intros H Hx. destruct (IH _ _ H Hx) as [H'|H'];
        [by left | right; by apply list_elem_of_further].
Qed.

Lemma split_last_elem_of (s sep : str) (x : N) :
  x ∈ default [] (last (PyStr.split s sep)) → x ∈ s.
Proof.
  destruct (last (PyStr.split s sep)) as [piece|] eqn:Hlast; simpl;
    [|by intros H%elem_of_nil].
  intros Hx. rewrite last_lookup in Hlast.
  assert (piece ∈ PyStr.split s sep) as Hin
    by (apply list_elem_of_lookup; eauto).
  destruct (split_go_elem_of _ _ _ _ _ _ Hin Hx) as [H|H];
    [by apply elem_of_nil in H | done].
Qed.

(** The text after the last separating character does not contain it. *)
Lemma split_go_last_free (c : N) (cur s : str) :
  c ∉ cur → c ∉ default [] (last (PyStr.split_go [c] 0 cur s)).
Proof.
  revert cur. induction s as [|d s IH]; intros cur Hcur; simpl.
  - by rewrite elem_of_rev.
  - destruct (N.eqb_spec c d) as [<-|Hne]; simpl.
    + specialize (IH [] ltac:(by intros H%elem_of_nil)).
      destruct (PyStr.split_go [c] 0 [] s) eqn:Hs;
        [by apply split_go_nonempty in Hs|]. exact IH.
    + apply IH. by intros [H|H]%elem_of_cons.
Qed.

Lemma slice_elem_of {A} (l : list A) (lo hi : option Z) (x : A) :
  x ∈ PyStr.slice l lo hi → x ∈ l.
Proof.
  unfold PyStr.slice. intros H.
  apply (elem_of_sublist _ _ _ H).
  etrans; [apply sublist_take | apply sublist_drop].
Qed.

(** ** Stored values are cleaned *)

Lemma birthday_elem_of (data : str) (x : N) :
  x ∈ birthday data → x ∈ data ∨ x = 45%N.
Proof.
  unfold birthday. destruct (PyStr.startswith data (py "--"));
    rewrite !elem_of_app; intros H;
    repeat match goal with
    | H : _ ∨ _ |- _ => destruct H as [H|H]
    | H : _ ∈ PyStr.slice _ _ _ |- _ => apply slice_elem_of in H
    | H : _ ∈ py "-" |- _ => apply list_elem_of_singleton in H
    end; auto.
Qed.

Lemma unwanted_free_subset (s t : str) :
  (∀ x, x ∈ t → x ∈ s ∨ x = 45%N) → unwanted_free s → unwanted_free t.
Proof.
  intros Hsub (H1 & H2 & H3).
  repeat split; intros H; apply Hsub in H as [H|H]; done.
Qed.

Lemma replace_unwanted_free (data : str) :
  unwanted_free
    (PyStr.replace
       (PyStr.replace
          (PyStr.replace (PyStr.replace data [LF] []) [BACKSLASH] [])
          (py ";;") (py ", "))
       (py ";") (py ", ")).
Proof.
  set (d1 := PyStr.replace data [LF] []).
  set (d2 := PyStr.replace d1 [BACKSLASH] []).
  set (d3 := PyStr.replace d2 (py ";;") (py ", ")).
  assert (H1 : LF ∉ d1) by (apply replace_char_removes; by intros H%elem_of_nil).
  assert (H2 : (LF ∉ d2) ∧ (BACKSLASH ∉ d2)).
  { split; [|apply replace_char_removes; by intros H%elem_of_nil].
    intros [H|H]%replace_elem_of; [done | by apply elem_of_nil in H]. }
  assert (H3 : (LF ∉ d3) ∧ (BACKSLASH ∉ d3)).
  { destruct H2 as [Ha Hb].
    split; intros [H|H]%replace_elem_of; try done;
      vm_compute in H; by repeat (apply elem_of_cons in H as [H|H];
                                  [discriminate|]); apply elem_of_nil in H. }
  destruct H3 as [Ha Hb]. repeat split.
  - intros [H|H]%replace_elem_of; [done|].
    vm_compute in H; by repeat (apply elem_of_cons in H as [H|H];
                                [discriminate|]); apply elem_of_nil in H.
  - intros [H|H]%replace_elem_of; [done|].
    vm_compute in H; by repeat (apply elem_of_cons in H as [H|H];
                                [discriminate|]); apply elem_of_nil in H.
  - apply (replace_char_removes d3 (py ", ") 59%N).
    intros H. vm_compute in H.
    by repeat (apply elem_of_cons in H as [H|H]; [discriminate|]);
      apply elem_of_nil in H.
Qed.

(** X12: the value of a built-in field other than the note, read from
    a line that does not begin with a space, contains no line break, no
    backslash and no semicolon; a picture value contains no comma either;
    and [last_symbol] is left as it was. *)
Theorem standard_value_cleaned (key : str) (c : N) (rest last_symbol : str)
    (data last_symbol' : str) :
  key ≠ py "NOTE" → c ≠ SPACE →
  standard_data key (c :: rest) last_symbol = Ok (data, last_symbol') →
  (LF ∉ data) ∧ (BACKSLASH ∉ data) ∧ (59%N ∉ data) ∧
  (key = py "PHOTO" → 44%N ∉ data) ∧
  last_symbol' = last_symbol.
Proof.
  intros Hkey Hc. unfold standard_data.
  rewrite (bool_decide_eq_false_2 (key = py "NOTE")) by done.
  rewrite split_last_index. cbn [mbind result_bind].
  rewrite (bool_decide_eq_true_2 (key ≠ py "NOTE")) by done.
  rewrite (index_at (c :: rest) 0 0) by reflexivity.
  cbn [lookup list_lookup mbind result_bind].
  rewrite (bool_decide_eq_true_2 (c ≠ SPACE)) by done.
  set (d0 := if PyStr.startswith _ (py ";;") then _ else _).
  set (d2 := PyStr.replace _ (py ";") (py ", ")).
  set (d3 := if bool_decide (key = py "ADR") && _ then _ else _).
  assert (H2 : unwanted_free d2) by apply replace_unwanted_free.
  assert (H3 : unwanted_free d3).
  { subst d3. destruct (_ && _); [|done].
    apply (unwanted_free_subset d2); [|done].
    intros x Hx. left. by apply slice_elem_of in Hx. }
  clearbody d3. clear d0 d2 H2.
  unfold decode_photo_bday. intros H.
  destruct (bool_decide (key = py "PHOTO")) eqn:Hphoto.
  - apply bool_decide_eq_true in Hphoto.
    rewrite split_last_index in H. cbn [mbind result_bind] in H.
    rewrite bool_decide_eq_false_2 in H by (rewrite Hphoto; discriminate).
    injection H as <- <-.
    assert (unwanted_free (default [] (last (PyStr.split d3 (py ","))))) as (?&?&?).
    { apply (unwanted_free_subset d3); [|done].
      intros x Hx. left. by apply split_last_elem_of in Hx. }
    repeat split; try done. intros _.
    apply (split_go_last_free 44%N [] d3). by intros H'%elem_of_nil.
  - apply bool_decide_eq_false in Hphoto.
    cbn [mbind result_bind] in H. injection H as <- <-.
    assert (unwanted_free (if bool_decide (key = py "BDAY")
                           then birthday d3 else d3)) as (?&?&?).
    { destruct (bool_decide _); [|done].
      apply (unwanted_free_subset d3); [|done]. apply birthday_elem_of. }
    repeat split; done.
Qed.

Lemma standard_value_cleaned_witness :
  standard_data (py "ADR") (ln "ADR;TYPE=home:;;1 Main St\, Apt 2;Bern;;3000;CH")
    [] = Ok (py "1 Main St, Apt 2, Bern, 3000, CH", []) ∧
  (LF ∉ py "1 Main St, Apt 2, Bern, 3000, CH").
Proof.
  assert (H : standard_data (py "ADR")
                (ln "ADR;TYPE=home:;;1 Main St\, Apt 2;Bern;;3000;CH") []
              = Ok (py "1 Main St, Apt 2, Bern, 3000, CH", []))
    by (by vm_compute).
  split; [exact H|].
  by destruct (standard_value_cleaned (py "ADR") 65%N
                 (ln "DR;TYPE=home:;;1 Main St\, Apt 2;Bern;;3000;CH") []
                 _ _ ltac:(discriminate) ltac:(discriminate) H) as [Hlf _].
Defined.

(** X13: the text a note line contributes, primary or folded,
    contains no backslash, no non-breaking space and no zero-width
    space. *)
Theorem note_text_cleaned (data line last_symbol : str) :
  let clean (s : str) := (NBSP ∉ s) ∧ (ZWSP ∉ s) ∧ (BACKSLASH ∉ s) in
  clean (note_translate data) ∧
  clean (note_primary data).1 ∧
  clean (note_continuation line last_symbol).1.
Proof.
  intros clean.
  assert (H : ∀ s, clean (note_translate s)).
  { intros s. unfold note_translate, clean.
    set (d1 := PyStr.replace s [NBSP] []).
    set (d2 := PyStr.replace d1 [ZWSP] []).
    set (d3 := PyStr.replace d2 [BACKSLASH; 110%N] [LF]).
    assert (H1 : NBSP ∉ d1)
      by (apply replace_char_removes; by intros H%elem_of_nil).
    assert (H2 : (NBSP ∉ d2) ∧ (ZWSP ∉ d2)).
    { split; [|apply replace_char_removes; by intros H%elem_of_nil].
      intros [H|H]%replace_elem_of; [done | by apply elem_of_nil in H]. }
    destruct H2 as [H2 H2'].
    assert (H3 : (NBSP ∉ d3) ∧ (ZWSP ∉ d3)).
    { split; intros [H|H]%replace_elem_of; try done;
        by apply list_elem_of_singleton in H. }
    destruct H3 as [H3 H3']. repeat split.
    - intros [H|H]%replace_elem_of; [done | by apply elem_of_nil in H].
    - intros [H|H]%replace_elem_of; [done | by apply elem_of_nil in H].
    - apply replace_char_removes. by intros H%elem_of_nil. }
  split; [apply H|]. split.
  - unfold note_primary. cbv zeta. cbn [fst]. apply H.
  - unfold note_continuation. cbv zeta. cbn [fst]. apply H.
Qed.

(** ** Folded lines *)

Lemma dict_keys_set_present {K V} `{EqDecision K} (d : list (K * V)) (k : K)
    (v0 v : V) :
  dict_get d k = Some v0 → dict_keys (dict_set d k v) = dict_keys d.
Proof.
  unfold dict_keys. induction d as [|[k' v'] d IH]; simpl; [done|].
  destruct (decide (k' = k)) as [->|Hne]; simpl; [done|].
  intros H. f_equal. by apply IH.
Qed.

(** X14: a folded line raises [KeyError] when the contact has no
    entry under [value_previous]; otherwise it appends text to that entry
    and changes nothing else: the other entries, the keys and their
    order, and the tables are as before. For the fields folded verbatim
    the appended text has no line break. *)
Theorem unfinished_line_appends (e : env) (line : str) (st : state) :
  (dict_get (contact_dict st) (value_previous st) = None →
   unfinished_line e line st = Raise KeyError) ∧
  (∀ st', unfinished_line e line st = Ok st' →
     ∃ old added,
       dict_get (contact_dict st) (value_previous st) = Some old ∧
       dict_get (contact_dict st') (value_previous st) = Some (old ++ added) ∧
       (∀ x, x ≠ value_previous st →
             dict_get (contact_dict st') x = dict_get (contact_dict st) x) ∧
       dict_keys (contact_dict st') = dict_keys (contact_dict st) ∧
       tables st' = tables st ∧
       (folds_verbatim e (key_previous st) = true → LF ∉ added)).
Proof.
  unfold unfinished_line.
  destruct (if bool_decide (key_previous st = py "NOTE")
            then note_continuation line (last_symbol st)
            else (line, last_symbol st)) as [line' ls'].
  cbv beta iota zeta. unfold dict_getitem. split.
  - intros ->. reflexivity.
  - intros st' H.
    destruct (dict_get (contact_dict st) (value_previous st)) as [old|] eqn:Hold;
      [|discriminate].
    cbn [mbind result_bind] in H. injection H as <-.
    eexists old, _. split; [done|]. cbn [contact_dict].
    split; [apply dict_get_set_eq|].
    split; [intros x Hx; by apply dict_get_set_ne|].
    split; [by eapply dict_keys_set_present|].
    split; [done|].
    intros ->. apply replace_char_removes. by intros H%elem_of_nil.
Qed.

Lemma unfinished_line_appends_witness :
  let e := sample_env [] (py "|") in
  let st := state_after e [ln "N:Doe;John;;;"; ln "CATEGORIES:Friends,Fam"]
              sample_initial_state in
  ∃ st', unfinished_line e (ln " ily,Work") st = Ok st' ∧
         dict_get (contact_dict st') (py "Tags") = Some (py "Friends,Family,Work") ∧
         dict_keys (contact_dict st') = dict_keys (contact_dict st).
Proof.
  intros e st.
  assert (H : ∃ st', unfinished_line e (ln " ily,Work") st = Ok st')
    by (eexists; by vm_compute).
  destruct H as [st' H]. exists st'. split; [exact H|].
  destruct (unfinished_line_appends e (ln " ily,Work") st) as [_ Happ].
  destruct (Happ st' H) as (old & added & _ & _ & _ & Hkeys & _).
  split; [|exact Hkeys].
  vm_compute in H. injection H as <-. reflexivity.
Defined.

(** ** Custom and social values *)

(** X15: the value stored by a custom or a social-profile line
    contains no line break. *)
Theorem custom_social_value_one_line (e : env) (line : str) (st st' : state) :
  custom_field e line st = Ok st' ∨ social_profile_field line st = Ok st' →
  ∃ data, dict_get (contact_dict st') (value st') = Some data ∧ LF ∉ data.
Proof.
  intros [H|H].
  - unfold custom_field in H. cbv zeta in H.
    apply bind_Ok in H as ([[T' c'] name] & _ & H). cbv beta iota zeta in H.
    apply bind_Ok in H as (last & _ & H). injection H as <-.
    eexists. cbn [contact_dict value store_field].
    split; [apply dict_get_set_eq|].
    apply replace_char_removes. by intros H%elem_of_nil.
  - unfold social_profile_field in H.
    apply bind_Ok in H as (second & _ & H).
    apply bind_Ok in H as (head & _ & H). cbv beta zeta in H.
    apply bind_Ok in H as ([[T' c'] name] & _ & H). cbv beta iota zeta in H.
    apply bind_Ok in H as (last & _ & H).
    apply bind_Ok in H as (label & _ & H). injection H as <-.
    eexists. cbn [contact_dict value store_field].
    split; [apply dict_get_set_eq|].
    apply replace_char_removes. by intros H%elem_of_nil.
Qed.

Lemma custom_social_value_one_line_witness :
  let e := sample_env [] (py "|") in
  let st := state_after e [ln "N:Doe;John;;;"] sample_initial_state in
  ∃ st', custom_field e (ln "X-CUSTOM:Nationality-=+=-Swiss") st = Ok st' ∧
         ∃ data, dict_get (contact_dict st') (value st') = Some data ∧ LF ∉ data.
Proof.
  intros e st.
  assert (H : ∃ st', custom_field e (ln "X-CUSTOM:Nationality-=+=-Swiss") st
                     = Ok st') by (eexists; by vm_compute).
  destruct H as [st' H]. exists st'. split; [exact H|].
  apply (custom_social_value_one_line e
           (ln "X-CUSTOM:Nationality-=+=-Swiss") st). by left.
Defined.

(** ** Field lines that cannot fail *)

Lemma find_ge (s sub : str) : -1 ≤ PyStr.find s sub.
Proof.
  induction s as [|c s IH]; simpl.
  - destruct (PyStr.startswith [] sub); lia.
  - destruct (PyStr.startswith (c :: s) sub); [lia|].
    destruct (Z.ltb_spec (PyStr.find s sub) 0); lia.
Qed.

(** [s.find(sub) >= 0] is [sub in s]. *)
Lemma find_contains (s sub : str) :
  (0 <=? PyStr.find s sub) = PyStr.contains s sub.
Proof.
  induction s as [|c s IH]; simpl.
  - destruct (PyStr.startswith [] sub); reflexivity.
  - destruct (PyStr.startswith (c :: s) sub); [reflexivity|]. simpl.
    rewrite <- IH.
    destruct (Z.ltb_spec (PyStr.find s sub) 0) as [Hlt|Hge].
    + destruct (Z.leb_spec 0 (PyStr.find s sub)); [lia | reflexivity].
    + destruct (Z.leb_spec 0 (PyStr.find s sub + 1)); [|lia].
      destruct (Z.leb_spec 0 (PyStr.find s sub)); [reflexivity | lia].
Qed.

(** The key the custom branch picks is the first one of the table, in
    the table's order, that occurs in the line. *)
Lemma first_custom_field_spec (line : str) (l : list str) (key0 : str) :
  existsb (λ custom_field, PyStr.contains line custom_field) l = true →
  ∃ before after,
    l = before ++ first_custom_field line l key0 :: after ∧
    PyStr.contains line (first_custom_field line l key0) = true ∧
    Forall (λ k, PyStr.contains line k = false) before.
Proof.
  induction l as [|k l IH]; simpl; [discriminate|].
  rewrite find_contains.
  destruct (PyStr.contains line k) eqn:Hk; simpl.
  - intros _. exists [], l. done.
  - intros H. destruct (IH H) as (before & after & Hl & Hc & Hall).
    exists (k :: before), after. split; [by rewrite Hl at 1|].
    split; [done|]. by constructor.
Qed.

Lemma dict_get_keys {K V} `{EqDecision K} (d : list (K * V)) (k : K) :
  k ∈ dict_keys d → is_Some (dict_get d k).
Proof.
  unfold dict_keys. induction d as [|[k' v] d IH]; simpl.
  - by intros H%elem_of_nil.
  - destruct (decide (k' = k)); [eauto|].
    intros [H|H]%elem_of_cons; [done | by apply IH].
Qed.

Lemma dict_keys_names_of (T : table) : dict_keys (names_of T) = dict_keys T.
Proof.
  unfold dict_keys, names_of. rewrite <- list_fmap_compose.
  apply list_fmap_ext. by intros _ [k e] _.
Qed.

(** Counting an occurrence cannot fail in a disambiguated record. *)
Lemma occurrence_returns (T : table) (c : contact) (k : str) (en : field_entry) :
  dict_get T k = Some en →
  entries_for (entry_count en) (entry_value en) c →
  ∃ r, occurrence T c k = Ok r.
Proof.
  intros Hk [Hbare _]. unfold occurrence, dict_getitem. rewrite Hk.
  cbn [mbind result_bind]. cbv zeta. rewrite !Nat.add_1_r.
  destruct (entry_count en) as [|[|n]]; cbn [Nat.ltb Nat.leb Nat.eqb].
  - eauto.
  - destruct Hbare as [_ Hbare]. destruct (Hbare eq_refl) as [old Hold].
    unfold dict_pop. rewrite Hold. cbn [mbind result_bind]. eauto.
  - cbn [mbind result_bind]. eauto.
Qed.

Lemma standard_data_returns (key : str) (c : N) (rest last_symbol : str) :
  ∃ r, standard_data key (c :: rest) last_symbol = Ok r.
Proof.
  unfold standard_data.
  assert (Hdata : ∃ d,
    (if bool_decide (key = py "NOTE")
     then PyStr.index (PyStr.split (c :: rest) (py "NOTE:")) (-1)
     else PyStr.index (PyStr.split (c :: rest) (py ":")) (-1)) = Ok d).
  { destruct (bool_decide (key = py "NOTE")); rewrite split_last_index; eauto. }
  destruct Hdata as [d Hd]. rewrite (bind_of_Ok _ _ _ Hd). cbv beta zeta.
  assert (Hfirst : ∃ b,
    (if bool_decide (key ≠ py "NOTE")
     then PyStr.index (c :: rest) 0 ≫= λ c0, Ok (bool_decide (c0 ≠ SPACE))
     else Ok false) = Ok b).
  { destruct (bool_decide (key ≠ py "NOTE")); [|eauto].
    rewrite (index_at (c :: rest) 0 0) by reflexivity. eexists. reflexivity. }
  destruct Hfirst as [b Hb]. rewrite (bind_of_Ok _ _ _ Hb). cbv beta zeta.
  match goal with
  | |- ∃ r, (let '(data, ls) := ?p in _) = _ => destruct p as [data' ls']
  end.
  destruct (decode_photo_bday_total key data') as [s Hs].
  rewrite (bind_of_Ok _ _ _ Hs). eauto.
Qed.

(** X16: in a run over tables whose fields cannot collide, the
    built-in branch returns for every non-empty line whose key token is
    in the table, and the custom branch returns for every custom line:
    counting an occurrence never fails there. The custom branch takes
    the first key of the table, in the table's order, that occurs in the
    line. *)
Theorem field_lines_return (tags : list str) (op : str) (std cus soc : table)
    (vcf : list str) (st : state) :
  let e := make_env tags op std cus soc in
  hygienic [names_of std; names_of cus; names_of soc] →
  run e vcf (initial_state std cus soc) = Ok st →
  listening_to_data st = true →
  (∀ (c : N) (rest key_token : str),
     PyStr.index (PyStr.re_split_colon_semicolon (c :: rest)) 0 = Ok key_token →
     is_Some (dict_get (standard_field_dict st) key_token) →
     ∃ st', standard_field (c :: rest) st = Ok st') ∧
  (∀ line : str,
     is_custom_line e line = true →
     ∃ st' before after,
       custom_field e line st = Ok st' ∧
       custom_field_list e = before ++ key st' :: after ∧
       PyStr.contains line (key st') = true ∧
       Forall (λ k, PyStr.contains line k = false) before).
Proof.
  intros e Hhyg Hrun Hl.
  destruct (run_inv _ e vcf _ st Hhyg (initial_state_inv std cus soc) Hrun)
    as [Hns Hdis].
  specialize (Hdis Hl). split.
  - intros c rest key_token Hkey [en Hen]. unfold standard_field.
    rewrite Hkey. cbn [mbind result_bind].
    destruct (occurrence_returns _ (contact_dict st) _ _ Hen
                (Hdis 0%nat _ _ _ eq_refl Hen)) as [[[T' c'] name] Hocc].
    rewrite Hocc. cbn [mbind result_bind].
    destruct (standard_data_returns key_token c rest (last_symbol st))
      as [dl Hdl].
    rewrite Hdl. cbn [mbind result_bind]. eauto.
  - intros line [_ Hany]%andb_true_iff.
    destruct (first_custom_field_spec line (custom_field_list e) (key st) Hany)
      as (before & after & Hlist & Hcontains & Hbefore).
    set (k := first_custom_field line (custom_field_list e) (key st)) in *.
    assert (Hin : k ∈ custom_field_list e).
    { rewrite Hlist. apply elem_of_app. right. apply list_elem_of_here. }
    assert (Hk : is_Some (dict_get (custom_field_dict st) k)).
    { apply dict_get_keys. rewrite <- dict_keys_names_of.
      injection Hns as _ -> _. by rewrite dict_keys_names_of. }
    destruct Hk as [en Hen]. unfold custom_field. fold k. cbv zeta.
    destruct (occurrence_returns _ (contact_dict st) _ _ Hen
                (Hdis 1%nat _ _ _ eq_refl Hen)) as [[[T' c'] name] Hocc].
    rewrite Hocc. cbn [mbind result_bind].
    rewrite split_last_index. cbn [mbind result_bind].
    eexists _, before, after. split; [reflexivity|]. done.
Qed.

Lemma field_lines_return_witness :
  let e := sample_env [] (py "|") in
  let st := state_after e [ln "N:Doe;John;;;"; ln "EMAIL:a@x.org"]
              sample_initial_state in
  (∃ st', standard_field (ln "EMAIL;TYPE=work:b@x.org") st = Ok st') ∧
  (∃ st', custom_field e (ln "X-CUSTOM:Nationality-=+=-Swiss") st = Ok st').
Proof.
  intros e st.
  destruct (field_lines_return [] (py "|")
              sample_standard sample_custom sample_social
              [ln "N:Doe;John;;;"; ln "EMAIL:a@x.org"] st)
    as [Hstd Hcus].
  - exact sample_hygienic.
  - by vm_compute.
  - reflexivity.
  - split.
    + apply (Hstd 69%N (ln "MAIL;TYPE=work:b@x.org") (py "EMAIL"));
        [reflexivity|]. eexists. by vm_compute.
    + destruct (Hcus (ln "X-CUSTOM:Nationality-=+=-Swiss"))
        as (st' & _ & _ & H & _); [reflexivity | eauto].
Defined.

(** ** Two lines of tags *)

(** X17: in a run over tables whose fields cannot collide, a record
    with two or more [CATEGORIES] lines has no [Tags] entry (its tags are
    under [Tags_1], [Tags_2], ...), so with tags requested it is dropped
    at its end marker, whatever tags it carries. *)
Theorem repeated_tags_record_discarded (tags : list str) (op : str)
    (std cus soc : table) (vcf : list str) (st : state)
    (en : field_entry) (line : str) :
  let e := make_env tags op std cus soc in
  hygienic [names_of std; names_of cus; names_of soc] →
  run e vcf (initial_state std cus soc) = Ok st →
  listening_to_data st = true →
  dict_get (standard_field_dict st) (py "CATEGORIES") = Some en →
  entry_value en = py "Tags" →
  (2 ≤ entry_count en)%nat →
  tags ≠ [] →
  PyStr.startswith line END_SYMBOL = true →
  dict_get (contact_dict st) (py "Tags") = None ∧
  process_line e line st = Ok (stop_listening st) ∧
  discarded st (stop_listening st).
Proof.
  intros e Hhyg Hrun Hl Hen Hval Hcount Htags Hend.
  destruct (run_inv _ e vcf _ st Hhyg (initial_state_inv std cus soc) Hrun)
    as [_ Hdis].
  destruct (Hdis Hl 0%nat _ _ _ eq_refl Hen) as [Hbare _].
  rewrite Hval in Hbare.
  assert (Hno : dict_get (contact_dict st) (py "Tags") = None).
  { destruct (dict_get (contact_dict st) (py "Tags")) eqn:Hget; [|done].
    assert (entry_count en = 1%nat) by (apply Hbare; eauto). lia. }
  split; [exact Hno|]. split; [|apply discarded_stop].
  rewrite process_line_end by done. unfold end_record.
  rewrite tag_list_nonempty by done.
  unfold dict_mem. rewrite Hno. reflexivity.
Qed.

Lemma repeated_tags_record_discarded_witness :
  let vcf := [ln "N:Doe;John;;;"; ln "CATEGORIES:X"; ln "CATEGORIES:Y"] in
  let e := sample_env [py "X"] (py "|") in
  let st := state_after e vcf sample_initial_state in
  process_line e (ln "END:VCARD") st = Ok (stop_listening st) ∧
  main [py "X"] (py "|") sample_standard sample_custom sample_social
    (vcf ++ [ln "END:VCARD"]) = Ok [] ∧
  main [py "X"] (py "|") sample_standard sample_custom sample_social
    [ln "N:Doe;John;;;"; ln "CATEGORIES:X"; ln "END:VCARD"]
  = Ok [(0%nat, [(py "Last Name", py "Doe"); (py "First Name", py "John");
                 (py "Tags", py "X")])].
Proof.
  intros vcf e st.
  destruct (repeated_tags_record_discarded [py "X"] (py "|")
              sample_standard sample_custom sample_social vcf st
              {| entry_value := py "Tags"; entry_count := 2 |}
              (ln "END:VCARD")) as (_ & H & _).
  - exact sample_hygienic.
  - by vm_compute.
  - reflexivity.
  - by vm_compute.
  - reflexivity.
  - simpl. lia.
  - discriminate.
  - reflexivity.
  - split; [exact H|]. split; by vm_compute.
Defined.

(** ** A record start while a record is open *)

Lemma reset_field_count_names (T : table) :
  reset_field_count T =
  (λ kv, (kv.1, {| entry_value := kv.2; entry_count := 0 |})) <$> names_of T.
Proof.
  unfold reset_field_count, names_of. rewrite <- list_fmap_compose.
  apply list_fmap_ext. by intros _ [k e] _.
Qed.

(** X18: a record-start line abandons the record in progress: what it
    does depends on the state only through the store, the identifier
    counter, [value], [value_previous], [last_symbol] and the names in
    the tables, not through the open contact, its counters or the
    previous keys; it leaves the store unchanged and the parser
    listening. *)
Theorem record_start_abandons_open_record (e : env) (line : str)
    (st1 st2 : state) :
  PyStr.startswith line BEGIN_SYMBOL = true →
  contacts_dict st1 = contacts_dict st2 →
  contact_id st1 = contact_id st2 →
  value st1 = value st2 →
  value_previous st1 = value_previous st2 →
  last_symbol st1 = last_symbol st2 →
  names_of <$> tables st1 = names_of <$> tables st2 →
  process_line e line st1 = process_line e line st2 ∧
  (∀ st', process_line e line st1 = Ok st' →
     same_store st1 st' ∧ listening_to_data st' = true).
Proof.
  intros Hb Hc Hi Hv Hvp Hls Hns.
  assert (Hbegin : begin_record st1 = begin_record st2).
  { unfold begin_record. rewrite Hc, Hi, Hv, Hvp, Hls.
    rewrite !reset_field_count_names. injection Hns as -> -> ->. done. }
  split.
  - unfold process_line. by rewrite Hb, Hbegin.
  - intros st' H. split.
    + apply process_line_store in H as [H | (He & _)]; [done|].
      rewrite (begin_not_end _ Hb) in He. discriminate.
    + unfold process_line in H. rewrite Hb, (begin_not_end _ Hb) in H.
      cbn [andb mbind result_bind begin_record listening_to_data] in H.
      unfold listening_block in H.
      apply bind_Ok in H as (s1 & H1 & H).
      apply bind_Ok in H as (s2 & H2 & H).
      apply bind_Ok in H as (s3 & H3 & H).
      apply bind_Ok in H as (s4 & H4 & H).
      apply bind_Ok in H as (b & _ & H).
      assert (listening_to_data s1 = true) as L1.
      { rewrite Hb in H1. apply bind_Ok in H1 as (c & _ & H1).
        by injection H1 as <-. }
      assert (listening_to_data s2 = true) as L2.
      { destruct (is_standard_line e line); [|by injection H2 as <-].
        unfold standard_field in H2. inv_bind H2. by injection H2 as <-. }
      assert (listening_to_data s3 = true) as L3.
      { destruct (is_custom_line e line); [|by injection H3 as <-].
        unfold custom_field in H3. inv_bind H3. by injection H3 as <-. }
      assert (listening_to_data s4 = true) as L4.
      { destruct (is_social_line e line); [|by injection H4 as <-].
        unfold social_profile_field in H4. inv_bind H4. by injection H4 as <-. }
      destruct b; [|by injection H as <-].
      unfold unfinished_line in H. inv_bind H. by injection H as <-.
Qed.

Lemma record_start_abandons_open_record_witness :
  let e := sample_env [] (py "|") in
  let st1 := state_after e [ln "N:Doe;John;;;"; ln "EMAIL:a@x.org";
                            ln "EMAIL:b@x.org"] sample_initial_state in
  let st2 := state_after e [ln "N:Poe;Anne;;;"; ln "ORG:Acme";
                            ln "EMAIL:c@x.org"; ln "ADR:;;1 Main St";
                            ln "EMAIL:d@x.org"] sample_initial_state in
  contact_dict st1 ≠ contact_dict st2 ∧
  process_line e (ln "N:Roe;Jane;;;") st1
  = process_line e (ln "N:Roe;Jane;;;") st2 ∧
  main [] (py "|") sample_standard sample_custom sample_social
    [ln "N:Doe;John;;;"; ln "EMAIL:a@x.org"; ln "N:Roe;Jane;;;"; ln "END:VCARD"]
  = Ok [(0%nat, [(py "Last Name", py "Roe"); (py "First Name", py "Jane")])].
Proof.
  intros e st1 st2. split; [by vm_compute|]. split; [|by vm_compute].
  apply (record_start_abandons_open_record e (ln "N:Roe;Jane;;;") st1 st2);
    by vm_compute.
Defined.

(** ** A social-profile line without a semicolon *)

Lemma split_go_no_separator (c : N) (cur s : str) :
  c ∉ s → PyStr.split_go [c] 0 cur s = [rev cur ++ s].
Proof.
  revert cur. induction s as [|d s IH]; intros cur Hs; simpl.
  - by rewrite app_nil_r.
  - apply not_elem_of_cons in Hs as [Hne Hs].
    destruct (N.eqb_spec c d) as [->|_]; [done|]. simpl.
    rewrite IH by done. simpl. by rewrite <- app_assoc.
Qed.

(** X19: inside a record, a line taken by the social-profile branch
    alone that contains no semicolon raises [IndexError]. *)
Theorem social_line_without_semicolon (e : env) (line : str) (st : state) :
  listening_to_data st = true →
  PyStr.startswith line BEGIN_SYMBOL = false →
  PyStr.startswith line END_SYMBOL = false →
  is_standard_line e line = false →
  is_custom_line e line = false →
  is_social_line e line = true →
  59%N ∉ line →
  process_line e line st = Raise IndexError.
Proof.
  intros Hl Hb He Hs Hc Hp Hsemi. unfold process_line.
  rewrite Hb, He. cbn [andb mbind result_bind]. rewrite Hl.
  unfold listening_block. rewrite Hb, Hs, Hc, Hp.
  cbn [mbind result_bind]. unfold social_profile_field, PyStr.split.
  change (py ";") with [59%N]. rewrite split_go_no_separator by done.
  reflexivity.
Qed.

Lemma social_line_without_semicolon_witness :
  let e := sample_env [] (py "|") in
  let st := state_after e [ln "N:Doe;John;;;"; ln "NOTE:see"]
              sample_initial_state in
  process_line e (ln " X-SOCIALPROFILE twitter") st = Raise IndexError.
Proof.
  intros e st. apply social_line_without_semicolon; try reflexivity.
  intros H. vm_compute in H.
  by repeat (apply elem_of_cons in H as [H|H]; [discriminate|]);
    apply elem_of_nil in H.
Defined.

(** ** The merge loops stop on their own tests

    With at least [length l - i] turns allowed, the number of turns
    allowed does not matter: the loops have stopped before. *)

Lemma merge_inner_loop_fuel (fuel fuel' : nat) (l : list str) (col : str)
    (i : nat) (acc : list str) :
  (length l - i ≤ fuel)%nat → (length l - i ≤ fuel')%nat →
  merge_inner_loop fuel l col i acc = merge_inner_loop fuel' l col i acc.
Proof.
  revert fuel' i acc. induction fuel as [|fuel IH]; intros fuel' i acc H H'.
  - assert (l !! i = None) as Hnone by (apply lookup_ge_None; lia).
    destruct fuel'; simpl; [done | by rewrite Hnone].
  - destruct fuel' as [|fuel'].
    + assert (l !! i = None) as Hnone by (apply lookup_ge_None; lia).
      simpl. by rewrite Hnone.
    + simpl. destruct (l !! i) as [x|] eqn:Hx; [|done].
      destruct (PyStr.contains x col); [|done].
      apply IH; lia.
Qed.

Lemma merge_loop_fuel (fuel fuel' : nat) (l : list str) (i : nat)
    (acc : list str) :
  (length l - i ≤ fuel)%nat → (length l - i ≤ fuel')%nat →
  merge_loop fuel l i acc = merge_loop fuel' l i acc.
Proof.
  revert fuel' i acc. induction fuel as [|fuel IH]; intros fuel' i acc H H'.
  - rewrite (merge_loop_end fuel') by lia. done.
  - destruct fuel' as [|fuel'].
    + rewrite (merge_loop_end (S fuel)) by lia. done.
    + simpl.
      destruct (Z.ltb_spec (Z.of_nat i) (Z.of_nat (length l) - 1)); [|done].
      destruct (l !! i) as [col|]; [|done].
      destruct (l !! (i + 1)%nat) as [col_next|]; [|done].
      destruct (PyStr.startswith col_next col).
      * destruct (merge_inner_loop (length l) l col (i + 2) (acc ++ [col_next]))
          as [i' acc'] eqn:Hinner.
        apply merge_inner_loop_run in Hinner as (Hle & _).
        apply IH; lia.
      * apply IH; lia.
Qed.

(** The loop equation of lines 496-516, without a bound on the turns. *)
Lemma merge_loop_unfold (l : list str) (i : nat) (acc : list str) :
  merge_loop (length l) l i acc =
  if Z.of_nat i <? Z.of_nat (length l) - 1 then
    match l !! i, l !! (i + 1)%nat with
    | Some col, Some col_next =>
        if PyStr.startswith col_next col then
          let '(i', acc') :=
            merge_inner_loop (length l) l col (i + 2) (acc ++ [col_next]) in
          merge_loop (length l) l i' acc'
        else merge_loop (length l) l (i + 1) (acc ++ [col])
    | _, _ => acc
    end
  else acc.
Proof.
  rewrite (merge_loop_fuel (length l) (S (length l))) by lia.
  reflexivity.
Qed.

Lemma merge_inner_loop_unfold (l : list str) (col : str) (i : nat)
    (acc : list str) :
  merge_inner_loop (length l) l col i acc =
  match l !! i with
  | Some x =>
      if PyStr.contains x col
      then merge_inner_loop (length l) l col (i + 1) (acc ++ [x])
      else (i, acc)
  | None => (i, acc)
  end.
Proof.
  rewrite (merge_inner_loop_fuel (length l) (S (length l))) by lia.
  reflexivity.
Qed.

(** * Repeated fields: ranks and values *)

(** ** Stored occurrences keep their rank and their value *)

Lemma slot_family (v : str) (j n : nat) : family v (slot v j n).
Proof.
  unfold slot. destruct (n <=? 1)%nat; [apply family_bare | apply family_suffixed].
Qed.

Lemma slot_present (v : str) (j n : nat) (c : contact) :
  entries_for n v c → (1 ≤ j ≤ n)%nat → is_Some (dict_get c (slot v j n)).
Proof.
  intros [Hbare Hsuf] Hj. unfold slot.
  destruct (n <=? 1)%nat eqn:Hn.
  - apply Nat.leb_le in Hn. apply Hbare. lia.
  - apply Nat.leb_gt in Hn. apply Hsuf. lia.
Qed.

Lemma keeps_values_mono (R R' : relation str) (st st' : state) :
  (∀ d d', R d d' → R' d d') →
  keeps_values R st st' → keeps_values R' st st'.
Proof.
  intros HR H i T k en Hi Hk.
  destruct (H i T k en Hi Hk) as (T' & en' & Hi' & Hk' & Hv & Hn & Hd).
  exists T', en'. split; [done|]. split; [done|]. split; [done|].
  split; [done|]. intros j Hj.
  destruct (Hd j Hj) as (d & d' & H1 & H2 & H3).
  exists d, d'. split; [done|]. split; [done|]. by apply HR.
Qed.

Lemma keeps_values_unchanged_prefix (st st' : state) :
  keeps_values eq st st' → keeps_values prefix st st'.
Proof. apply keeps_values_mono. by intros d d' <-. Qed.

(** A step that changes no table and, in the contact, changes entries
    within [R] only. *)
Lemma keeps_values_pointwise (R : relation str) (st st' : state) :
  disambiguated st →
  tables st' = tables st →
  (∀ x d, dict_get (contact_dict st) x = Some d →
          ∃ d', dict_get (contact_dict st') x = Some d' ∧ R d d') →
  keeps_values R st st'.
Proof.
  intros Hdis Ht Hc i T k en Hi Hk. exists T, en.
  split; [by rewrite Ht|]. split; [done|]. split; [done|]. split; [lia|].
  intros j Hj.
  destruct (slot_present _ j _ _ (Hdis i T k en Hi Hk) Hj) as [d Hd].
  destruct (Hc _ _ Hd) as (d' & Hd' & Hpre). by exists d, d'.
Qed.

Lemma keeps_values_refl (st st' : state) :
  disambiguated st →
  tables st' = tables st → contact_dict st' = contact_dict st →
  keeps_values eq st st'.
Proof.
  intros Hdis Ht Hc. apply keeps_values_pointwise; [done..|].
  intros x d Hd. exists d. by rewrite Hc.
Qed.

Lemma keeps_values_trans (R : relation str) `{!Transitive R}
    (st1 st2 st3 : state) :
  keeps_values R st1 st2 → keeps_values R st2 st3 → keeps_values R st1 st3.
Proof.
  intros H12 H23 i T k en Hi Hk.
  destruct (H12 i T k en Hi Hk) as (T2 & en2 & Hi2 & Hk2 & Hv2 & Hn2 & Hd2).
  destruct (H23 i T2 k en2 Hi2 Hk2) as (T3 & en3 & Hi3 & Hk3 & Hv3 & Hn3 & Hd3).
  exists T3, en3. split; [done|]. split; [done|].
  split; [congruence|]. split; [lia|].
  intros j Hj.
  destruct (Hd2 j Hj) as (d & d2 & Hd & Hd2' & Hpre).
  destruct (Hd3 j ltac:(lia)) as (d2' & d3 & Hd2'' & Hd3' & Hpre').
  rewrite Hv2 in Hd2'', Hd3'.
  rewrite Hd2' in Hd2''. injection Hd2'' as <-.
  exists d, d3. split; [done|]. split; [done|]. by etrans.
Qed.

(** Counting one more occurrence and storing its value leaves the values
    counted before as they are, each at its rank. *)
Lemma store_field_keeps_values (ns : list (list (str * str))) (st : state)
    (i : nat) (T T' : table) (c' : contact) (k name data : str) (st' : state) :
  hygienic ns → tidy ns st →
  tables st !! i = Some T →
  occurrence T (contact_dict st) k = Ok (T', c', name) →
  tables st' = <[i:=T']> (tables st) →
  contact_dict st' = dict_set c' name data →
  keeps_values eq st st'.
Proof.
  intros [Hhyg _] [Hns Hdis] Hi Hocc Hts Hc. rewrite <- Hns in Hhyg.
  pose proof (occurrence_store _ _ _ _ _ _ data Hocc)
    as (e0 & He0 & _ & Hout & _).
  apply occurrence_Ok in Hocc as (e & He & -> & Hcases).
  assert (e0 = e) as -> by congruence. clear He0.
  intros i2 T2 k2 en Hi2 Hk2.
  destruct (decide (i = i2 ∧ k = k2)) as [[<- <-]|Hne].
  - assert (T2 = T) as -> by congruence.
    assert (en = e) as -> by congruence.
    exists (dict_set T k (bump e)), (bump e).
    split. { rewrite Hts. apply list_lookup_insert_eq. by eapply lookup_lt_Some. }
    split; [apply dict_get_set_eq|]. split; [done|].
    split; [cbn [bump entry_count]; lia|].
    intros j Hj.
    destruct (slot_present _ j _ _ (Hdis i T k e Hi He) Hj) as [d Hd].
    exists d, d. split; [done|]. split; [|done].
    rewrite Hc. cbv zeta in Hcases. cbn [bump entry_count]. unfold slot in *.
    destruct Hcases
      as [(Hn & -> & ->) | [(Hn & -> & old & Hold & ->) | (Hn & -> & ->)]].
    + lia.
    + rewrite Hn in *. assert (j = 1%nat) as -> by lia.
      cbn [Nat.add Nat.leb] in *.
      rewrite dict_get_set_ne by (intros H%suffixed_inj; lia).
      rewrite dict_get_set_eq. congruence.
    + destruct (entry_count e <=? 1)%nat eqn:Hle;
        [apply Nat.leb_le in Hle; lia|].
      destruct (entry_count e + 1 <=? 1)%nat eqn:Hle';
        [apply Nat.leb_le in Hle'; lia|].
      rewrite dict_get_set_ne by (intros H%suffixed_inj; lia). done.
  - assert (∃ T2', tables st' !! i2 = Some T2' ∧ dict_get T2' k2 = Some en)
      as (T2' & Hi2' & Hk2').
    { rewrite Hts. destruct (decide (i = i2)) as [<-|Hi'].
      - exists (dict_set T k (bump e)).
        split; [apply list_lookup_insert_eq; by eapply lookup_lt_Some|].
        assert (T2 = T) as -> by congruence.
        rewrite dict_get_set_ne; [done|]. intros <-. by apply Hne.
      - exists T2. by rewrite list_lookup_insert_ne. }
    exists T2', en. split; [done|]. split; [done|]. split; [done|].
    split; [lia|]. intros j Hj.
    destruct (slot_present _ j _ _ (Hdis i2 T2 k2 en Hi2 Hk2) Hj) as [d Hd].
    exists d, d. split; [done|]. split; [|done].
    rewrite Hc, Hout; [done|]. intros Hfam.
    apply (Hhyg i i2 (names_of T) (names_of T2) k k2
             (entry_value e) (entry_value en))
      with (slot (entry_value en) j (entry_count en)); try done.
    + by rewrite list_lookup_fmap, Hi.
    + by rewrite list_lookup_fmap, Hi2.
    + by rewrite dict_get_names_of, He.
    + by rewrite dict_get_names_of, Hk2.
    + destruct (decide (i = i2)); [|by left]. right. intros <-. by apply Hne.
    + apply slot_family.
Qed.

Lemma standard_field_keeps_values (ns : list (list (str * str))) (line : str)
    (st st' : state) :
  hygienic ns → tidy ns st → standard_field line st = Ok st' →
  keeps_values eq st st'.
Proof.
  intros Hhyg Hinv H. unfold standard_field in H.
  apply bind_Ok in H as (k & _ & H).
  apply bind_Ok in H as ([[T' c'] name] & Hocc & H). cbv beta iota zeta in H.
  apply bind_Ok in H as (dl & _ & H). injection H as <-.
  by apply (store_field_keeps_values ns st 0 (standard_field_dict st) T' c'
              k name dl.1).
Qed.

Lemma custom_field_keeps_values (ns : list (list (str * str))) (e : env)
    (line : str) (st st' : state) :
  hygienic ns → tidy ns st → custom_field e line st = Ok st' →
  keeps_values eq st st'.
Proof.
  intros Hhyg Hinv H. unfold custom_field in H. cbv zeta in H.
  apply bind_Ok in H as ([[T' c'] name] & Hocc & H). cbv beta iota zeta in H.
  apply bind_Ok in H as (last & _ & H). injection H as <-.
  eapply (store_field_keeps_values ns st 1 (custom_field_dict st) T' c'); eauto.
Qed.

Lemma social_profile_field_keeps_values (ns : list (list (str * str)))
    (line : str) (st st' : state) :
  hygienic ns → tidy ns st → social_profile_field line st = Ok st' →
  keeps_values eq st st'.
Proof.
  intros Hhyg Hinv H. unfold social_profile_field in H.
  apply bind_Ok in H as (second & _ & H).
  apply bind_Ok in H as (head & _ & H). cbv beta zeta in H.
  apply bind_Ok in H as ([[T' c'] name] & Hocc & H). cbv beta iota zeta in H.
  apply bind_Ok in H as (last & _ & H).
  apply bind_Ok in H as (label & _ & H). injection H as <-.
  eapply (store_field_keeps_values ns st 2 (social_profile_field_dict st) T' c');
    eauto.
Qed.

(** A folded line appends to one entry. *)
Lemma unfinished_line_keeps_values (ns : list (list (str * str))) (e : env)
    (line : str) (st st' : state) :
  tidy ns st → unfinished_line e line st = Ok st' →
  keeps_values prefix st st'.
Proof.
  intros [_ Hdis] H. unfold unfinished_line in H.
  destruct (if bool_decide (key_previous st = py "NOTE")
            then note_continuation line (last_symbol st)
            else (line, last_symbol st)) as [line' ls'].
  cbv beta iota zeta in H.
  unfold dict_getitem in H.
  destruct (dict_get (contact_dict st) (value_previous st)) as [old|] eqn:Hold;
    [|discriminate].
  cbn [mbind result_bind] in H. injection H as <-.
  apply keeps_values_pointwise; [done..|].
  intros x d Hd. cbn [contact_dict].
  destruct (decide (value_previous st = x)) as [<-|Hne].
  - rewrite dict_get_set_eq. eexists. split; [done|].
    assert (d = old) as -> by congruence. by apply prefix_app_r.
  - rewrite dict_get_set_ne by done. by exists d.
Qed.

(** Only a line that begins with a space is taken for a folded line. *)
Lemma is_unfinished_true (e : env) (line : str) (st : state) :
  is_unfinished e line st = Ok true → ∃ tl, line = SPACE :: tl.
Proof.
  unfold is_unfinished. destruct (may_fold e (key_previous st)); [|done].
  destruct line as [|c tl]; [done|].
  rewrite (index_at (c :: tl) 0 0) by reflexivity.
  cbn [lookup list_lookup mbind result_bind]. intros [= Hc].
  apply bool_decide_eq_true in Hc as ->. by exists tl.
Qed.

(** The block of a line that does not start a record: the field
    branches, which leave the earlier values as they are, and then
    possibly the fold. *)
Lemma listening_block_parts (ns : list (list (str * str))) (e : env)
    (line : str) (st st' : state) :
  hygienic ns → tidy ns st →
  PyStr.startswith line BEGIN_SYMBOL = false →
  listening_block e line st = Ok st' →
  ∃ st4, tidy ns st4 ∧ keeps_values eq st st4 ∧
    (st' = st4 ∨
     ((∃ tl, line = SPACE :: tl) ∧ unfinished_line e line st4 = Ok st')).
Proof.
  intros Hhyg Hinv Hb H. unfold listening_block in H. rewrite Hb in H.
  cbn [mbind result_bind] in H.
  apply bind_Ok in H as (st2 & H2 & H).
  apply bind_Ok in H as (st3 & H3 & H).
  apply bind_Ok in H as (st4 & H4 & H).
  apply bind_Ok in H as (b & Hfold & H).
  assert (tidy ns st2 ∧ keeps_values eq st st2) as [Hinv2 Hk2].
  { destruct (is_standard_line e line).
    - split; [by apply (standard_field_tidy ns line st)
             | by apply (standard_field_keeps_values ns line)].
    - injection H2 as <-. split; [done|].
      by apply keeps_values_refl; [apply Hinv|..]. }
  assert (tidy ns st3 ∧ keeps_values eq st2 st3) as [Hinv3 Hk3].
  { destruct (is_custom_line e line).
    - split; [by apply (custom_field_tidy ns e line st2)
             | by apply (custom_field_keeps_values ns e line)].
    - injection H3 as <-. split; [done|].
      by apply keeps_values_refl; [apply Hinv2|..]. }
  assert (tidy ns st4 ∧ keeps_values eq st3 st4) as [Hinv4 Hk4].
  { destruct (is_social_line e line).
    - split; [by apply (social_profile_field_tidy ns line st3)
             | by apply (social_profile_field_keeps_values ns line)].
    - injection H4 as <-. split; [done|].
      by apply keeps_values_refl; [apply Hinv3|..]. }
  exists st4. split; [done|]. split.
  { eapply (keeps_values_trans eq); [exact Hk2|].
    eapply (keeps_values_trans eq); [exact Hk3|]. exact Hk4. }
  destruct b.
  - right. split; [by eapply is_unfinished_true | done].
  - left. by injection H as <-.
Qed.

Lemma listening_block_keeps_values (ns : list (list (str * str))) (e : env)
    (line : str) (st st' : state) :
  hygienic ns → tidy ns st →
  PyStr.startswith line BEGIN_SYMBOL = false →
  listening_block e line st = Ok st' →
  keeps_values prefix st st' ∧
  ((∀ tl, line ≠ SPACE :: tl) → keeps_values eq st st').
Proof.
  intros Hhyg Hinv Hb H.
  destruct (listening_block_parts ns e line st st' Hhyg Hinv Hb H)
    as (st4 & Hinv4 & Hk4 & [-> | [[tl ->] Hfold]]).
  - split; [by apply keeps_values_unchanged_prefix | done].
  - split.
    + eapply (keeps_values_trans prefix);
        [by apply keeps_values_unchanged_prefix|].
      by apply (unfinished_line_keeps_values ns e (SPACE :: tl)).
    + intros Hno. by destruct (Hno tl).
Qed.

Lemma process_line_keeps_values (ns : list (list (str * str))) (e : env)
    (line : str) (st st' : state) :
  hygienic ns → tidy ns st →
  PyStr.startswith line BEGIN_SYMBOL = false →
  process_line e line st = Ok st' →
  keeps_values prefix st st' ∧
  ((∀ tl, line ≠ SPACE :: tl) → keeps_values eq st st').
Proof.
  intros Hhyg Hinv Hb H. unfold process_line in H. rewrite Hb in H.
  assert (Hsame : ∀ s, tables s = tables st → contact_dict s = contact_dict st →
            keeps_values prefix st s ∧
            ((∀ tl, line ≠ SPACE :: tl) → keeps_values eq st s)).
  { intros s Ht Hc.
    assert (keeps_values eq st s) by (by apply keeps_values_refl; [apply Hinv|..]).
    split; [by apply keeps_values_unchanged_prefix | done]. }
  destruct (PyStr.startswith line END_SYMBOL && listening_to_data st) eqn:Hc.
  - apply bind_Ok in H as (fl & Hfl & H).
    apply end_record_flow in Hfl as [-> | [-> | ->]].
    + injection H as <-. by apply Hsame.
    + injection H as <-. by apply Hsame.
    + destruct (listening_to_data st).
      * by apply (listening_block_keeps_values ns e line).
      * injection H as <-. by apply Hsame.
  - cbn [mbind result_bind] in H.
    destruct (listening_to_data st).
    + by apply (listening_block_keeps_values ns e line).
    + injection H as <-. by apply Hsame.
Qed.

(** Over the lines of one record, as long as it is being read. *)
Lemma run_keeps_values (ns : list (list (str * str))) (e : env)
    (vcf : list str) (st st' : state) :
  hygienic ns → tidy ns st →
  Forall (λ line, PyStr.startswith line BEGIN_SYMBOL = false) vcf →
  run e vcf st = Ok st' → listening_to_data st' = true →
  keeps_values prefix st st' ∧
  (Forall (λ line, ∀ tl, line ≠ SPACE :: tl) vcf → keeps_values eq st st').
Proof.
  intros Hhyg Hinv Hall. revert st Hinv.
  induction Hall as [|line vcf Hline Hall IH]; intros st Hinv H Hl.
  - injection H as <-.
    assert (keeps_values eq st st) by (by apply keeps_values_refl; [apply Hinv|..]).
    split; [by apply keeps_values_unchanged_prefix | done].
  - apply run_cons_Ok in H as (st1 & H1 & H).
    assert (listening_to_data st1 = true) as Hl1.
    { destruct (listening_to_data st1) eqn:Hl1; [done|].
      rewrite run_idle in H by done. injection H as <-. congruence. }
    assert (tidy ns st1) as Hinv1.
    { destruct (process_line_inv ns e line st st1 Hhyg) as [Hns Hdis]; [|done|].
      - destruct Hinv. by split.
      - split; [done|]. by apply Hdis. }
    destruct (process_line_keeps_values ns e line st st1 Hhyg Hinv Hline H1)
      as [Hp1 He1].
    destruct (IH st1 Hinv1 H Hl) as [Hp2 He2].
    split.
    + by eapply (keeps_values_trans prefix).
    + intros [Hno Hnos]%Forall_cons.
      eapply (keeps_values_trans eq); [by apply He1 | by apply He2].
Qed.

(** What each field branch stores, and where. *)
Lemma standard_field_stores (line : str) (st st' : state) :
  standard_field line st = Ok st' →
  ∃ (c' : contact) (dl : str * str),
    PyStr.index (PyStr.re_split_colon_semicolon line) 0 = Ok (key st') ∧
    occurrence (standard_field_dict st) (contact_dict st) (key st')
    = Ok (standard_field_dict st', c', value st') ∧
    standard_data (key st') line (last_symbol st) = Ok dl ∧
    contact_dict st' = dict_set c' (value st') dl.1 ∧
    dict_get (contact_dict st') (value st') = Some dl.1.
Proof.
  unfold standard_field. intros H.
  apply bind_Ok in H as (k & Hk & H).
  apply bind_Ok in H as ([[T' c'] name] & Hocc & H). cbv beta iota zeta in H.
  apply bind_Ok in H as (dl & Hdl & H). injection H as <-.
  exists c', dl. cbn [key value contact_dict standard_field_dict store_field].
  split; [done|]. split; [done|]. split; [done|]. split; [done|].
  apply dict_get_set_eq.
Qed.

Lemma custom_field_stores (e : env) (line : str) (st st' : state) :
  custom_field e line st = Ok st' →
  ∃ (c' : contact) (last : str),
    key st' = first_custom_field line (custom_field_list e) (key st) ∧
    occurrence (custom_field_dict st) (contact_dict st) (key st')
    = Ok (custom_field_dict st', c', value st') ∧
    PyStr.index (PyStr.split line (py "-=+=-")) (-1) = Ok last ∧
    contact_dict st' = dict_set c' (value st') (PyStr.replace last [LF] []) ∧
    dict_get (contact_dict st') (value st') = Some (PyStr.replace last [LF] []).
Proof.
  unfold custom_field. intros H. cbv zeta in H.
  apply bind_Ok in H as ([[T' c'] name] & Hocc & H). cbv beta iota zeta in H.
  apply bind_Ok in H as (last & Hlast & H). injection H as <-.
  exists c', last. cbn [key value contact_dict custom_field_dict store_field].
  split; [done|]. split; [done|]. split; [done|]. split; [done|].
  apply dict_get_set_eq.
Qed.

Lemma social_profile_field_stores (line : str) (st st' : state) :
  social_profile_field line st = Ok st' →
  ∃ (c' : contact) (last label : str),
    occurrence (social_profile_field_dict st) (contact_dict st) (key st')
    = Ok (social_profile_field_dict st', c', value st') ∧
    PyStr.index (PyStr.split line (py ";")) (-1) = Ok last ∧
    PyStr.index (PyStr.split last (py ":")) 0 = Ok label ∧
    let data :=
      PyStr.replace (PyStr.replace last (label ++ py ":") []) [LF] [] in
    contact_dict st' = dict_set c' (value st') data ∧
    dict_get (contact_dict st') (value st') = Some data.
Proof.
  unfold social_profile_field. intros H.
  apply bind_Ok in H as (second & _ & H).
  apply bind_Ok in H as (head & _ & H). cbv beta zeta in H.
  apply bind_Ok in H as ([[T' c'] name] & Hocc & H). cbv beta iota zeta in H.
  apply bind_Ok in H as (last & Hlast & H).
  apply bind_Ok in H as (label & Hlabel & H). injection H as <-.
  exists c', last, label.
  cbn [key value contact_dict social_profile_field_dict store_field].
  split; [done|]. split; [done|]. split; [done|]. split; [done|].
  apply dict_get_set_eq.
Qed.

(** The name returned by the counting is the slot of the new rank. *)
Lemma occurrence_slot (T : table) (c : contact) (k : str)
    (T' : table) (c' : contact) (name : str) (en : field_entry) :
  occurrence T c k = Ok (T', c', name) → dict_get T k = Some en →
  T' = dict_set T k (bump en) ∧
  name = slot (entry_value en) (entry_count en + 1) (entry_count en + 1).
Proof.
  intros (e & He & -> & Hcases)%occurrence_Ok Hen.
  assert (e = en) as -> by congruence. split; [done|].
  cbv zeta in Hcases. unfold slot.
  destruct Hcases as [(Hn & _ & ->) | [(Hn & -> & _) | (Hn & _ & ->)]].
  - by rewrite Hn.
  - by rewrite Hn.
  - destruct (entry_count en + 1 <=? 1)%nat eqn:Hle; [|done].
    apply Nat.leb_le in Hle. lia.
Qed.

(** A line handled by the built-in branch alone. *)
Lemma process_line_standard_only (e : env) (line : str) (st st' : state) :
  listening_to_data st = true →
  PyStr.startswith line BEGIN_SYMBOL = false →
  PyStr.startswith line END_SYMBOL = false →
  is_standard_line e line = true →
  is_custom_line e line = false →
  is_social_line e line = false →
  (∃ c rest, line = c :: rest ∧ c ≠ SPACE) →
  process_line e line st = Ok st' → standard_field line st = Ok st'.
Proof.
  intros Hl Hb He Hs Hc Hp (c & rest & -> & Hne) H. unfold process_line in H.
  rewrite Hb, He in H. cbn [andb mbind result_bind] in H. rewrite Hl in H.
  unfold listening_block in H. rewrite Hb, Hs, Hc, Hp in H.
  cbn [mbind result_bind] in H.
  destruct (standard_field (c :: rest) st) as [s|] eqn:Hstd; [|done].
  cbn [mbind result_bind] in H. unfold is_unfinished in H.
  destruct (may_fold e (key_previous s)).
  - rewrite (index_at (c :: rest) 0 0) in H by reflexivity.
    cbn [lookup list_lookup mbind result_bind] in H.
    rewrite bool_decide_eq_false_2 in H by done. done.
  - done.
Qed.

(** The value read from a line of a built-in field stays in the record
    at the rank of the line. *)
Lemma standard_line_value_kept (ns : list (list (str * str))) (e : env)
    (line : str) (st st1 st2 : state) (vcf : list str)
    (en : field_entry) (dl : str * str) (key_token : str) :
  hygienic ns → tidy ns st → listening_to_data st = true →
  PyStr.startswith line BEGIN_SYMBOL = false →
  PyStr.startswith line END_SYMBOL = false →
  is_standard_line e line = true →
  is_custom_line e line = false →
  is_social_line e line = false →
  (∃ c rest, line = c :: rest ∧ c ≠ SPACE) →
  PyStr.index (PyStr.re_split_colon_semicolon line) 0 = Ok key_token →
  dict_get (standard_field_dict st) key_token = Some en →
  standard_data key_token line (last_symbol st) = Ok dl →
  process_line e line st = Ok st1 →
  Forall (λ line, PyStr.startswith line BEGIN_SYMBOL = false) vcf →
  run e vcf st1 = Ok st2 → listening_to_data st2 = true →
  let v := entry_value en in
  let j := (entry_count en + 1)%nat in
  dict_get (contact_dict st1) (slot v j j) = Some dl.1 ∧
  ∃ (en2 : field_entry) (d : str),
    dict_get (standard_field_dict st2) key_token = Some en2 ∧
    entry_value en2 = v ∧ (j ≤ entry_count en2)%nat ∧
    dict_get (contact_dict st2) (slot v j (entry_count en2)) = Some d ∧
    dl.1 `prefix_of` d ∧
    (Forall (λ line, ∀ tl, line ≠ SPACE :: tl) vcf → d = dl.1).
Proof.
  intros Hhyg Hinv Hl Hb He Hs Hc Hp Hline Hkey Hen Hdl H1 Hall H2 Hl2 v j.
  apply process_line_standard_only in H1; try done.
  pose proof (standard_field_tidy ns line st st1 Hhyg Hinv H1) as Hinv1.
  apply standard_field_stores in H1
    as (c' & dl' & Hkey' & Hocc & Hdl' & _ & Hget).
  assert (key st1 = key_token) as Hk by congruence. rewrite Hk in *.
  assert (dl' = dl) as -> by congruence.
  destruct (occurrence_slot _ _ _ _ _ _ en Hocc Hen) as [HT Hname].
  fold v j in Hname. rewrite Hname in Hget. split; [done|].
  destruct (run_keeps_values ns e vcf st1 st2 Hhyg Hinv1 Hall H2 Hl2)
    as [Hkeep Hexact].
  assert (Hbump : dict_get (standard_field_dict st1) key_token = Some (bump en))
    by (rewrite HT; apply dict_get_set_eq).
  destruct (Hkeep 0%nat (standard_field_dict st1) key_token (bump en)
              eq_refl Hbump)
    as (T2 & en2 & HT2 & Hen2 & Hv2 & Hn2 & Hd2).
  injection HT2 as <-. cbn [bump entry_value entry_count] in Hv2, Hn2, Hd2.
  fold v j in Hv2, Hn2, Hd2.
  destruct (Hd2 j ltac:(lia)) as (d0 & d & Hd0 & Hd & Hpre).
  assert (d0 = dl.1) as -> by congruence.
  exists en2, d. split; [done|]. split; [done|]. split; [done|].
  split; [done|]. split; [done|].
  intros Hno.
  destruct (Hexact Hno 0%nat (standard_field_dict st1) key_token (bump en)
              eq_refl Hbump)
    as (T2' & en2' & HT2' & Hen2' & _ & _ & Hd2').
  injection HT2' as <-. assert (en2' = en2) as -> by congruence.
  cbn [bump entry_value entry_count] in Hd2'. fold v j in Hd2'.
  destruct (Hd2' j ltac:(lia)) as (d0' & d' & Hd0' & Hd' & <-).
  congruence.
Qed.

(** The store changes only by an end marker storing the contact as it
    stands. *)
Lemma process_line_stores_contact (e : env) (line : str) (st st' : state) :
  process_line e line st = Ok st' →
  same_store st st' ∨
  (PyStr.startswith line END_SYMBOL = true ∧ accepted st st' ∧
   dict_get (contacts_dict st') (contact_id st) = Some (contact_dict st)).
Proof.
  intros [H | (He & Hl & Hacc)]%process_line_store; [by left|]. right.
  split; [done|]. split; [done|].
  destruct Hacc as (-> & _ & _). apply dict_get_set_eq.
Qed.

(** C1, as the program has it: in every run over tables whose fields
    cannot collide, a record in which a raw key has been counted
    [n >= 2] times holds for its canonical name [v] exactly the [n]
    entries [v_1], ..., [v_n] and no bare entry, and they are in
    encounter order. In detail, for the record being read in [st]:
    - the names present are [v_1], ..., [v_n], and not [v];
    - the store changes only at an end marker, by storing the contact as
      it then stands;
    - the counting returns the name of the new rank: the bare name at
      the first occurrence, [v_j] at the [j]-th, and the second
      occurrence moves the value of the bare name to [v_1];
    - each of the three field branches counts in this way and stores
      under the name returned exactly the value it reads from its line;
    - each of the three branches leaves every occurrence counted before
      at its rank with its value; a folded line does so too, except
      that it appends text to the value it continues;
    - so do the lines that follow in the record, for as long as it is
      being read: the values are unchanged when none of these lines
      begins with a space, and otherwise changed by appended text only;
    - hence the value read from the line that is the [j]-th occurrence
      of a built-in key is found at rank [j] at every later point of
      the record, unchanged or followed by the text of folded lines:
      under [v_j] once the key has occurred twice, so that [v_1] holds
      the first value read and [v_n] the last. *)
Theorem C1_repeated_fields_are_suffixed
    (tags : list str) (op : str) (std cus soc : table)
    (vcf : list str) (st : state) :
  let e := make_env tags op std cus soc in
  let ns := [names_of std; names_of cus; names_of soc] in
  hygienic ns →
  run e vcf (initial_state std cus soc) = Ok st →
  listening_to_data st = true →
  (∀ (T : table) (k : str) (en : field_entry),
     T ∈ tables st → dict_get T k = Some en →
     let v := entry_value en in
     let n := entry_count en in
     (2 ≤ n)%nat →
     dict_get (contact_dict st) v = None ∧
     ∀ m : nat,
       is_Some (dict_get (contact_dict st) (suffixed v m)) ↔ (1 ≤ m ≤ n)%nat) ∧
  (∀ (line : str) (st' : state),
     process_line e line st = Ok st' →
     (accepted st st' →
      dict_get (contacts_dict st') (contact_id st) = Some (contact_dict st)) ∧
     (same_store st st' ∨
      (PyStr.startswith line END_SYMBOL = true ∧ accepted st st' ∧
       dict_get (contacts_dict st') (contact_id st) = Some (contact_dict st)))) ∧
  (∀ (T : table) (c : contact) (k : str) (T' : table) (c' : contact)
     (name : str),
     occurrence T c k = Ok (T', c', name) →
     ∃ en, dict_get T k = Some en ∧ dict_get T' k = Some (bump en) ∧
       let v := entry_value en in
       let j := entry_count (bump en) in
       name = slot v j j ∧
       (j = 1%nat → name = v ∧ c' = c) ∧
       (j = 2%nat →
        name = suffixed v 2 ∧ is_Some (dict_get c v) ∧
        dict_get c' (suffixed v 1) = dict_get c v ∧ dict_get c' v = None) ∧
       ((3 ≤ j)%nat → name = suffixed v j ∧ c' = c)) ∧
  (∀ (line : str) (s s' : state),
     (standard_field line s = Ok s' →
      ∃ (c' : contact) (dl : str * str),
        PyStr.index (PyStr.re_split_colon_semicolon line) 0 = Ok (key s') ∧
        occurrence (standard_field_dict s) (contact_dict s) (key s')
        = Ok (standard_field_dict s', c', value s') ∧
        standard_data (key s') line (last_symbol s) = Ok dl ∧
        contact_dict s' = dict_set c' (value s') dl.1 ∧
        dict_get (contact_dict s') (value s') = Some dl.1) ∧
     (custom_field e line s = Ok s' →
      ∃ (c' : contact) (last : str),
        key s' = first_custom_field line (custom_field_list e) (key s) ∧
        occurrence (custom_field_dict s) (contact_dict s) (key s')
        = Ok (custom_field_dict s', c', value s') ∧
        PyStr.index (PyStr.split line (py "-=+=-")) (-1) = Ok last ∧
        contact_dict s' = dict_set c' (value s') (PyStr.replace last [LF] []) ∧
        dict_get (contact_dict s') (value s')
        = Some (PyStr.replace last [LF] [])) ∧
     (social_profile_field line s = Ok s' →
      ∃ (c' : contact) (last label : str),
        occurrence (social_profile_field_dict s) (contact_dict s) (key s')
        = Ok (social_profile_field_dict s', c', value s') ∧
        PyStr.index (PyStr.split line (py ";")) (-1) = Ok last ∧
        PyStr.index (PyStr.split last (py ":")) 0 = Ok label ∧
        let data :=
          PyStr.replace (PyStr.replace last (label ++ py ":") []) [LF] [] in
        contact_dict s' = dict_set c' (value s') data ∧
        dict_get (contact_dict s') (value s') = Some data)) ∧
  (∀ (line : str) (s s' : state),
     tidy ns s →
     (standard_field line s = Ok s' ∨ custom_field e line s = Ok s' ∨
      social_profile_field line s = Ok s' →
      tidy ns s' ∧ keeps_values eq s s') ∧
     (unfinished_line e line s = Ok s' →
      tidy ns s' ∧ keeps_values prefix s s')) ∧
  (∀ (rest : list str) (st2 : state),
     Forall (λ line, PyStr.startswith line BEGIN_SYMBOL = false) rest →
     run e rest st = Ok st2 → listening_to_data st2 = true →
     keeps_values prefix st st2 ∧
     (Forall (λ line, ∀ tl, line ≠ SPACE :: tl) rest →
      keeps_values eq st st2)) ∧
  (∀ (line key_token : str) (en : field_entry) (dl : str * str)
     (st1 : state) (rest : list str) (st2 : state),
     PyStr.startswith line BEGIN_SYMBOL = false →
     PyStr.startswith line END_SYMBOL = false →
     is_standard_line e line = true →
     is_custom_line e line = false →
     is_social_line e line = false →
     (∃ c tl, line = c :: tl ∧ c ≠ SPACE) →
     PyStr.index (PyStr.re_split_colon_semicolon line) 0 = Ok key_token →
     dict_get (standard_field_dict st) key_token = Some en →
     standard_data key_token line (last_symbol st) = Ok dl →
     process_line e line st = Ok st1 →
     Forall (λ line, PyStr.startswith line BEGIN_SYMBOL = false) rest →
     run e rest st1 = Ok st2 → listening_to_data st2 = true →
     let v := entry_value en in
     let j := (entry_count en + 1)%nat in
     dict_get (contact_dict st1) (slot v j j) = Some dl.1 ∧
     ∃ (en2 : field_entry) (d : str),
       dict_get (standard_field_dict st2) key_token = Some en2 ∧
       entry_value en2 = v ∧ (j ≤ entry_count en2)%nat ∧
       dict_get (contact_dict st2) (slot v j (entry_count en2)) = Some d ∧
       dl.1 `prefix_of` d ∧
       (Forall (λ line, ∀ tl, line ≠ SPACE :: tl) rest → d = dl.1)).
Proof.
  intros e ns Hhyg Hrun Hl.
  destruct (run_inv _ e vcf _ st Hhyg (initial_state_inv std cus soc) Hrun)
    as [Hns Hdis].
  specialize (Hdis Hl).
  assert (Htidy : tidy ns st) by (by split).
  split; [|split; [|split; [|split; [|split; [|split]]]]].
  - intros T k en [i Hi]%list_elem_of_lookup Hk v n Hn.
    destruct (Hdis i T k en Hi Hk) as [Hbare Hsuf]. fold v n in Hbare, Hsuf.
    split.
    + destruct (dict_get (contact_dict st) v) eqn:Hv; [|done].
      assert (n = 1%nat) by (apply Hbare; eauto). lia.
    + intros m. rewrite Hsuf. lia.
  - intros line st' H. split.
    + intros (Hc & _ & _). rewrite Hc. apply dict_get_set_eq.
    + by apply (process_line_stores_contact e line).
  - intros T c k T' c' name Hocc.
    pose proof Hocc as (en & Hen & -> & Hcases)%occurrence_Ok.
    exists en. split; [done|]. split; [apply dict_get_set_eq|].
    destruct (occurrence_slot _ _ _ _ _ _ en Hocc Hen) as [_ Hslot].
    cbv zeta in *. cbn [bump entry_count entry_value].
    split; [done|]. clear Hslot.
    destruct Hcases
      as [(Hn & -> & ->) | [(Hn & -> & old & Hold & ->) | (Hn & -> & ->)]].
    + repeat split; try lia; done.
    + split; [lia|]. split; [|lia]. intros _.
      split; [done|]. split; [rewrite Hold; eauto|]. split.
      * rewrite dict_get_set_eq. done.
      * rewrite dict_get_set_ne by apply suffixed_ne_bare.
        apply dict_get_del_eq.
    + split; [lia|]. split; [lia|]. done.
  - intros line s s'.
    split; [apply standard_field_stores|].
    split; [apply custom_field_stores|].
    apply social_profile_field_stores.
  - intros line s s' Hs. split.
    + intros [H | [H | H]].
      * split; [by apply (standard_field_tidy ns line s)
               | by apply (standard_field_keeps_values ns line)].
      * split; [by apply (custom_field_tidy ns e line s)
               | by apply (custom_field_keeps_values ns e line)].
      * split; [by apply (social_profile_field_tidy ns line s)
               | by apply (social_profile_field_keeps_values ns line)].
    + intros H.
      split; [by apply (unfinished_line_tidy ns e line s)
             | by apply (unfinished_line_keeps_values ns e line)].
  - intros rest st2 Hall H2 Hl2.
    by apply (run_keeps_values ns e rest).
  - intros line key_token en dl st1 rest st2 Hb He Hs Hc Hp Hline Hkey Hen Hdl
      H1 Hall H2 Hl2.
    by apply (standard_line_value_kept ns e line st st1 st2 rest en dl key_token).
Qed.

Lemma C1_witness :
  let e := sample_env [] (py "|") in
  let st := state_after e [ln "N:Doe;John;;;"; ln "EMAIL:a@x.org"]
              sample_initial_state in
  let st1 := state_after e [ln "EMAIL:b@x.org"] st in
  let st2 := state_after e [ln "ORG:Acme"; ln "EMAIL:c@x.org"] st1 in
  let sa := state_after e [ln "N:Doe;John;;;"] sample_initial_state in
  let sa1 := state_after e [ln "ADR:;;1 Main Street;Bern"] sa in
  let sa2 := state_after e [ln " ;;3000;CH"; ln "ADR:;;2 Side Road;Basel"] sa1 in
  contact_dict st = [(py "Last Name", py "Doe"); (py "First Name", py "John");
                     (py "Email", py "a@x.org")] ∧
  dict_get (contact_dict st1) (py "Email_2") = Some (py "b@x.org") ∧
  dict_get (contact_dict st2) (py "Email_1") = Some (py "a@x.org") ∧
  dict_get (contact_dict st2) (py "Email_2") = Some (py "b@x.org") ∧
  dict_get (contact_dict st2) (py "Email") = None ∧
  (∀ m : nat,
     is_Some (dict_get (contact_dict st2) (suffixed (py "Email") m)) ↔
     (1 ≤ m ≤ 3)%nat) ∧
  contact_dict st2 =
    [(py "Last Name", py "Doe"); (py "First Name", py "John");
     (py "Email_1", py "a@x.org"); (py "Email_2", py "b@x.org");
     (py "Organization", py "Acme"); (py "Email_3", py "c@x.org")] ∧
  dict_get (contact_dict sa1) (py "Address") = Some (py "1 Main Street, Bern") ∧
  (∃ d, dict_get (contact_dict sa2) (py "Address_1") = Some d ∧
        py "1 Main Street, Bern" `prefix_of` d) ∧
  contact_dict sa2 =
    [(py "Last Name", py "Doe"); (py "First Name", py "John");
     (py "Address_1", py "1 Main Street, Bern;;3000;CH");
     (py "Address_2", py "2 Side Road, Basel")].
Proof.
  intros e st st1 st2 sa sa1 sa2.
  destruct (C1_repeated_fields_are_suffixed [] (py "|")
              sample_standard sample_custom sample_social
              [ln "N:Doe;John;;;"] sa)
    as (_ & _ & _ & _ & _ & _ & Hfold);
    [exact sample_hygienic | vm_compute; reflexivity | reflexivity |].
  destruct (Hfold (ln "ADR:;;1 Main Street;Bern") (py "ADR")
              {| entry_value := py "Address"; entry_count := 0 |}
              (py "1 Main Street, Bern", []) sa1
              [ln " ;;3000;CH"; ln "ADR:;;2 Side Road;Basel"] sa2)
    as (Hadr & ena & da & Hena & _ & _ & Hda & Hprea & _);
    try (vm_compute; reflexivity).
  { eexists _, _. split; [reflexivity | discriminate]. }
  { repeat constructor. }
  vm_compute in Hena. injection Hena as <-. clear Hfold.
  destruct (C1_repeated_fields_are_suffixed [] (py "|")
              sample_standard sample_custom sample_social
              [ln "N:Doe;John;;;"; ln "EMAIL:a@x.org"] st)
    as (_ & _ & _ & _ & _ & Hkeep & Hline);
    [exact sample_hygienic | vm_compute; reflexivity | reflexivity |].
  destruct (C1_repeated_fields_are_suffixed [] (py "|")
              sample_standard sample_custom sample_social
              [ln "N:Doe;John;;;"; ln "EMAIL:a@x.org"; ln "EMAIL:b@x.org";
               ln "ORG:Acme"; ln "EMAIL:c@x.org"] st2)
    as (Hfields & _);
    [exact sample_hygienic | vm_compute; reflexivity | reflexivity |].
  split; [vm_compute; reflexivity|].
  destruct (Hline (ln "EMAIL:b@x.org") (py "EMAIL")
              {| entry_value := py "Email"; entry_count := 1 |}
              (py "b@x.org", []) st1 [ln "ORG:Acme"; ln "EMAIL:c@x.org"] st2)
    as (Hnew & en2 & d2 & Hen2 & _ & _ & Hd2 & Hpre2 & Hexact2);
    try (vm_compute; reflexivity).
  { eexists _, _. split; [reflexivity | discriminate]. }
  { repeat constructor. }
  vm_compute in Hen2. injection Hen2 as <-.
  split; [exact Hnew|].
  assert (Hkept : keeps_values eq st st2).
  { apply (Hkeep [ln "EMAIL:b@x.org"; ln "ORG:Acme"; ln "EMAIL:c@x.org"]);
      [repeat constructor | vm_compute; reflexivity | reflexivity |].
    repeat constructor; discriminate. }
  destruct (Hkept 0%nat (standard_field_dict st) (py "EMAIL")
              {| entry_value := py "Email"; entry_count := 1 |}
              eq_refl eq_refl)
    as (T' & en' & HT' & Hen' & _ & _ & Hd1).
  vm_compute in HT'. injection HT' as <-.
  vm_compute in Hen'. injection Hen' as <-.
  destruct (Hd1 1%nat) as (d & d1 & Hd & Hd1' & <-); [simpl; lia|].
  vm_compute in Hd. injection Hd as <-.
  split; [exact Hd1'|].
  rewrite Hexact2 in Hd2 by (repeat constructor; discriminate).
  split; [exact Hd2|].
  destruct (Hfields (standard_field_dict st2) (py "EMAIL")
              {| entry_value := py "Email"; entry_count := 3 |})
    as [Hbare Hsuf].
  { apply list_elem_of_here. }
  { vm_compute. reflexivity. }
  { simpl. lia. }
  split; [exact Hbare|]. split; [exact Hsuf|].
  split; [vm_compute; reflexivity|].
  split; [exact Hadr|]. split; [by exists da|]. vm_compute. reflexivity.
Defined.
